(** * The D-Bus keyring (dbus/dbus-keyring.c): cookies stored in the home directory

    A shallow embedding of the keyring of dbus-keyring.c and the proofs of
    its specification.  The file follows the source top-down:

    - [DBusString] and the helpers of dbus-string.c / dbus-sysdeps.c that
      the keyring calls (their sources are in other files of the library;
      each is introduced by a comment saying what it is modelled from);
    - the environment ([World]): the clock, the file system answers, the
      random source and the allocator, each a stream of answers, and the
      monad [M] in which the stateful code runs, logging file-system
      [event]s;
    - the keyring proper: [_dbus_keyring_new], [_dbus_keyring_lock],
      [_dbus_keyring_unlock], [find_key_by_id], [add_new_key],
      [_dbus_keyring_reload], [_dbus_keyring_ref], [_dbus_keyring_unref],
      [_dbus_keyring_new_homedir], [_dbus_keyring_validate_context],
      [find_recent_key] and [_dbus_keyring_get_best_key]; C [int]s and
      [long]s are integers kept to their 32 and 64 bits;
    - the vocabulary of the statements, and the proofs. *)

From Stdlib Require Import ZArith Ascii String Bool Lia Arith List.
Import ListNotations.
Local Open Scope Z_scope.

(** ** Byte strings *)

(** A [DBusString] is a growable byte buffer; a byte is an [ascii]. *)
Definition DBusString : Type := list ascii.

Definition byte_code (c : ascii) : Z := Z.of_N (N_of_ascii c).
Definition byte_of_code (z : Z) : ascii := ascii_of_N (Z.to_N z).

(** String literals of the source, as byte lists. *)
Definition str (s : string) : DBusString := list_ascii_of_string s.

Definition newline : ascii := "010"%char.
Definition space : ascii := " "%char.
Definition tab : ascii := "009"%char.

Definition is_newline (c : ascii) : bool := byte_code c =? 10.
Definition is_blank (c : ascii) : bool := (byte_code c =? 32) || (byte_code c =? 9).
Definition is_digit (c : ascii) : bool := (48 <=? byte_code c) && (byte_code c <=? 57).

(** ** Helpers of dbus-string.c *)

(** Modelled from the spec: [_dbus_string_validate_ascii] of dbus-string.c
    (absent from the tree).  The spec asks for "pure 7-bit ASCII"
    content, "embedded NUL included" among the rejected bytes, with byte
    0x7F accepted and 0x80 rejected. *)
Definition _dbus_string_validate_ascii (s : DBusString) : bool :=
  forallb (fun c => (0 <? byte_code c) && (byte_code c <? 128)) s.

(** Modelled from the spec: [_dbus_string_find] of dbus-string.c (absent
    from the tree), used by the keyring with one-character needles only:
    does the byte occur in the string. *)
Definition _dbus_string_find_char (s : DBusString) (c : ascii) : bool :=
  existsb (fun d => byte_code d =? byte_code c) s.

(** Modelled from the spec: [_dbus_string_pop_line] of dbus-string.c
    (absent from the tree).  "One key per line": the bytes up to the
    first newline are moved out of the buffer, the newline is dropped; a
    last line without newline is returned as it is; an empty buffer gives
    no line. *)
Fixpoint split_at_newline (s : DBusString) : DBusString * option DBusString :=
  match s with
  | [] => ([], None)
  | c :: s' =>
      if is_newline c then ([], Some s')
      else let (l, r) := split_at_newline s' in (c :: l, r)
  end.

Definition _dbus_string_pop_line (source : DBusString)
  : option (DBusString * DBusString) :=
  match source with
  | [] => None
  | _ => match split_at_newline source with
         | (line, Some rest) => Some (line, rest)
         | (line, None) => Some (line, [])
         end
  end.

(** All the lines that successive [_dbus_string_pop_line] calls return,
    until it answers FALSE; [cur] is the line being read, reversed. *)
Fixpoint pop_lines_from (cur : DBusString) (s : DBusString) : list DBusString :=
  match s with
  | [] => match cur with [] => [] | _ => [rev cur] end
  | c :: s' =>
      if is_newline c then rev cur :: pop_lines_from [] s'
      else pop_lines_from (c :: cur) s'
  end.

Definition pop_lines (contents : DBusString) : list DBusString :=
  pop_lines_from [] contents.

(** Modelled from the spec: [_dbus_string_skip_blank] of dbus-string.c
    (absent from the tree).  "Fields separated by blank characters": the
    index of the first byte at or after [start] that is neither a space
    nor a tab. *)
Fixpoint count_blank (s : DBusString) : nat :=
  match s with
  | c :: s' => if is_blank c then S (count_blank s') else O
  | [] => O
  end.

Definition _dbus_string_skip_blank (s : DBusString) (start : nat) : nat :=
  (start + count_blank (skipn start s))%nat.

(** Decimal digits. *)
Definition digit_char (d : Z) : ascii := byte_of_code (48 + d).
Definition digit_val (c : ascii) : Z := byte_code c - 48.

(** The decimal digits of [n >= 0], most significant first, in front of
    [acc]; [fuel] bounds the number of digits. *)
Fixpoint decimal_digits (fuel : nat) (n : Z) (acc : DBusString) : DBusString :=
  match fuel with
  | O => acc
  | S f =>
      let acc' := digit_char (n mod 10) :: acc in
      if n <? 10 then acc' else decimal_digits f (n / 10) acc'
  end.

Definition decimal (n : Z) : DBusString :=
  decimal_digits (S (Z.to_nat (Z.log2 n))) n [].

(** Modelled from the spec: [_dbus_string_append_int] of dbus-string.c
    (absent from the tree).  The encoder "appends id" and
    "creation_time" as integers in text: the decimal numeral, with a
    leading minus sign for a negative value. *)
Definition int_to_string (value : Z) : DBusString :=
  if value <? 0 then "-"%char :: decimal (- value) else decimal value.

(** Reads the leading decimal digits of [s] into [acc]; returns the value
    and the number of bytes read. *)
Fixpoint parse_digits (acc : Z) (s : DBusString) : Z * nat :=
  match s with
  | c :: s' =>
      if is_digit c then
        let (v, n) := parse_digits (10 * acc + digit_val c) s' in (v, S n)
      else (acc, O)
  | [] => (acc, O)
  end.

(** Modelled from the spec: [_dbus_string_parse_int] of dbus-string.c
    (absent from the tree).  "Parse an integer" at index [start]: an
    optional sign and at least one decimal digit; the answer is the value
    and the index after the last digit, or [None] (FALSE) when no integer
    starts there. *)
Definition parse_int_prefix (s : DBusString) : option (Z * nat) :=
  let unsigned (neg : bool) (t : DBusString) (skipped : nat) :=
    match parse_digits 0 t with
    | (_, O) => None
    | (v, n) => Some (if neg then - v else v, (skipped + n)%nat)
    end in
  match s with
  | c :: t =>
      if byte_code c =? 45 then unsigned true t 1%nat
      else if byte_code c =? 43 then unsigned false t 1%nat
      else unsigned false s 0%nat
  | [] => None
  end.

Definition _dbus_string_parse_int (s : DBusString) (start : nat)
  : option (Z * nat) :=
  match parse_int_prefix (skipn start s) with
  | Some (v, n) => Some (v, (start + n)%nat)
  | None => None
  end.

(** Hexadecimal digits. *)
Definition hex_char (d : Z) : ascii :=
  if d <? 10 then byte_of_code (48 + d) else byte_of_code (87 + d).

Definition hex_val (c : ascii) : option Z :=
  let n := byte_code c in
  if (48 <=? n) && (n <=? 57) then Some (n - 48)
  else if (97 <=? n) && (n <=? 102) then Some (n - 87)
  else if (65 <=? n) && (n <=? 70) then Some (n - 55)
  else None.

(** Modelled from the spec: [_dbus_string_hex_encode] of dbus-string.c
    (absent from the tree).  "The hex encoding of secret": two
    hexadecimal digits per byte, high nibble first. *)
Fixpoint hex_encode (s : DBusString) : DBusString :=
  match s with
  | [] => []
  | c :: s' =>
      hex_char (byte_code c / 16) :: hex_char (byte_code c mod 16) :: hex_encode s'
  end.

(** Modelled from the spec: [_dbus_string_hex_decode] of dbus-string.c
    (absent from the tree).  "Hex decoding must interpret pairs of hex
    digits into raw bytes", and it fails on a byte that is no hex digit.
    The spec is silent on a trailing unpaired digit; it is read here as
    the high nibble of a last byte. *)
Fixpoint hex_decode (s : DBusString) : option DBusString :=
  match s with
  | [] => Some []
  | [c] =>
      match hex_val c with
      | Some h => Some [byte_of_code (16 * h)]
      | None => None
      end
  | c1 :: c2 :: s' =>
      match hex_val c1, hex_val c2, hex_decode s' with
      | Some h, Some l, Some bytes => Some (byte_of_code (16 * h + l) :: bytes)
      | _, _, _ => None
      end
  end.

(** ** Constants and data of dbus-keyring.c *)

Definition NEW_KEY_TIMEOUT_SECONDS : Z := 60 * 5.
Definition EXPIRE_KEYS_TIMEOUT_SECONDS : Z := NEW_KEY_TIMEOUT_SECONDS + 60 * 2.
Definition MAX_TIME_TRAVEL_SECONDS : Z := 60 * 5.
Definition MAX_LOCK_TIMEOUTS : nat := 32.
Definition LOCK_TIMEOUT_MILLISECONDS : Z := 250.
Definition KEY_LENGTH_BYTES : nat := 24.
Definition _DBUS_INT_MAX : Z := 2147483647.
Definition _DBUS_INT_MIN : Z := - 2147483648.

(** A C [int] / [dbus_int32_t] computation keeps the low 32 bits, read as
    a two's complement number. *)
Definition wrap_int32 (z : Z) : Z := (z + 2 ^ 31) mod 2 ^ 32 - 2 ^ 31.

(** A C [long], of 64 bits (the LP64 data model): a sum or a difference
    of two [long]s keeps the low 64 bits, read as a two's complement
    number, as the compiled code does. *)
Definition LONG_MAX : Z := 9223372036854775807.
Definition LONG_MIN : Z := - 9223372036854775808.
Definition wrap_long (z : Z) : Z := (z + 2 ^ 63) mod 2 ^ 64 - 2 ^ 63.

(** [DBusKey]: [id] is a [dbus_int32_t], [creation_time] a C [long]
    holding a unix timestamp. *)
Record DBusKey : Type := mkDBusKey {
  id : Z;
  creation_time : Z;
  secret : DBusString
}.

(** [struct DBusKeyring]; [n_keys] is the length of [keys]. *)
Record DBusKeyring : Type := mkDBusKeyring {
  refcount : Z;
  directory : DBusString;
  filename : DBusString;
  filename_lock : DBusString;
  keys : list DBusKey
}.

Definition n_keys (keyring : DBusKeyring) : nat := length (keys keyring).

Definition set_keys (keyring : DBusKeyring) (ks : list DBusKey) : DBusKeyring :=
  mkDBusKeyring (refcount keyring) (directory keyring) (filename keyring)
                (filename_lock keyring) ks.

Inductive DBusErrorName : Type :=
| DBUS_ERROR_NO_MEMORY
| DBUS_ERROR_FAILED.

(** A set [DBusError]: its name and message. *)
Record DBusError : Type := mkDBusError {
  error_name : DBusErrorName;
  error_message : string
}.

(** The pair (return value, [*error]) of a function that returns
    [dbus_bool_t]: TRUE with the error left clear, or FALSE with the
    error set. *)
Inductive outcome (A : Type) : Type :=
| Done (a : A)
| Fail (e : DBusError).
Arguments Done {A} a.
Arguments Fail {A} e.

(** ** The environment *)

(** What the keyring does to the file system, in the order it does it. *)
Inductive event : Type :=
| EvCreateExclusive (path : DBusString) (ok : bool)
| EvDelete (path : DBusString) (ok : bool)
| EvSleep (milliseconds : Z)
| EvGetContents (path : DBusString) (ok : bool)
| EvSave (path : DBusString) (contents : DBusString) (ok : bool)
| EvCreateDirectory (path : DBusString) (ok : bool).

(** Other processes share the files and the machine, so the answers of
    the system are not a function of what this process did: each source
    of answers is a stream, and a call takes the next answer.
    - [w_clock]: the seconds returned by [_dbus_get_current_time];
    - [w_create]: does [_dbus_create_file_exclusively] succeed;
    - [w_delete]: does [_dbus_delete_file] succeed;
    - [w_read]: the contents [_dbus_file_get_contents] loads, [None] when
      it fails;
    - [w_save]: does [_dbus_string_save_to_file] succeed;
    - [w_mkdir]: does [_dbus_create_directory] succeed;
    - [w_random]: the bytes of [_dbus_generate_random_bytes];
    - [w_memory]: does the next allocation succeed. *)
Record World : Type := mkWorld {
  w_clock : nat -> Z;
  w_create : nat -> bool;
  w_delete : nat -> bool;
  w_read : nat -> option DBusString;
  w_save : nat -> bool;
  w_mkdir : nat -> bool;
  w_random : nat -> ascii;
  w_memory : nat -> bool
}.

Definition shift {A} (k : nat) (s : nat -> A) : nat -> A := fun n => s (k + n)%nat.

Fixpoint take {A} (k : nat) (s : nat -> A) : list A :=
  match k with
  | O => []
  | S k' => s O :: take k' (shift 1 s)
  end.

(** A computation reads and advances the world and logs its events;
    [None] is a run that was cut short by lack of fuel (only the retry
    loop of [add_new_key] is unbounded). *)
Definition M (A : Type) : Type := World -> option (A * World * list event).

Definition ret {A} (a : A) : M A := fun w => Some (a, w, []).

Definition bind {A B} (m : M A) (f : A -> M B) : M B :=
  fun w =>
    match m w with
    | None => None
    | Some (a, w1, t1) =>
        match f a w1 with
        | None => None
        | Some (b, w2, t2) => Some (b, w2, t1 ++ t2)
        end
    end.

Definition out_of_fuel {A} : M A := fun _ => None.

Declare Scope keyring_scope.
Delimit Scope keyring_scope with keyring.
Notation "x <- m ;; f" := (bind m (fun x => f))
  (at level 61, m at next level, right associativity) : keyring_scope.
Notation "m ;;; f" := (bind m (fun _ => f))
  (at level 61, right associativity) : keyring_scope.
Local Open Scope keyring_scope.

(** *** Primitives of dbus-sysdeps.c and dbus-memory.c, as answers of the world *)

Definition _dbus_get_current_time : M Z := fun w =>
  Some (w_clock w O,
        mkWorld (shift 1 (w_clock w)) (w_create w) (w_delete w) (w_read w)
                (w_save w) (w_mkdir w) (w_random w) (w_memory w),
        []).

Definition _dbus_create_file_exclusively (path : DBusString) : M bool := fun w =>
  Some (w_create w O,
        mkWorld (w_clock w) (shift 1 (w_create w)) (w_delete w) (w_read w)
                (w_save w) (w_mkdir w) (w_random w) (w_memory w),
        [EvCreateExclusive path (w_create w O)]).

Definition _dbus_delete_file (path : DBusString) : M bool := fun w =>
  Some (w_delete w O,
        mkWorld (w_clock w) (w_create w) (shift 1 (w_delete w)) (w_read w)
                (w_save w) (w_mkdir w) (w_random w) (w_memory w),
        [EvDelete path (w_delete w O)]).

Definition _dbus_sleep_milliseconds (ms : Z) : M unit := fun w =>
  Some (tt, w, [EvSleep ms]).

(** The buffer is empty before the call; a failed load leaves it empty. *)
Definition _dbus_file_get_contents (path : DBusString) : M DBusString := fun w =>
  Some (match w_read w O with Some c => c | None => [] end,
        mkWorld (w_clock w) (w_create w) (w_delete w) (shift 1 (w_read w))
                (w_save w) (w_mkdir w) (w_random w) (w_memory w),
        [EvGetContents path (match w_read w O with Some _ => true | None => false end)]).

Definition _dbus_string_save_to_file (contents path : DBusString) : M bool := fun w =>
  Some (w_save w O,
        mkWorld (w_clock w) (w_create w) (w_delete w) (w_read w)
                (shift 1 (w_save w)) (w_mkdir w) (w_random w) (w_memory w),
        [EvSave path contents (w_save w O)]).

Definition _dbus_create_directory (path : DBusString) : M bool := fun w =>
  Some (w_mkdir w O,
        mkWorld (w_clock w) (w_create w) (w_delete w) (w_read w)
                (w_save w) (shift 1 (w_mkdir w)) (w_random w) (w_memory w),
        [EvCreateDirectory path (w_mkdir w O)]).

(** One allocation: [dbus_realloc], [_dbus_string_init] and every string
    operation of the source whose FALSE means "no memory". *)
Definition alloc : M bool := fun w =>
  Some (w_memory w O,
        mkWorld (w_clock w) (w_create w) (w_delete w) (w_read w)
                (w_save w) (w_mkdir w) (w_random w) (shift 1 (w_memory w)),
        []).

Definition dbus_realloc : M bool := alloc.
Definition _dbus_string_init : M bool := alloc.
Definition _dbus_string_move : M bool := alloc.
Definition _dbus_string_copy : M bool := alloc.

(** [_dbus_generate_random_bytes (&bytes, n)]: [None] is FALSE (no
    memory), otherwise the next [n] random bytes. *)
Definition _dbus_generate_random_bytes (n : nat) : M (option DBusString) :=
  ok <- alloc ;;
  if ok then
    fun w =>
      Some (Some (take n (w_random w)),
            mkWorld (w_clock w) (w_create w) (w_delete w) (w_read w)
                    (w_save w) (w_mkdir w) (shift n (w_random w)) (w_memory w),
            [])
  else ret None.

(** The appending operations: [None] is FALSE (no memory), otherwise the
    buffer with the text appended. *)
Definition _dbus_string_append_int (buf : DBusString) (value : Z) : M (option DBusString) :=
  ok <- alloc ;; ret (if ok then Some (buf ++ int_to_string value) else None).

Definition _dbus_string_append_byte (buf : DBusString) (c : ascii) : M (option DBusString) :=
  ok <- alloc ;; ret (if ok then Some (buf ++ [c]) else None).

Definition _dbus_string_append (buf : DBusString) (s : DBusString) : M (option DBusString) :=
  ok <- alloc ;; ret (if ok then Some (buf ++ s) else None).

Definition _dbus_string_hex_encode (source : DBusString) (dest : DBusString)
  : M (option DBusString) :=
  ok <- alloc ;; ret (if ok then Some (dest ++ hex_encode source) else None).

(** [_dbus_string_hex_decode (&line, start, &secret, 0)] into an empty
    [secret]: FALSE for lack of memory or for a byte that is no hex
    digit. *)
Definition _dbus_string_hex_decode (source : DBusString) (start : nat)
  : M (option DBusString) :=
  ok <- alloc ;; ret (if ok then hex_decode (skipn start source) else None).

(** ** The keyring *)

Definition no_memory {A} (msg : string) : outcome A :=
  Fail (mkDBusError DBUS_ERROR_NO_MEMORY msg).
Definition failed {A} (msg : string) : outcome A :=
  Fail (mkDBusError DBUS_ERROR_FAILED msg).

(** [_dbus_keyring_new]: the structure and its three strings are
    allocated; the key list starts empty. *)
Definition _dbus_keyring_new : M (option DBusKeyring) :=
  ok0 <- alloc ;;
  if negb ok0 then ret None else
  ok1 <- _dbus_string_init ;;
  if negb ok1 then ret None else
  ok2 <- _dbus_string_init ;;
  if negb ok2 then ret None else
  ok3 <- _dbus_string_init ;;
  if negb ok3 then ret None else
  ret (Some (mkDBusKeyring 1 [] [] [] [])).

(** *** The lock *)

(** The [while (n_timeouts < MAX_LOCK_TIMEOUTS)] loop of
    [_dbus_keyring_lock]; [remaining] is
    [MAX_LOCK_TIMEOUTS - n_timeouts], the value returned is [n_timeouts]
    when the loop is left. *)
Fixpoint lock_wait (keyring : DBusKeyring) (remaining n_timeouts : nat) : M nat :=
  match remaining with
  | O => ret n_timeouts
  | S remaining' =>
      ok <- _dbus_create_file_exclusively (filename_lock keyring) ;;
      if ok then ret n_timeouts
      else
        _dbus_sleep_milliseconds LOCK_TIMEOUT_MILLISECONDS ;;;
        lock_wait keyring remaining' (S n_timeouts)
  end.

Definition _dbus_keyring_lock (keyring : DBusKeyring) : M bool :=
  n_timeouts <- lock_wait keyring MAX_LOCK_TIMEOUTS O ;;
  if Nat.eqb n_timeouts MAX_LOCK_TIMEOUTS then
    deleted <- _dbus_delete_file (filename_lock keyring) ;;
    if negb deleted then ret false
    else
      created <- _dbus_create_file_exclusively (filename_lock keyring) ;;
      if negb created then ret false else ret true
  else ret true.

Definition _dbus_keyring_unlock (keyring : DBusKeyring) : M unit :=
  _dbus_delete_file (filename_lock keyring) ;;; ret tt.

(** *** Adding a key *)

Fixpoint find_key_by_id (keys : list DBusKey) (key_id : Z) : option DBusKey :=
  match keys with
  | [] => None
  | key :: rest =>
      if id key =? key_id then Some key else find_key_by_id rest key_id
  end.

(** [s[0] | (s[1] << 8) | (s[2] << 16) | (s[3] << 24)] in 32-bit [int]. *)
Definition random_id (s : DBusString) : Z :=
  let b (i : nat) := byte_code (nth i s zero) in
  wrap_int32 (Z.lor (Z.lor (Z.lor (b 0%nat) (Z.shiftl (b 1%nat) 8))
                           (Z.shiftl (b 2%nat) 16))
                    (Z.shiftl (b 3%nat) 24)).

(** [if (id < 0) id = - id;] in 32-bit [int]. *)
Definition new_key_id (s : DBusString) : Z :=
  let id := random_id s in
  if id <? 0 then wrap_int32 (- id) else id.

(** The condition of [_dbus_assert (id >= 0)]; the assertion is compiled
    out of a build without checks, and [add_new_key] goes on. *)
Definition add_new_key_assertion (s : DBusString) : bool := 0 <=? new_key_id s.

(** The [retry:] loop of [add_new_key]: draw four bytes until the ID they
    give is not the ID of a key of the list. *)
Fixpoint draw_new_id (fuel : nat) (keys : list DBusKey) : M (outcome Z) :=
  match fuel with
  | O => out_of_fuel
  | S fuel' =>
      r <- _dbus_generate_random_bytes 4 ;;
      match r with
      | None => ret (no_memory "No memory to generate new secret key")
      | Some s =>
          let id := new_key_id s in
          match find_key_by_id keys id with
          | Some _ => draw_new_id fuel' keys
          | None => ret (Done id)
          end
      end
  end.

Definition add_new_key (fuel : nat) (keys : list DBusKey)
  : M (outcome (list DBusKey)) :=
  ok <- _dbus_string_init ;;
  if negb ok then ret (no_memory "No memory to generate new secret key") else
  r <- draw_new_id fuel keys ;;
  match r with
  | Fail e => ret (Fail e)
  | Done id =>
      r <- _dbus_generate_random_bytes KEY_LENGTH_BYTES ;;
      match r with
      | None => ret (no_memory "No memory to generate new secret key")
      | Some bytes =>
          ok <- dbus_realloc ;;
          if negb ok then ret (no_memory "No memory to reallocate secret key list") else
          ok <- _dbus_string_init ;;
          if negb ok then ret (no_memory "No memory to store secret key") else
          timestamp <- _dbus_get_current_time ;;
          ok <- _dbus_string_move ;;
          if negb ok then ret (no_memory "No memory to store secret key") else
          ret (Done (keys ++ [mkDBusKey id timestamp bytes]))
      end
  end.

(** *** Reloading *)

(** The test that drops a line for its timestamp; [now] and
    [timestamp] are [long]s, and so are the sum and the difference. *)
Definition key_time_rejected (now timestamp : Z) : bool :=
  (timestamp <? 0)
  || (wrap_long (now + MAX_TIME_TRAVEL_SECONDS) <? timestamp)
  || (wrap_long (now - EXPIRE_KEYS_TIMEOUT_SECONDS) >? timestamp).

(** The [while (_dbus_string_pop_line (&contents, &line))] loop of
    [_dbus_keyring_reload], over the lines popped; a line that is not
    taken is [continue]d, a failure leaves the loop for [out].  [val]
    and [timestamp] are [long]s; a numeral that does not fit one is
    read here as the number it writes, which the two range tests skip
    as they skip a line whose number cannot be parsed. *)
Fixpoint load_keys (now : Z) (lines : list DBusString) (keys : list DBusKey)
  : M (outcome (list DBusKey)) :=
  match lines with
  | [] => ret (Done keys)
  | line :: rest =>
      match _dbus_string_parse_int line 0 with
      | None => load_keys now rest keys
      | Some (val, next) =>
          if (val >? _DBUS_INT_MAX) || (val <? 0) then load_keys now rest keys
          else
            let id := val in
            let next := _dbus_string_skip_blank line next in
            match _dbus_string_parse_int line next with
            | None => load_keys now rest keys
            | Some (timestamp, next) =>
                if key_time_rejected now timestamp then load_keys now rest keys
                else
                  let next := _dbus_string_skip_blank line next in
                  let len := length line in
                  if Nat.eqb (len - next) 0 then load_keys now rest keys
                  else
                    ok <- dbus_realloc ;;
                    if negb ok
                    then ret (no_memory "No memory to reallocate secret key list")
                    else
                    ok <- _dbus_string_init ;;
                    if negb ok
                    then ret (no_memory "No memory to store secret key")
                    else
                    r <- _dbus_string_hex_decode line next ;;
                    match r with
                    | None =>
                        ret (no_memory "No memory to store secret key or invalid hex encoding")
                    | Some secret =>
                        load_keys now rest (keys ++ [mkDBusKey id timestamp secret])
                    end
            end
      end
  end.

Definition nomem_save {A} : outcome A := no_memory "No memory to save secret keyring".

(** The [while (i < n_keys)] loop that writes the keys into [contents]. *)
Fixpoint save_keys (keys : list DBusKey) (contents : DBusString)
  : M (outcome DBusString) :=
  match keys with
  | [] => ret (Done contents)
  | key :: rest =>
      r <- _dbus_string_append_int contents (id key) ;;
      match r with None => ret nomem_save | Some contents =>
      r <- _dbus_string_append_byte contents space ;;
      match r with None => ret nomem_save | Some contents =>
      r <- _dbus_string_append_int contents (creation_time key) ;;
      match r with None => ret nomem_save | Some contents =>
      r <- _dbus_string_append_byte contents space ;;
      match r with None => ret nomem_save | Some contents =>
      r <- _dbus_string_hex_encode (secret key) contents ;;
      match r with None => ret nomem_save | Some contents =>
      r <- _dbus_string_append_byte contents newline ;;
      match r with None => ret nomem_save | Some contents =>
      save_keys rest contents
      end end end end end end
  end.

(** [_dbus_keyring_reload] from [_dbus_file_get_contents] to the last
    statement before the new list is installed: the list to install, or
    the error with which the code jumps to [out]. *)
Definition reload_keys (fuel : nat) (keyring : DBusKeyring) (add_new : bool) (now : Z)
  : M (outcome (list DBusKey)) :=
  contents <- _dbus_file_get_contents (filename keyring) ;;
  let contents := if _dbus_string_validate_ascii contents then contents else [] in
  r <- load_keys now (pop_lines contents) [] ;;
  match r with
  | Fail e => ret (Fail e)
  | Done keys =>
      if add_new then
        r <- add_new_key fuel keys ;;
        match r with
        | Fail e => ret (Fail e)
        | Done keys =>
            r <- save_keys keys [] ;;
            match r with
            | Fail e => ret (Fail e)
            | Done contents =>
                saved <- _dbus_string_save_to_file contents (filename keyring) ;;
                if saved then ret (Done keys)
                else ret (failed "Failed to save keyring file: %s")
            end
        end
      else ret (Done keys)
  end.

(** The end of [_dbus_keyring_reload]: the new list is installed when
    the body succeeded, then, at [out:], the lock is released if held. *)
Definition reload_out (keyring : DBusKeyring) (have_lock : bool)
    (r : outcome (list DBusKey)) : M (DBusKeyring * outcome unit) :=
  let result :=
    match r with
    | Done keys => (set_keys keyring keys, Done tt)
    | Fail e => (keyring, Fail e)
    end in
  (if have_lock then _dbus_keyring_unlock keyring else ret tt) ;;;
  ret result.

Definition _dbus_keyring_reload (fuel : nat) (keyring : DBusKeyring) (add_new : bool)
  : M (DBusKeyring * outcome unit) :=
  ok <- _dbus_string_init ;;
  if negb ok then ret (keyring, no_memory "No memory to reload keyring") else
  ok <- _dbus_string_init ;;
  if negb ok then ret (keyring, no_memory "No memory to reload keyring") else
  now <- _dbus_get_current_time ;;
  if add_new then
    locked <- _dbus_keyring_lock keyring ;;
    if negb locked
    then reload_out keyring false (failed "Could not lock keyring file to add to it")
    else
      r <- reload_keys fuel keyring add_new now ;;
      reload_out keyring true r
  else
    r <- reload_keys fuel keyring add_new now ;;
    reload_out keyring false r.

(** *** The public interface *)

(** [_dbus_keyring_ref]: [refcount] is a C [int]. *)
Definition _dbus_keyring_ref (keyring : DBusKeyring) : DBusKeyring :=
  mkDBusKeyring (wrap_int32 (refcount keyring + 1)) (directory keyring)
                (filename keyring) (filename_lock keyring) (keys keyring).

(** [_dbus_keyring_unref]: [None] when the last reference is dropped and
    the keyring is finalized. *)
Definition _dbus_keyring_unref (keyring : DBusKeyring) : option DBusKeyring :=
  let count := wrap_int32 (refcount keyring - 1) in
  if count =? 0 then None
  else Some (mkDBusKeyring count (directory keyring)
                           (filename keyring) (filename_lock keyring)
                           (keys keyring)).

Definition _dbus_keyring_validate_context (context : DBusString) : bool :=
  if Nat.eqb (length context) 0 then false
  else if negb (_dbus_string_validate_ascii context) then false
  else if _dbus_string_find_char context "/"%char then false
  else if _dbus_string_find_char context "\"%char then false
  else if _dbus_string_find_char context "."%char then false
  else true.

(** Modelled from the spec: [_dbus_concat_dir_and_file] of dbus-sysdeps.c
    (absent from the tree).  "directory = home/.dbus-keyrings, data file
    = directory/context": the two names joined by a slash; [None] is
    FALSE (no memory). *)
Definition _dbus_concat_dir_and_file (dir file : DBusString) : M (option DBusString) :=
  ok <- alloc ;; ret (if ok then Some (dir ++ "/"%char :: file) else None).

(** [_dbus_keyring_new_homedir]: the keyring or NULL, and the error set,
    if any (the first return sets none).  [homedir] is the answer of the
    user database ([_dbus_user_info_from_current_process] followed by the
    copy of the directory, or [_dbus_homedir_from_username]), [None] when
    it fails. *)
Definition _dbus_keyring_new_homedir (fuel : nat) (homedir : option DBusString)
    (context : DBusString) : M (option DBusKeyring * option DBusError) :=
  let failed_no_memory : option DBusKeyring * option DBusError :=
    (None, Some (mkDBusError DBUS_ERROR_NO_MEMORY "No memory to create keyring")) in
  ok <- _dbus_string_init ;;
  if negb ok then ret (None, None) else
  match homedir with
  | None => ret failed_no_memory
  | Some homedir =>
      k <- _dbus_keyring_new ;;
      match k with
      | None => ret failed_no_memory
      | Some keyring =>
          if negb (_dbus_keyring_validate_context context)
          then ret (None, Some (mkDBusError DBUS_ERROR_FAILED
                                  "Invalid context in keyring creation"))
          else
          ok <- _dbus_string_copy ;;
          if negb ok then ret failed_no_memory else
          r <- _dbus_concat_dir_and_file homedir (str ".dbus-keyrings") ;;
          match r with None => ret failed_no_memory | Some dir =>
          ok <- _dbus_string_copy ;;
          if negb ok then ret failed_no_memory else
          r <- _dbus_concat_dir_and_file dir context ;;
          match r with None => ret failed_no_memory | Some file =>
          ok <- _dbus_string_copy ;;
          if negb ok then ret failed_no_memory else
          r <- _dbus_string_append file (str ".lock") ;;
          match r with None => ret failed_no_memory | Some lock =>
          let keyring := mkDBusKeyring (refcount keyring) dir file lock (keys keyring) in
          kr <- _dbus_keyring_reload fuel keyring false ;;
          _dbus_create_directory (directory keyring) ;;;
          ret (Some (fst kr), None)
          end end end
      end
  end.

(** The scan of [find_recent_key] at the time [tv_sec], a [long] as
    the difference [tv_sec - NEW_KEY_TIMEOUT_SECONDS] is. *)
Fixpoint first_recent_key (tv_sec : Z) (keys : list DBusKey) : option DBusKey :=
  match keys with
  | [] => None
  | key :: rest =>
      if wrap_long (tv_sec - NEW_KEY_TIMEOUT_SECONDS) <? creation_time key
      then Some key
      else first_recent_key tv_sec rest
  end.

Definition find_recent_key (keyring : DBusKeyring) : M (option DBusKey) :=
  tv_sec <- _dbus_get_current_time ;;
  ret (first_recent_key tv_sec (keys keyring)).

(** [_dbus_keyring_get_best_key]: the keyring after the call, the [int]
    returned and the error set, if any. *)
Definition _dbus_keyring_get_best_key (fuel : nat) (keyring : DBusKeyring)
  : M (DBusKeyring * Z * option DBusError) :=
  key <- find_recent_key keyring ;;
  match key with
  | Some key => ret (keyring, id key, None)
  | None =>
      r <- _dbus_keyring_reload fuel keyring true ;;
      match r with
      | (keyring, Fail e) => ret (keyring, -1, Some e)
      | (keyring, Done _) =>
          key <- find_recent_key keyring ;;
          match key with
          | Some key => ret (keyring, id key, None)
          | None =>
              ret (keyring, -1,
                   Some (mkDBusError DBUS_ERROR_FAILED
                     "No recent-enough key found in keyring, and unable to create a new key"))
          end
      end
  end.

(** ** Worlds and inputs for the examples *)

Definition always {A} (a : A) : nat -> A := fun _ => a.

(** Answers given by a list, then a default. *)
Definition answers {A} (l : list A) (default : A) : nat -> A :=
  fun n => nth n l default.

(** A quiet world at time [now]: every call succeeds, the data file holds
    [file], the random source yields [random] and then zeros. *)
Definition quiet_world (now : Z) (file : option DBusString) (random : list ascii) : World :=
  mkWorld (always now) (always true) (always true) (always file)
          (always true) (always true) (answers random zero) (always true).

Definition example_keyring (keys : list DBusKey) : DBusKeyring :=
  mkDBusKeyring 1 (str "/home/u/.dbus-keyrings")
                (str "/home/u/.dbus-keyrings/ctx")
                (str "/home/u/.dbus-keyrings/ctx.lock") keys.

(** The result, the events and nothing of the world. *)
Definition run {A} (m : M A) (w : World) : option (A * list event) :=
  match m w with
  | Some (a, _, t) => Some (a, t)
  | None => None
  end.

(** A line of text followed by its newline. *)
Definition ln (s : string) : DBusString := str s ++ [newline].

(** * The vocabulary of the statements *)

(** The events of [k] failed attempts, each followed by its sleep. *)
Definition failed_attempts (keyring : DBusKeyring) (k : nat) : list event :=
  concat (repeat [EvCreateExclusive (filename_lock keyring) false;
                  EvSleep LOCK_TIMEOUT_MILLISECONDS] k).

(** The class of a byte, as the tests of the parsers see it. *)
Definition plain_digit (c : ascii) : Prop :=
  is_digit c = true /\ is_blank c = false /\ is_newline c = false
  /\ (byte_code c =? 45) = false /\ (byte_code c =? 43) = false
  /\ 0 < byte_code c < 128.

(** The same for a hexadecimal digit (or any byte of a secret's text). *)
Definition plain_hex (c : ascii) : Prop :=
  is_blank c = false /\ is_newline c = false /\ 0 < byte_code c < 128.

(** The number that the digits [ds] add to the number [acc] read so far. *)
Definition digits_value (acc : Z) (ds : DBusString) : Z :=
  fold_left (fun a c => 10 * a + digit_val c) ds acc.

(** A text does not continue a numeral when it is empty or starts with
    a byte that is no digit. *)
Definition no_digit_ahead (s : DBusString) : Prop :=
  match s with
  | [] => True
  | c :: _ => is_digit c = false
  end.

(** The text of a key without its newline, and the text of a list of
    keys, as [save_keys] writes them. *)
Definition key_line (key : DBusKey) : DBusString :=
  int_to_string (id key) ++ space :: int_to_string (creation_time key)
  ++ space :: hex_encode (secret key).

(** One line per key, each closed by a newline. *)
Definition encode_keys (keys : list DBusKey) : DBusString :=
  concat (map (fun key => key_line key ++ [newline]) keys).

(** No allocation fails. *)
Definition mem_ok (w : World) : Prop := forall n, w_memory w n = true.

(** The world after one allocation. *)
Definition after_alloc (w : World) : World :=
  mkWorld (w_clock w) (w_create w) (w_delete w) (w_read w)
          (w_save w) (w_mkdir w) (w_random w) (shift 1 (w_memory w)).

(** What the loop of [_dbus_keyring_reload] decides about a line before
    it allocates anything: the line is skipped, or it has all three
    parts, the ID, the timestamp and the index at which the secret
    starts. *)
Inductive line_parts : Type :=
| Skipped
| Parts (key_id timestamp : Z) (next : nat).

Definition classify_line (now : Z) (line : DBusString) : line_parts :=
  match _dbus_string_parse_int line 0 with
  | None => Skipped
  | Some (val, next) =>
      if (val >? _DBUS_INT_MAX) || (val <? 0) then Skipped
      else
        let next := _dbus_string_skip_blank line next in
        match _dbus_string_parse_int line next with
        | None => Skipped
        | Some (timestamp, next) =>
            if key_time_rejected now timestamp then Skipped
            else
              let next := _dbus_string_skip_blank line next in
              if Nat.eqb (length line - next) 0 then Skipped
              else Parts val timestamp next
        end
  end.


(** The times at which neither [now + MAX_TIME_TRAVEL_SECONDS] nor
    [now - EXPIRE_KEYS_TIMEOUT_SECONDS] overflows a [long]. *)
Definition plain_time (now : Z) : Prop :=
  LONG_MIN + 420 <= now <= LONG_MAX - 300.

(** The conditions on a key for its line to be taken at the time [now]:
    an ID between 0 and [INT_MAX], a creation time that is not
    negative, not before [now - 420] and not after [now + 300], a
    secret of at least one byte. *)
Definition loadable (now : Z) (key : DBusKey) : Prop :=
  0 <= id key <= _DBUS_INT_MAX
  /\ 0 <= creation_time key
  /\ now - 420 <= creation_time key <= now + 300
  /\ secret key <> [].

(** Does [load_keys] take the key back from its line at the time [now]. *)
Definition survives (now : Z) (key : DBusKey) : bool :=
  negb ((id key >? _DBUS_INT_MAX) || (id key <? 0))
  && negb (key_time_rejected now (creation_time key))
  && match secret key with [] => false | _ => true end.

(** The clock of [w'] is the clock of [w] some readings later. *)
Definition clock_later (w w' : World) : Prop :=
  exists k, forall n, w_clock w' n = w_clock w (k + n)%nat.

(** [respects E m]: a run of [m] only advances the clock, and all its
    events satisfy [E]. *)
Definition respects {A} (E : event -> Prop) (m : M A) : Prop :=
  forall w a w' t, m w = Some (a, w', t) -> clock_later w w' /\ Forall E t.

(** No constraint on the events. *)
Definition any_event : event -> Prop := fun _ => True.

(** The events of the data file. *)
Definition data_event (e : event) : Prop :=
  match e with
  | EvGetContents _ _ | EvSave _ _ _ => True
  | _ => False
  end.

(** The value that [reload_out] returns for the result [r] of the body. *)
Definition reload_result (keyring : DBusKeyring) (r : outcome (list DBusKey))
  : DBusKeyring * outcome unit :=
  match r with
  | Done keys => (set_keys keyring keys, Done tt)
  | Fail e => (keyring, Fail e)
  end.

(** The three ways through [_dbus_keyring_reload]: an early return for
    lack of memory; a lock that is not acquired; or the body, between
    the acquisition of the lock (when a key is added) and its release. *)
Inductive reload_run (fuel : nat) (keyring : DBusKeyring) (add_new : bool)
    (w : World) (res : DBusKeyring * outcome unit) (t : list event) : Prop :=
| reload_no_memory e :
    res = (keyring, Fail e) -> t = [] ->
    reload_run fuel keyring add_new w res t
| reload_not_locked e w1 w2 :
    add_new = true ->
    res = (keyring, Fail e) ->
    _dbus_keyring_lock keyring w1 = Some (false, w2, t) ->
    reload_run fuel keyring add_new w res t
| reload_body w1 w2 w3 r t_lock t_keys t_unlock :
    w_read w2 = w_read w ->
    (if add_new
     then _dbus_keyring_lock keyring w1 = Some (true, w2, t_lock)
     else w2 = w1 /\ t_lock = []) ->
    reload_keys fuel keyring add_new (w_clock w O) w2 = Some (r, w3, t_keys) ->
    res = reload_result keyring r ->
    t_unlock = (if add_new
                then [EvDelete (filename_lock keyring) (w_delete w3 O)]
                else []) ->
    t = t_lock ++ t_keys ++ t_unlock ->
    reload_run fuel keyring add_new w res t.

(** The world after one reading of the clock. *)
Definition after_time (w : World) : World :=
  mkWorld (shift 1 (w_clock w)) (w_create w) (w_delete w) (w_read w)
          (w_save w) (w_mkdir w) (w_random w) (w_memory w).

(** A successful exclusive creation: the lock is acquired. *)
Definition acquires (e : event) : Prop :=
  match e with
  | EvCreateExclusive _ true => True
  | _ => False
  end.

(** The times at which [tv_sec - NEW_KEY_TIMEOUT_SECONDS] does not
    overflow a [long]. *)
Definition plain_scan_time (tv_sec : Z) : Prop :=
  LONG_MIN + 300 <= tv_sec <= LONG_MAX.

(** A key made 300 seconds or more before [tv_sec]. *)
Definition stale (tv_sec : Z) (key : DBusKey) : Prop :=
  creation_time key <= tv_sec - 300.

(** What [_dbus_keyring_get_best_key] does when its scan finds no key:
    the reload that adds a key, then the second scan. *)
Definition reload_and_scan (fuel : nat) (keyring : DBusKeyring)
  : M (DBusKeyring * Z * option DBusError) :=
  r <- _dbus_keyring_reload fuel keyring true ;;
  match r with
  | (keyring, Fail e) => ret (keyring, -1, Some e)
  | (keyring, Done _) =>
      key <- find_recent_key keyring ;;
      match key with
      | Some key => ret (keyring, id key, None)
      | None =>
          ret (keyring, -1,
               Some (mkDBusError DBUS_ERROR_FAILED
                 "No recent-enough key found in keyring, and unable to create a new key"))
      end
  end.

(** The clock stays at [now]: every reading gives the same second. *)
Definition clock_is (now : Z) (w : World) : Prop := forall n, w_clock w n = now.

(** A line with its three parts whose secret is not hexadecimal. *)
Definition bad_hex_line (now : Z) (line : DBusString) : Prop :=
  exists key_id timestamp next,
    classify_line now line = Parts key_id timestamp next
    /\ hex_decode (skipn next line) = None.

(** The text that a reload works on: what was read, or nothing when the
    file could not be read or is not ASCII. *)
Definition file_text (read : option DBusString) : DBusString :=
  match read with
  | Some contents => if _dbus_string_validate_ascii contents then contents else []
  | None => []
  end.

(** The IDs of the lines that [load_keys] takes at the time [now]: the
    lines with an ID in range, a timestamp that is not expired and a
    secret. *)
Fixpoint accepted_ids (now : Z) (lines : list DBusString) : list Z :=
  match lines with
  | [] => []
  | line :: rest =>
      match classify_line now line with
      | Parts key_id _ _ => key_id :: accepted_ids now rest
      | Skipped => accepted_ids now rest
      end
  end.

(** The IDs that a reload started in [w] finds in the file. *)
Definition file_ids (w : World) : list Z :=
  accepted_ids (w_clock w O) (pop_lines (file_text (w_read w O))).

(** The [k]-th draw of four bytes. *)
Definition nth_draw (w : World) (k : nat) : DBusString :=
  take 4 (shift (4 * k) (w_random w)).

(** ** More vocabulary: the lock *)

(** The milliseconds slept in a list of events. *)
Fixpoint sleep_total (t : list event) : Z :=
  match t with
  | [] => 0
  | EvSleep ms :: t' => ms + sleep_total t'
  | _ :: t' => sleep_total t'
  end.

(** The number of exclusive creations attempted, and of deletions. *)
Fixpoint creations (t : list event) : nat :=
  match t with
  | [] => O
  | EvCreateExclusive _ _ :: t' => S (creations t')
  | _ :: t' => creations t'
  end.

Fixpoint deletions (t : list event) : nat :=
  match t with
  | [] => O
  | EvDelete _ _ :: t' => S (deletions t')
  | _ :: t' => deletions t'
  end.

(** An event of the lock: a creation or a deletion of the lock file of
    the keyring, or a sleep of [LOCK_TIMEOUT_MILLISECONDS]. *)
Definition lock_event (keyring : DBusKeyring) (e : event) : Prop :=
  match e with
  | EvCreateExclusive path _ | EvDelete path _ => path = filename_lock keyring
  | EvSleep ms => ms = LOCK_TIMEOUT_MILLISECONDS
  | _ => False
  end.

(** ** More vocabulary: what a reload loads *)

(** What the loop of [_dbus_keyring_reload] has checked of a key that it
    loaded at the time [now]: the ID is in the range of a non-negative
    [int], the creation time is not negative, at most 300 seconds after
    [now] and at most 420 seconds before, the two bounds being taken in
    a [long]. *)
Definition key_checked (now : Z) (key : DBusKey) : Prop :=
  0 <= id key <= _DBUS_INT_MAX
  /\ 0 <= creation_time key
  /\ wrap_long (now - 420) <= creation_time key <= wrap_long (now + 300).

(** The event of the reload that reads the data file in the world [w]. *)
Definition get_contents_event (keyring : DBusKeyring) (w : World) : event :=
  EvGetContents (filename keyring)
    (match w_read w O with Some _ => true | None => false end).

(** ** More vocabulary: references *)

(** [n] calls of [_dbus_keyring_unref] in a row; [None] once the keyring
    is finalized. *)
Fixpoint unref_times (n : nat) (keyring : DBusKeyring) : option DBusKeyring :=
  match n with
  | O => Some keyring
  | S n' =>
      match _dbus_keyring_unref keyring with
      | Some keyring' => unref_times n' keyring'
      | None => None
      end
  end.

(** What the construction of a keyring may do to the file system: read
    the data file and create the directory. *)
Definition construction_event (keyring : DBusKeyring) (e : event) : Prop :=
  (exists ok, e = EvGetContents (filename keyring) ok)
  \/ (exists ok, e = EvCreateDirectory (directory keyring) ok).


(** * Proofs *)

(** ** The monad *)

Lemma bind_Some {A B} (m : M A) (f : A -> M B) w b w2 t :
  bind m f w = Some (b, w2, t) ->
  exists a w1 t1 t2,
    m w = Some (a, w1, t1) /\ f a w1 = Some (b, w2, t2) /\ t = t1 ++ t2.
Proof.
  unfold bind. destruct (m w) as [[[a w1] t1]|]; [|discriminate].
  destruct (f a w1) as [[[b' w2'] t2]|] eqn:E; [|discriminate].
  intros H. injection H as -> -> <-. now exists a, w1, t1, t2.
Qed.

Lemma bind_eq {A B} (m : M A) (f : A -> M B) w a w1 t1 :
  m w = Some (a, w1, t1) ->
  bind m f w =
  match f a w1 with
  | Some (b, w2, t2) => Some (b, w2, t1 ++ t2)
  | None => None
  end.
Proof. intros H. unfold bind. now rewrite H. Qed.

Lemma run_Some {A} (m : M A) w a t :
  run m w = Some (a, t) <-> exists w', m w = Some (a, w', t).
Proof.
  unfold run. split.
  - destruct (m w) as [[[a' w'] t']|]; [|discriminate].
    intros H. injection H as -> ->. now exists w'.
  - intros [w' ->]. reflexivity.
Qed.

Lemma ret_Some {A} (a : A) w a' w' t :
  ret a w = Some (a', w', t) -> a' = a /\ w' = w /\ t = [].
Proof. intros H. injection H as <- <- <-. auto. Qed.

Lemma bind_silent {A B} (m : M A) (f : A -> M B) w a w1 :
  m w = Some (a, w1, []) -> bind m f w = f a w1.
Proof.
  intros H. unfold bind. rewrite H.
  destruct (f a w1) as [[[b w2] t2]|]; reflexivity.
Qed.

Lemma bind_alloc {B} (f : bool -> M B) w :
  bind alloc f w = f (w_memory w O) (after_alloc w).
Proof. now apply bind_silent. Qed.

Lemma bind_time {B} (f : Z -> M B) w :
  bind _dbus_get_current_time f w = f (w_clock w O) (after_time w).
Proof. now apply bind_silent. Qed.

Lemma bind_assoc {A B C} (m : M A) (g : A -> M B) (f : B -> M C) w :
  bind (bind m g) f w = bind m (fun a => bind (g a) f) w.
Proof.
  unfold bind. destruct (m w) as [[[a w1] t1]|]; [|reflexivity].
  destruct (g a w1) as [[[b w2] t2]|]; [|reflexivity].
  destruct (f b w2) as [[[c w3] t3]|]; [|reflexivity].
  now rewrite app_assoc.
Qed.

Lemma bind_ret {A B} (a : A) (f : A -> M B) w : bind (ret a) f w = f a w.
Proof. now apply bind_silent. Qed.

(** ** The arithmetic of [long] *)

Lemma wrap_long_range z : LONG_MIN <= wrap_long z <= LONG_MAX.
Proof.
  unfold wrap_long, LONG_MIN, LONG_MAX.
  pose proof (Z.mod_pos_bound (z + 2 ^ 63) (2 ^ 64) ltac:(lia)). lia.
Qed.

Lemma wrap_long_small z : LONG_MIN <= z <= LONG_MAX -> wrap_long z = z.
Proof.
  unfold wrap_long, LONG_MIN, LONG_MAX. intros H.
  rewrite Z.mod_small; lia.
Qed.

(** The expiry test at a time at which nothing overflows. *)
Lemma key_time_rejected_iff now timestamp :
  plain_time now ->
  key_time_rejected now timestamp = true
  <-> timestamp < 0 \/ now + 300 < timestamp \/ timestamp < now - 420.
Proof.
  unfold plain_time, key_time_rejected, MAX_TIME_TRAVEL_SECONDS,
    EXPIRE_KEYS_TIMEOUT_SECONDS, NEW_KEY_TIMEOUT_SECONDS.
  intros Hnow.
  change (60 * 5 + 60 * 2) with 420. change (60 * 5) with 300.
  rewrite !wrap_long_small by (unfold LONG_MIN, LONG_MAX in *; lia).
  rewrite !orb_true_iff, !Z.ltb_lt, Z.gtb_gt. lia.
Qed.

(** ** The ID of a new key *)

Lemma wrap_int32_range z : _DBUS_INT_MIN <= wrap_int32 z <= _DBUS_INT_MAX.
Proof.
  unfold wrap_int32, _DBUS_INT_MIN, _DBUS_INT_MAX.
  pose proof (Z.mod_pos_bound (z + 2 ^ 31) (2 ^ 32) ltac:(lia)). lia.
Qed.

Lemma wrap_int32_small z :
  _DBUS_INT_MIN <= z <= _DBUS_INT_MAX -> wrap_int32 z = z.
Proof.
  unfold wrap_int32, _DBUS_INT_MIN, _DBUS_INT_MAX. intros H.
  rewrite Z.mod_small; lia.
Qed.

(** Every draw but the one that gives [INT_MIN] yields a non-negative ID. *)
Lemma new_key_id_nonneg s :
  random_id s <> _DBUS_INT_MIN -> 0 <= new_key_id s.
Proof.
  unfold new_key_id. intros Hmin.
  pose proof (wrap_int32_range
    (Z.lor (Z.lor (Z.lor (byte_code (nth 0 s zero))
                         (Z.shiftl (byte_code (nth 1 s zero)) 8))
                  (Z.shiftl (byte_code (nth 2 s zero)) 16))
           (Z.shiftl (byte_code (nth 3 s zero)) 24))) as Hr.
  fold (random_id s) in Hr.
  destruct (random_id s <? 0) eqn:E.
  - apply Z.ltb_lt in E. rewrite wrap_int32_small;
      unfold _DBUS_INT_MIN, _DBUS_INT_MAX in *; lia.
  - apply Z.ltb_ge in E. exact E.
Qed.

(** C7: the draw 00 00 00 80 is the integer [INT_MIN], whose negation in
    32-bit arithmetic is [INT_MIN] again: the ID stays negative, the
    condition of [_dbus_assert (id >= 0)] is false, and [add_new_key]
    stores a key with the ID -2147483648. *)
Theorem C7_new_key_id_negative :
  let draw := [zero; zero; zero; "128"%char] in
  random_id draw = _DBUS_INT_MIN
  /\ new_key_id draw = -2147483648
  /\ add_new_key_assertion draw = false
  /\ run (add_new_key 1 []) (quiet_world 1000 None draw)
     = Some (Done [mkDBusKey (-2147483648) 1000 (repeat zero 24)], []).
Proof. repeat split; vm_compute; reflexivity. Qed.

(** ** The lock *)

Lemma lock_wait_all_fail keyring remaining : forall n w,
  (forall i, (i < remaining)%nat -> w_create w i = false) ->
  exists w',
    lock_wait keyring remaining n w
    = Some ((n + remaining)%nat, w', failed_attempts keyring remaining)
    /\ w_delete w' = w_delete w
    /\ (forall i, w_create w' i = w_create w (remaining + i)%nat).
Proof.
  induction remaining as [|r IH]; intros n w Hfail.
  - exists w. simpl. rewrite Nat.add_0_r. auto.
  - pose proof (Hfail O ltac:(lia)) as H0.
    destruct (IH (S n)
      (mkWorld (w_clock w) (shift 1 (w_create w)) (w_delete w) (w_read w)
               (w_save w) (w_mkdir w) (w_random w) (w_memory w)))
      as (w' & Hrun & Hdel & Hcre).
    { intros i Hi. simpl. unfold shift. apply Hfail. lia. }
    exists w'. split; [|split].
    + cbn [lock_wait]. unfold bind at 1.
      unfold _dbus_create_file_exclusively at 1. rewrite H0.
      unfold bind at 1. unfold _dbus_sleep_milliseconds at 1.
      rewrite Hrun. unfold failed_attempts. simpl.
      do 3 f_equal. lia.
    + exact Hdel.
    + intros i. rewrite Hcre. simpl. unfold shift. f_equal.
Qed.

(** C8 (as amended): after 32 failed attempts, each followed by a sleep
    of 250 ms, the lock file is deleted; when the deletion fails the
    acquisition fails there, with no further attempt; when it succeeds,
    exactly one more exclusive creation is attempted and its result is
    the result of the acquisition. *)
Theorem C8_stale_lock_recovery (keyring : DBusKeyring) (w : World) :
  (forall i, (i < MAX_LOCK_TIMEOUTS)%nat -> w_create w i = false) ->
  let deleted := w_delete w O in
  let created := w_create w MAX_LOCK_TIMEOUTS in
  run (_dbus_keyring_lock keyring) w
  = Some (deleted && created,
          failed_attempts keyring MAX_LOCK_TIMEOUTS
          ++ EvDelete (filename_lock keyring) deleted
          :: (if deleted
              then [EvCreateExclusive (filename_lock keyring) created]
              else [])).
Proof.
  intros Hfail deleted created.
  destruct (lock_wait_all_fail keyring MAX_LOCK_TIMEOUTS O w Hfail)
    as (w' & Hrun & Hdel & Hcre).
  unfold run, _dbus_keyring_lock.
  rewrite (bind_eq _ _ _ _ _ _ Hrun).
  change (Nat.eqb (0 + MAX_LOCK_TIMEOUTS) MAX_LOCK_TIMEOUTS) with true.
  cbv iota. unfold bind at 1, _dbus_delete_file at 1.
  rewrite Hdel. fold deleted.
  destruct deleted; cbn [negb].
  - unfold bind, _dbus_create_file_exclusively, ret.
    cbn [w_create]. rewrite Hcre, Nat.add_0_r. fold created.
    destruct created; reflexivity.
  - reflexivity.
Qed.

(** A lock file that nobody releases but that can be deleted: after the
    32 failed attempts the file is deleted and the 33rd creation
    succeeds. *)
Lemma C8_stale_lock_recovery_witness :
  let keyring := example_keyring [] in
  let w := mkWorld (always 1000) (answers (repeat false 32) true) (always true)
                   (always None) (always true) (always true) (always zero)
                   (always true) in
  run (_dbus_keyring_lock keyring) w
  = Some (true,
          failed_attempts keyring 32
          ++ [EvDelete (filename_lock keyring) true;
              EvCreateExclusive (filename_lock keyring) true]).
Proof.
  intros keyring w.
  refine (C8_stale_lock_recovery keyring w _).
  intros i Hi. unfold MAX_LOCK_TIMEOUTS in Hi.
  do 32 (destruct i as [|i]; [reflexivity|]). lia.
Defined.

(** C8, the claim as written fails: with a lock file that can be neither
    created nor deleted, the acquisition fails after the failed deletion,
    and no 33rd creation is attempted. *)
Lemma C8_counterexample :
  let keyring := example_keyring [] in
  let w := mkWorld (always 1000) (always false) (always false)
                   (always None) (always true) (always true) (always zero)
                   (always true) in
  run (_dbus_keyring_lock keyring) w
  = Some (false,
          failed_attempts keyring 32 ++ [EvDelete (filename_lock keyring) false]).
Proof. vm_compute. reflexivity. Qed.

(** ** Text: digits, numerals, hexadecimal *)

Lemma byte_code_range c : 0 <= byte_code c < 256.
Proof.
  unfold byte_code. pose proof (N_ascii_bounded c). lia.
Qed.

Lemma byte_of_code_code c : byte_of_code (byte_code c) = c.
Proof.
  unfold byte_of_code, byte_code. rewrite N2Z.id. apply ascii_N_embedding.
Qed.

Lemma byte_code_of_code z : 0 <= z < 256 -> byte_code (byte_of_code z) = z.
Proof.
  intros H. unfold byte_of_code, byte_code.
  rewrite N_ascii_embedding by lia. lia.
Qed.

Ltac by_cases_below d n :=
  let rec go k :=
    lazymatch k with
    | O => exfalso; lia
    | S ?k' =>
        let H := fresh in
        destruct (Z.eq_dec d (Z.of_nat k')) as [H|H];
        [ rewrite H; vm_compute; repeat split; try reflexivity; try discriminate
        | go k' ]
    end in
  go n.

Lemma digit_char_plain d : 0 <= d < 10 -> plain_digit (digit_char d).
Proof. intros Hd. by_cases_below d 10%nat. Qed.

Lemma digit_val_char d : 0 <= d < 10 -> digit_val (digit_char d) = d.
Proof. intros Hd. by_cases_below d 10%nat. Qed.

Lemma hex_char_plain d : 0 <= d < 16 -> plain_hex (hex_char d).
Proof. intros Hd. by_cases_below d 16%nat. Qed.

Lemma hex_val_char d : 0 <= d < 16 -> hex_val (hex_char d) = Some d.
Proof. intros Hd. by_cases_below d 16%nat. Qed.

(** *** Decimal numerals *)

Lemma decimal_digits_plain fuel : forall n acc,
  0 <= n -> Forall plain_digit acc ->
  Forall plain_digit (decimal_digits fuel n acc).
Proof.
  induction fuel as [|f IH]; intros n acc Hn Hacc; simpl; [exact Hacc|].
  assert (Forall plain_digit (digit_char (n mod 10) :: acc)) as Hacc'.
  { constructor; [|exact Hacc]. apply digit_char_plain.
    apply Z.mod_pos_bound. lia. }
  destruct (n <? 10); [exact Hacc'|].
  apply IH; [|exact Hacc']. apply Z.div_pos; lia.
Qed.

Lemma decimal_digits_value fuel : forall n acc,
  0 <= n < 2 ^ Z.of_nat fuel ->
  digits_value 0 (decimal_digits fuel n acc) = digits_value n acc.
Proof.
  induction fuel as [|f IH]; intros n acc Hn.
  - simpl in Hn. assert (n = 0) as -> by lia. reflexivity.
  - simpl decimal_digits. destruct (n <? 10) eqn:E.
    + apply Z.ltb_lt in E. unfold digits_value. cbn [fold_left].
      rewrite digit_val_char by (apply Z.mod_pos_bound; lia).
      rewrite Z.mod_small by lia. reflexivity.
    + apply Z.ltb_ge in E. rewrite IH.
      * unfold digits_value. cbn [fold_left].
        rewrite digit_val_char by (apply Z.mod_pos_bound; lia).
        f_equal. pose proof (Z.div_mod n 10 ltac:(lia)). lia.
      * rewrite Nat2Z.inj_succ, Z.pow_succ_r in Hn by lia.
        split; [apply Z.div_pos; lia|].
        apply Z.div_lt_upper_bound; lia.
Qed.

Lemma decimal_digits_nonempty fuel n acc :
  decimal_digits (S fuel) n acc <> [].
Proof.
  revert n acc. induction fuel as [|f IH]; intros n acc; simpl.
  - destruct (n <? 10); discriminate.
  - destruct (n <? 10); [discriminate|]. apply (IH (n / 10)).
Qed.

Lemma decimal_plain n : 0 <= n -> Forall plain_digit (decimal n).
Proof. intros Hn. apply decimal_digits_plain; [exact Hn|constructor]. Qed.

Lemma decimal_value n : 0 <= n -> digits_value 0 (decimal n) = n.
Proof.
  intros Hn. unfold decimal. rewrite decimal_digits_value; [reflexivity|].
  split; [exact Hn|].
  destruct (Z.eq_dec n 0) as [->|Hne]; [reflexivity|].
  rewrite Nat2Z.inj_succ, Z2Nat.id by apply Z.log2_nonneg.
  apply Z.log2_spec. lia.
Qed.

Lemma decimal_nonempty n : decimal n <> [].
Proof. apply decimal_digits_nonempty. Qed.

Lemma parse_digits_numeral ds : forall acc rest,
  Forall plain_digit ds -> no_digit_ahead rest ->
  parse_digits acc (ds ++ rest) = (digits_value acc ds, length ds).
Proof.
  induction ds as [|c ds IH]; intros acc rest Hds Hrest.
  - simpl. destruct rest as [|c rest]; [reflexivity|].
    simpl in Hrest. simpl. now rewrite Hrest.
  - inversion Hds as [|? ? Hc Hds']; subst.
    destruct Hc as (Hdig & _). simpl. rewrite Hdig.
    rewrite IH by assumption. reflexivity.
Qed.

Lemma int_to_string_parse value rest :
  no_digit_ahead rest ->
  parse_int_prefix (int_to_string value ++ rest)
  = Some (value, length (int_to_string value)).
Proof.
  intros Hrest. unfold int_to_string.
  destruct (value <? 0) eqn:E.
  - apply Z.ltb_lt in E.
    assert (0 <= - value) as Hpos by lia.
    pose proof (decimal_nonempty (- value)) as Hne.
    cbn [app parse_int_prefix].
    change (byte_code "-" =? 45) with true. cbv iota.
    rewrite parse_digits_numeral by (auto using decimal_plain).
    rewrite decimal_value by exact Hpos.
    destruct (decimal (- value)) as [|c ds]; [congruence|].
    cbn [length]. f_equal. f_equal. lia.
  - apply Z.ltb_ge in E.
    pose proof (decimal_nonempty value) as Hne.
    pose proof (decimal_plain value E) as Hplain.
    pose proof (parse_digits_numeral (decimal value) 0 rest Hplain Hrest) as Hp.
    rewrite decimal_value in Hp by exact E.
    destruct (decimal value) as [|c ds] eqn:Ed; [congruence|].
    inversion Hplain as [|? ? Hc _]; subst.
    destruct Hc as (_ & _ & _ & Hminus & Hplus & _).
    cbn [app parse_int_prefix]. rewrite Hminus, Hplus.
    change ((c :: ds) ++ rest) with (c :: ds ++ rest) in Hp.
    rewrite Hp. reflexivity.
Qed.

Lemma int_to_string_plain value :
  exists c t, int_to_string value = c :: t
              /\ is_blank c = false
              /\ Forall (fun c => is_newline c = false /\ 0 < byte_code c < 128)
                        (c :: t).
Proof.
  unfold int_to_string. destruct (value <? 0) eqn:E.
  - apply Z.ltb_lt in E. exists "-"%char, (decimal (- value)).
    repeat split; try reflexivity.
    constructor; [repeat split; reflexivity|].
    eapply Forall_impl; [|apply decimal_plain; lia].
    intros c (_ & _ & Hn & _ & _ & Hr). auto.
  - apply Z.ltb_ge in E.
    pose proof (decimal_nonempty value) as Hne.
    pose proof (decimal_plain value E) as Hplain.
    destruct (decimal value) as [|c ds]; [congruence|].
    exists c, ds. split; [reflexivity|]. split.
    + inversion Hplain as [|? ? Hc _]. apply Hc.
    + eapply Forall_impl; [|exact Hplain].
      intros d (_ & _ & Hn & _ & _ & Hr). auto.
Qed.

(** *** Hexadecimal *)

Lemma hex_decode_encode s : hex_decode (hex_encode s) = Some s.
Proof.
  induction s as [|c s IH]; [reflexivity|].
  pose proof (byte_code_range c) as Hc.
  cbn [hex_encode hex_decode].
  rewrite !hex_val_char.
  - rewrite IH.
    replace (16 * (byte_code c / 16) + byte_code c mod 16) with (byte_code c)
      by (pose proof (Z.div_mod (byte_code c) 16 ltac:(lia)); lia).
    now rewrite byte_of_code_code.
  - apply Z.mod_pos_bound. lia.
  - split; [apply Z.div_pos; lia|apply Z.div_lt_upper_bound; lia].
Qed.

Lemma hex_encode_plain s : Forall plain_hex (hex_encode s).
Proof.
  induction s as [|c s IH]; [constructor|].
  pose proof (byte_code_range c) as Hc.
  cbn [hex_encode]. constructor; [|constructor; [|exact IH]].
  - apply hex_char_plain.
    split; [apply Z.div_pos; lia|apply Z.div_lt_upper_bound; lia].
  - apply hex_char_plain. apply Z.mod_pos_bound. lia.
Qed.

(** ** The codec *)

Lemma mem_ok_after_alloc w : mem_ok w -> mem_ok (after_alloc w).
Proof. intros H n. apply H. Qed.

Lemma alloc_mem_ok w : mem_ok w -> alloc w = Some (true, after_alloc w, []).
Proof. intros H. unfold alloc. rewrite (H O). reflexivity. Qed.

Lemma append_mem_ok {A} (v : A) (f : A -> M (outcome DBusString)) w :
  mem_ok w ->
  bind (bind alloc (fun ok => ret (if ok then Some v else None)))
       (fun r => match r with None => ret nomem_save | Some c => f c end) w
  = f v (after_alloc w).
Proof.
  intros H. unfold bind. rewrite (alloc_mem_ok w H). unfold ret.
  destruct (f v (after_alloc w)) as [[[b w2] t2]|]; reflexivity.
Qed.

Lemma save_keys_mem_ok keys : forall contents w,
  mem_ok w ->
  exists w',
    save_keys keys contents w = Some (Done (contents ++ encode_keys keys), w', [])
    /\ mem_ok w'.
Proof.
  induction keys as [|key rest IH]; intros contents w Hw.
  - exists w. split; [|exact Hw]. simpl. unfold ret, encode_keys. simpl.
    now rewrite app_nil_r.
  - cbn [save_keys].
    unfold _dbus_string_append_int, _dbus_string_append_byte,
      _dbus_string_hex_encode.
    do 6 (rewrite append_mem_ok;
          [|repeat apply mem_ok_after_alloc; exact Hw]).
    match goal with
    | |- context [save_keys rest ?c ?w0] =>
        destruct (IH c w0) as (w' & Hrun & Hw')
    end.
    { repeat apply mem_ok_after_alloc. exact Hw. }
    exists w'. split; [|exact Hw'].
    rewrite Hrun. unfold encode_keys, key_line. cbn [map concat].
    repeat (rewrite <- app_assoc || rewrite <- app_comm_cons). reflexivity.
Qed.

(** *** Lines *)

Lemma pop_lines_from_line line : forall cur rest,
  Forall (fun c => is_newline c = false) line ->
  pop_lines_from cur (line ++ newline :: rest)
  = (rev cur ++ line) :: pop_lines_from [] rest.
Proof.
  induction line as [|c line IH]; intros cur rest Hline.
  - cbn [app pop_lines_from]. change (is_newline newline) with true.
    cbv iota. now rewrite app_nil_r.
  - inversion Hline as [|? ? Hc Hline']; subst.
    cbn [app pop_lines_from]. rewrite Hc, IH by exact Hline'.
    cbn [rev]. now rewrite <- app_assoc.
Qed.

Lemma key_line_no_newline key :
  Forall (fun c => is_newline c = false /\ 0 < byte_code c < 128) (key_line key).
Proof.
  unfold key_line.
  destruct (int_to_string_plain (id key)) as (c1 & t1 & -> & _ & H1).
  destruct (int_to_string_plain (creation_time key)) as (c2 & t2 & -> & _ & H2).
  apply Forall_app. split; [exact H1|].
  constructor; [repeat split; reflexivity|].
  apply Forall_app. split; [exact H2|].
  constructor; [repeat split; reflexivity|].
  eapply Forall_impl; [|apply hex_encode_plain].
  intros c (_ & Hn & Hr). auto.
Qed.

Lemma pop_lines_encode_keys keys :
  pop_lines (encode_keys keys) = map key_line keys.
Proof.
  unfold pop_lines. induction keys as [|key rest IH]; [reflexivity|].
  unfold encode_keys. cbn [map concat]. rewrite <- app_assoc.
  cbn [app]. rewrite pop_lines_from_line.
  - cbn [rev app]. now rewrite <- IH.
  - eapply Forall_impl; [|apply key_line_no_newline]. now intros c [H _].
Qed.

Lemma encode_keys_ascii keys :
  _dbus_string_validate_ascii (encode_keys keys) = true.
Proof.
  unfold _dbus_string_validate_ascii. apply forallb_forall.
  intros c Hin. unfold encode_keys in Hin.
  apply in_concat in Hin. destruct Hin as (l & Hl & Hc).
  apply in_map_iff in Hl. destruct Hl as (key & <- & _).
  apply in_app_or in Hc. destruct Hc as [Hc|[<-|[]]]; [|reflexivity].
  pose proof (key_line_no_newline key) as H.
  rewrite Forall_forall in H. destruct (H c Hc) as [_ Hr].
  apply andb_true_iff. split; apply Z.ltb_lt; lia.
Qed.

(** *** One line *)

Lemma load_keys_cons now line rest keys :
  load_keys now (line :: rest) keys =
  match classify_line now line with
  | Skipped => load_keys now rest keys
  | Parts key_id timestamp next =>
      ok <- dbus_realloc ;;
      if negb ok
      then ret (no_memory "No memory to reallocate secret key list")
      else
      ok <- _dbus_string_init ;;
      if negb ok
      then ret (no_memory "No memory to store secret key")
      else
      r <- _dbus_string_hex_decode line next ;;
      match r with
      | None =>
          ret (no_memory "No memory to store secret key or invalid hex encoding")
      | Some secret =>
          load_keys now rest (keys ++ [mkDBusKey key_id timestamp secret])
      end
  end.
Proof.
  unfold classify_line. cbn [load_keys].
  destruct (_dbus_string_parse_int line 0) as [[val next]|]; [|reflexivity].
  destruct ((val >? _DBUS_INT_MAX) || (val <? 0)); [reflexivity|].
  destruct (_dbus_string_parse_int line (_dbus_string_skip_blank line next))
    as [[timestamp next']|]; [|reflexivity].
  destruct (key_time_rejected now timestamp); [reflexivity|].
  destruct (Nat.eqb (length line - _dbus_string_skip_blank line next') 0);
    reflexivity.
Qed.

Lemma length_hex_encode s : length (hex_encode s) = (2 * length s)%nat.
Proof.
  induction s as [|c s IH]; [reflexivity|].
  cbn [hex_encode length]. rewrite IH. lia.
Qed.

Lemma skipn_length_app {A} (l r : list A) : skipn (length l) (l ++ r) = r.
Proof. induction l as [|a l IH]; [reflexivity|exact IH]. Qed.

(** The parts of the line of a key: the fields are read back, and the
    secret starts right after the second space. *)
Lemma parse_key_line key :
  let n1 := length (int_to_string (id key)) in
  let n2 := length (int_to_string (creation_time key)) in
  _dbus_string_parse_int (key_line key) 0 = Some (id key, n1)
  /\ _dbus_string_skip_blank (key_line key) n1 = S n1
  /\ _dbus_string_parse_int (key_line key) (S n1)
     = Some (creation_time key, (S n1 + n2)%nat)
  /\ _dbus_string_skip_blank (key_line key) (S n1 + n2) = S (S n1 + n2)
  /\ skipn (S (S n1 + n2)) (key_line key) = hex_encode (secret key)
  /\ length (key_line key) = (S (S n1 + n2) + 2 * length (secret key))%nat.
Proof.
  intros n1 n2.
  destruct (int_to_string_plain (creation_time key)) as (c2 & t2 & E2 & Hb2 & _).
  assert (skipn n1 (key_line key)
          = space :: int_to_string (creation_time key)
            ++ space :: hex_encode (secret key)) as Hs1
    by apply skipn_length_app.
  assert (skipn (S n1) (key_line key)
          = int_to_string (creation_time key)
            ++ space :: hex_encode (secret key)) as Hs2.
  { rewrite <- (skipn_skipn 1 n1). now rewrite Hs1. }
  assert (skipn (S n1 + n2) (key_line key)
          = space :: hex_encode (secret key)) as Hs3.
  { rewrite Nat.add_comm, <- skipn_skipn, Hs2. apply skipn_length_app. }
  assert (skipn (S (S n1 + n2)) (key_line key) = hex_encode (secret key)) as Hs4.
  { rewrite <- (skipn_skipn 1 (S n1 + n2)). now rewrite Hs3. }
  repeat split.
  - unfold _dbus_string_parse_int, key_line. cbn [skipn].
    rewrite int_to_string_parse by reflexivity. reflexivity.
  - unfold _dbus_string_skip_blank. rewrite Hs1, E2.
    cbn [count_blank app]. change (is_blank space) with true. cbv iota.
    rewrite Hb2. lia.
  - unfold _dbus_string_parse_int. rewrite Hs2.
    rewrite int_to_string_parse by reflexivity. reflexivity.
  - unfold _dbus_string_skip_blank. rewrite Hs3.
    cbn [count_blank]. change (is_blank space) with true. cbv iota.
    pose proof (hex_encode_plain (secret key)) as Hh.
    destruct (hex_encode (secret key)) as [|h hs]; cbn [count_blank]; [lia|].
    inversion Hh as [|? ? (Hb & _) _]; subst. rewrite Hb. lia.
  - exact Hs4.
  - unfold key_line. rewrite !length_app. cbn [length]. rewrite length_app.
    cbn [length]. fold n1 n2.
    rewrite length_hex_encode. lia.
Qed.

Lemma classify_key_line now key :
  classify_line now (key_line key) =
  if (id key >? _DBUS_INT_MAX) || (id key <? 0) then Skipped
  else if key_time_rejected now (creation_time key) then Skipped
  else match secret key with
       | [] => Skipped
       | _ => Parts (id key) (creation_time key)
                (S (S (length (int_to_string (id key)))
                    + length (int_to_string (creation_time key))))
       end.
Proof.
  destruct (parse_key_line key) as (H1 & H2 & H3 & H4 & _ & H6).
  unfold classify_line. rewrite H1.
  destruct ((id key >? _DBUS_INT_MAX) || (id key <? 0)); [reflexivity|].
  cbv zeta. rewrite H2, H3.
  destruct (key_time_rejected now (creation_time key)); [reflexivity|].
  rewrite H4, H6.
  destruct (secret key) as [|c s].
  - replace (_ - _)%nat with O by (cbn [length]; lia). reflexivity.
  - replace (_ - _)%nat with (S (S (2 * length s)))
      by (cbn [length]; lia).
    reflexivity.
Qed.

(** *** Loading the lines of keys *)

Lemma survives_iff now key :
  plain_time now -> survives now key = true <-> loadable now key.
Proof.
  intros Hnow. unfold survives, loadable.
  rewrite !andb_true_iff, !negb_true_iff, orb_false_iff, Z.gtb_ltb, !Z.ltb_ge.
  pose proof (key_time_rejected_iff now (creation_time key) Hnow) as Htime.
  unfold _DBUS_INT_MAX in *.
  destruct (key_time_rejected now (creation_time key)).
  - split.
    + intros [[_ H] _]. discriminate.
    + intros (_ & H1 & H2 & _). assert (true = true) as H by reflexivity.
      apply Htime in H. lia.
  - assert (~ (creation_time key < 0 \/ now + 300 < creation_time key
               \/ creation_time key < now - 420)) as Hin.
    { intros H. apply Htime in H. discriminate. }
    destruct (secret key).
    + split; [intros [_ H]; discriminate|].
      intros (_ & _ & _ & H). congruence.
    + split.
      * intros [[[H1 H2] _] _]. repeat split; try lia. discriminate.
      * intros ([H1 H2] & _). repeat split; lia.
Qed.

Lemma loadable_survives now key :
  plain_time now -> loadable now key -> survives now key = true.
Proof. intros Hnow. apply survives_iff, Hnow. Qed.



Lemma load_key_line now key rest keys w :
  mem_ok w ->
  exists w',
    mem_ok w'
    /\ load_keys now (key_line key :: rest) keys w
       = load_keys now rest (if survives now key then keys ++ [key] else keys) w'.
Proof.
  intros Hw. rewrite load_keys_cons, classify_key_line. unfold survives.
  destruct ((id key >? _DBUS_INT_MAX) || (id key <? 0));
    [exists w; auto|].
  destruct (key_time_rejected now (creation_time key));
    [exists w; auto|].
  destruct (secret key) as [|c s] eqn:Es; [exists w; auto|].
  exists (after_alloc (after_alloc (after_alloc w))).
  split; [repeat apply mem_ok_after_alloc; exact Hw|].
  destruct (parse_key_line key) as (_ & _ & _ & _ & H5 & _).
  unfold dbus_realloc, _dbus_string_init, _dbus_string_hex_decode.
  unfold bind at 1. rewrite (alloc_mem_ok w Hw). cbn [negb].
  unfold bind at 1.
  rewrite (alloc_mem_ok _ (mem_ok_after_alloc _ Hw)). cbn [negb].
  unfold bind at 1. unfold bind at 1.
  rewrite (alloc_mem_ok _ (mem_ok_after_alloc _ (mem_ok_after_alloc _ Hw))).
  unfold ret at 1. rewrite H5, hex_decode_encode. cbn [negb andb app].
  clear Es H5. destruct key as [i t s0]. cbn [id creation_time secret].
  destruct (load_keys now rest (keys ++ [mkDBusKey i t s0])
              (after_alloc (after_alloc (after_alloc w))))
    as [[[r w2] t2]|]; reflexivity.
Qed.

Lemma load_key_lines now ks : forall keys w,
  mem_ok w ->
  exists w',
    mem_ok w'
    /\ load_keys now (map key_line ks) keys w
       = Some (Done (keys ++ filter (survives now) ks), w', []).
Proof.
  induction ks as [|key ks IH]; intros keys w Hw.
  - exists w. split; [exact Hw|]. simpl. now rewrite app_nil_r.
  - cbn [map filter].
    destruct (load_key_line now key (map key_line ks) keys w Hw)
      as (w1 & Hw1 & ->).
    destruct (IH (if survives now key then keys ++ [key] else keys) w1 Hw1)
      as (w' & Hw' & ->).
    exists w'. split; [exact Hw'|].
    destruct (survives now key); [|reflexivity].
    now rewrite <- app_assoc.
Qed.

Lemma filter_all {A} (f : A -> bool) (l : list A) :
  Forall (fun a => f a = true) l -> filter f l = l.
Proof.
  induction 1 as [|a l Ha _ IH]; [reflexivity|].
  cbn [filter]. now rewrite Ha, IH.
Qed.

Lemma reload_keys_load fuel keyring add_new now w :
  exists w1,
    w_clock w1 = w_clock w
    /\ w_memory w1 = w_memory w
    /\ w_random w1 = w_random w
    /\ reload_keys fuel keyring add_new now w =
       bind (fun _ =>
               Some (tt, w1,
                     [EvGetContents (filename keyring)
                        (match w_read w O with Some _ => true | None => false end)]))
         (fun _ =>
            r <- load_keys now (pop_lines (file_text (w_read w O))) [] ;;
            match r with
            | Fail e => ret (Fail e)
            | Done keys =>
                if add_new then
                  r <- add_new_key fuel keys ;;
                  match r with
                  | Fail e => ret (Fail e)
                  | Done keys =>
                      r <- save_keys keys [] ;;
                      match r with
                      | Fail e => ret (Fail e)
                      | Done contents =>
                          saved <- _dbus_string_save_to_file contents (filename keyring) ;;
                          if saved then ret (Done keys)
                          else ret (failed "Failed to save keyring file: %s")
                      end
                  end
                else ret (Done keys)
            end) w.
Proof.
  eexists. split; [|split; [|split]];
    [| | |unfold reload_keys, bind at 1 3, _dbus_file_get_contents;
          unfold file_text; destruct (w_read w O); reflexivity];
    reflexivity.
Qed.

(** A reload that adds no key, on a file that holds the text of a list
    of keys: the keys that the loop takes are installed. *)
Lemma reload_loads_encoded_text fuel keyring keys w :
  mem_ok w ->
  w_read w O = Some (encode_keys keys) ->
  run (_dbus_keyring_reload fuel keyring false) w
  = Some ((set_keys keyring (filter (survives (w_clock w O)) keys), Done tt),
          [EvGetContents (filename keyring) true]).
Proof.
  intros Hw Hread.
  unfold run, _dbus_keyring_reload, _dbus_string_init.
  rewrite bind_alloc, (Hw O). cbn [negb].
  rewrite bind_alloc, (mem_ok_after_alloc w Hw O). cbn [negb].
  rewrite bind_time.
  change (w_clock (after_alloc (after_alloc w)) O) with (w_clock w O).
  destruct (reload_keys_load fuel keyring false (w_clock w O)
              (after_time (after_alloc (after_alloc w))))
    as (w3 & _ & Hmem & _ & Hk).
  assert (mem_ok w3) as Hw3.
  { intros n. rewrite Hmem. apply (Hw (1 + (1 + n))%nat). }
  destruct (load_key_lines (w_clock w O) keys [] w3 Hw3) as (w4 & _ & Hload).
  change (w_read (after_time (after_alloc (after_alloc w))) O)
    with (w_read w O) in Hk.
  rewrite Hread in Hk. unfold file_text in Hk.
  rewrite encode_keys_ascii, pop_lines_encode_keys in Hk.
  unfold bind at 1. rewrite Hk.
  unfold bind at 1 2. rewrite Hload. reflexivity.
Qed.

Lemma reload_loads_encoded_keys fuel keyring keys w :
  mem_ok w ->
  plain_time (w_clock w O) ->
  w_read w O = Some (encode_keys keys) ->
  Forall (loadable (w_clock w O)) keys ->
  run (_dbus_keyring_reload fuel keyring false) w
  = Some ((set_keys keyring keys, Done tt),
          [EvGetContents (filename keyring) true]).
Proof.
  intros Hw Hnow Hread Hkeys.
  rewrite (reload_loads_encoded_text fuel keyring keys w Hw Hread).
  rewrite filter_all; [reflexivity|].
  eapply Forall_impl; [|exact Hkeys]. intros key. now apply loadable_survives.
Qed.

(** C1 (as amended): when no allocation fails, at a time [now] at which
    [now + 300] and [now - 420] fit a [long], writing a list of keys
    and loading the text written gives back, in their order, exactly
    the keys of the list that have an ID between 0 and [INT_MAX], a
    creation time that is not negative, not before [now - 420] and not
    after [now + 300], and a non-empty secret; every other key is
    written but not read back.  So a list whose keys all meet these
    conditions is read back as it is (IDs, creation times and secrets,
    in the same order); and a reload at [now] of a file that holds the
    text installs the keys that are read back. *)
Theorem C1_codec_round_trip (now : Z) (keys : list DBusKey) (w1 w2 : World) :
  mem_ok w1 -> mem_ok w2 -> plain_time now ->
  run (save_keys keys []) w1 = Some (Done (encode_keys keys), [])
  /\ run (load_keys now (pop_lines (encode_keys keys)) []) w2
     = Some (Done (filter (survives now) keys), [])
  /\ (forall key, survives now key = true <-> loadable now key)
  /\ (Forall (loadable now) keys ->
      run (load_keys now (pop_lines (encode_keys keys)) []) w2
      = Some (Done keys, []))
  /\ (forall fuel keyring w3,
        mem_ok w3 ->
        w_clock w3 O = now ->
        w_read w3 O = Some (encode_keys keys) ->
        run (_dbus_keyring_reload fuel keyring false) w3
        = Some ((set_keys keyring (filter (survives now) keys), Done tt),
                [EvGetContents (filename keyring) true])).
Proof.
  intros Hw1 Hw2 Hnow.
  assert (run (load_keys now (pop_lines (encode_keys keys)) []) w2
          = Some (Done (filter (survives now) keys), [])) as Hload.
  { rewrite pop_lines_encode_keys.
    destruct (load_key_lines now keys [] w2 Hw2) as (w' & _ & Hrun).
    unfold run. now rewrite Hrun. }
  split; [|split; [|split; [|split]]].
  - destruct (save_keys_mem_ok keys [] w1 Hw1) as (w' & Hrun & _).
    unfold run. now rewrite Hrun.
  - exact Hload.
  - intros key. now apply survives_iff.
  - intros Hkeys. rewrite Hload, filter_all; [reflexivity|].
    eapply Forall_impl; [|exact Hkeys]. intros key. now apply loadable_survives.
  - intros fuel keyring w3 Hw3 Hclock Hread. rewrite <- Hclock.
    now apply reload_loads_encoded_text.
Qed.

(** Two keys written and read back in a quiet world. *)
Lemma C1_codec_round_trip_witness :
  let keys := [mkDBusKey 7 1000 (str "secret"); mkDBusKey 0 1200 [zero; "255"%char]] in
  let w := quiet_world 1100 None [] in
  run (save_keys keys []) w = Some (Done (encode_keys keys), [])
  /\ run (load_keys 1100 (pop_lines (encode_keys keys)) []) w = Some (Done keys, []).
Proof.
  intros keys w.
  assert (mem_ok w) as Hw by (intros n; reflexivity).
  assert (plain_time 1100) as Hnow
    by (unfold plain_time, LONG_MIN, LONG_MAX; lia).
  assert (Forall (loadable 1100) keys) as Hkeys
    by (unfold loadable, _DBUS_INT_MAX;
        repeat constructor; simpl; try lia; discriminate).
  destruct (C1_codec_round_trip 1100 keys w w Hw Hw Hnow)
    as (Hsave & _ & _ & Hload & _).
  exact (conj Hsave (Hload Hkeys)).
Defined.

(** C1, the claim as written fails: each of these keys is written as a
    line and is not read back, the first because it is too old at the
    time of loading, the second because its secret is empty, the third
    because its ID is negative (the ID that [add_new_key] gives for the
    draw 00 00 00 80). *)
Lemma C1_counterexample :
  let w := quiet_world 2000 None [] in
  let lost key text :=
    run (save_keys [key] []) w = Some (Done (ln text), [])
    /\ run (load_keys 2000 (pop_lines (ln text)) []) w = Some (Done [], []) in
  lost (mkDBusKey 7 1000 (str "k")) "7 1000 6b"%string
  /\ lost (mkDBusKey 7 2000 []) "7 2000 "%string
  /\ lost (mkDBusKey (-2147483648) 2000 (str "k")) "-2147483648 2000 6b"%string.
Proof. vm_compute. repeat split; reflexivity. Qed.

(** ** The expiry test *)

(** At the last second of a [long] the sum [now + 300] wraps, and the
    test drops a key made 100 seconds before. *)
Example key_time_rejected_wraps :
  key_time_rejected LONG_MAX (LONG_MAX - 100) = true
  /\ key_time_rejected (LONG_MAX - 300) (LONG_MAX - 400) = false.
Proof. split; reflexivity. Qed.




(** ** What a computation does to the clock and to the files *)

Lemma clock_later_refl w : clock_later w w.
Proof. now exists O. Qed.

Lemma clock_later_trans w1 w2 w3 :
  clock_later w1 w2 -> clock_later w2 w3 -> clock_later w1 w3.
Proof.
  intros [k1 H1] [k2 H2]. exists (k1 + k2)%nat. intros n.
  rewrite H2, H1. f_equal. lia.
Qed.

Section Respects.
Context {A B : Type} (E : event -> Prop).

Lemma respects_ret (a : A) : respects E (ret a).
Proof.
  intros w a' w' t H. injection H as _ <- <-.
  split; [apply clock_later_refl|constructor].
Qed.

Lemma respects_bind (m : M A) (f : A -> M B) :
  respects E m -> (forall a, respects E (f a)) -> respects E (bind m f).
Proof.
  intros Hm Hf w b w2 t H.
  apply bind_Some in H. destruct H as (a & w1 & t1 & t2 & H1 & H2 & ->).
  destruct (Hm _ _ _ _ H1) as [Hc1 He1].
  destruct (Hf _ _ _ _ _ H2) as [Hc2 He2].
  split; [eapply clock_later_trans; eassumption|].
  apply Forall_app. now split.
Qed.

Lemma respects_out_of_fuel : respects E (@out_of_fuel A).
Proof. intros w a w' t H. discriminate. Qed.

Lemma respects_weaken (E' : event -> Prop) (m : M A) :
  (forall e, E' e -> E e) -> respects E' m -> respects E m.
Proof.
  intros HE Hm w a w' t H. destruct (Hm _ _ _ _ H) as [Hc He].
  split; [exact Hc|]. eapply Forall_impl; eassumption.
Qed.
End Respects.

Lemma respects_alloc E : respects E alloc.
Proof.
  intros w a w' t H. injection H as _ <- <-.
  split; [now exists O|constructor].
Qed.

Lemma respects_time E : respects E _dbus_get_current_time.
Proof.
  intros w a w' t H. injection H as _ <- <-.
  split; [now exists 1%nat|constructor].
Qed.

Lemma respects_random E n : respects E (_dbus_generate_random_bytes n).
Proof.
  apply respects_bind; [apply respects_alloc|].
  intros [|]; [|apply respects_ret].
  intros w a w' t H. injection H as _ <- <-.
  split; [now exists O|constructor].
Qed.

Lemma respects_create (E : event -> Prop) path :
  (forall ok, E (EvCreateExclusive path ok)) ->
  respects E (_dbus_create_file_exclusively path).
Proof.
  intros HE w a w' t H. injection H as _ <- <-.
  split; [now exists O|repeat constructor; apply HE].
Qed.

Lemma respects_delete (E : event -> Prop) path :
  (forall ok, E (EvDelete path ok)) -> respects E (_dbus_delete_file path).
Proof.
  intros HE w a w' t H. injection H as _ <- <-.
  split; [now exists O|repeat constructor; apply HE].
Qed.

Lemma respects_sleep (E : event -> Prop) ms :
  E (EvSleep ms) -> respects E (_dbus_sleep_milliseconds ms).
Proof.
  intros HE w a w' t H. injection H as _ <- <-.
  split; [apply clock_later_refl|repeat constructor; apply HE].
Qed.

Lemma respects_get_contents (E : event -> Prop) path :
  (forall ok, E (EvGetContents path ok)) ->
  respects E (_dbus_file_get_contents path).
Proof.
  intros HE w a w' t H. injection H as _ <- <-.
  split; [now exists O|repeat constructor; apply HE].
Qed.

Lemma respects_save (E : event -> Prop) contents path :
  (forall ok, E (EvSave path contents ok)) ->
  respects E (_dbus_string_save_to_file contents path).
Proof.
  intros HE w a w' t H. injection H as _ <- <-.
  split; [now exists O|repeat constructor; apply HE].
Qed.

Lemma respects_create_directory (E : event -> Prop) path :
  (forall ok, E (EvCreateDirectory path ok)) ->
  respects E (_dbus_create_directory path).
Proof.
  intros HE w a w' t H. injection H as _ <- <-.
  split; [now exists O|repeat constructor; apply HE].
Qed.

(** One step of a proof of [respects]: a return, a bind, a primitive
    without events, or a case analysis on what the code tests. *)
Ltac respects_step :=
  first
    [ assumption
    | apply respects_ret
    | apply respects_out_of_fuel
    | apply respects_alloc
    | apply respects_time
    | apply respects_random
    | apply respects_bind; [|intros ?]
    | match goal with
      | |- respects _ (if ?b then _ else _) => destruct b
      | |- respects _ (match ?x with _ => _ end) => destruct x
      | |- respects _ (let (_, _) := ?x in _) => destruct x
      end ].

Ltac respects_auto := repeat respects_step.

Lemma respects_draw_new_id E fuel keys : respects E (draw_new_id fuel keys).
Proof.
  induction fuel as [|fuel IH]; cbn [draw_new_id]; respects_auto.
Qed.

Lemma respects_add_new_key E fuel keys : respects E (add_new_key fuel keys).
Proof.
  unfold add_new_key, dbus_realloc, _dbus_string_init, _dbus_string_move.
  pose proof (respects_draw_new_id E fuel keys). respects_auto.
Qed.

Lemma respects_load_keys E now lines : forall keys,
  respects E (load_keys now lines keys).
Proof.
  induction lines as [|line rest IH]; intros keys.
  - apply respects_ret.
  - rewrite load_keys_cons.
    unfold dbus_realloc, _dbus_string_init, _dbus_string_hex_decode.
    destruct (classify_line now line); [apply IH|].
    respects_auto. apply IH.
Qed.

Lemma respects_save_keys E keys : forall contents,
  respects E (save_keys keys contents).
Proof.
  induction keys as [|key rest IH]; intros contents; cbn [save_keys].
  - apply respects_ret.
  - unfold _dbus_string_append_int, _dbus_string_append_byte,
      _dbus_string_hex_encode.
    respects_auto. apply IH.
Qed.

Lemma respects_reload_keys fuel keyring add_new now :
  respects data_event (reload_keys fuel keyring add_new now).
Proof.
  unfold reload_keys.
  apply respects_bind; [apply respects_get_contents; intros; exact I|].
  intros contents.
  apply respects_bind; [apply respects_load_keys|].
  intros [keys|e]; [|apply respects_ret].
  destruct add_new; [|apply respects_ret].
  apply respects_bind; [apply respects_add_new_key|].
  intros [keys'|e]; [|apply respects_ret].
  apply respects_bind; [apply respects_save_keys|].
  intros [contents'|e]; [|apply respects_ret].
  apply respects_bind; [apply respects_save; intros; exact I|].
  intros [|]; apply respects_ret.
Qed.

Lemma respects_lock_wait keyring remaining : forall n,
  respects any_event (lock_wait keyring remaining n).
Proof.
  induction remaining as [|r IH]; intros n; cbn [lock_wait].
  - apply respects_ret.
  - apply respects_bind; [apply respects_create; intros; exact I|].
    intros [|]; [apply respects_ret|].
    apply respects_bind; [apply respects_sleep; exact I|].
    intros _. apply IH.
Qed.

Lemma respects_lock keyring : respects any_event (_dbus_keyring_lock keyring).
Proof.
  unfold _dbus_keyring_lock.
  apply respects_bind; [apply respects_lock_wait|]. intros n.
  destruct (Nat.eqb n MAX_LOCK_TIMEOUTS); [|apply respects_ret].
  apply respects_bind; [apply respects_delete; intros; exact I|].
  intros [|]; cbn [negb]; [|apply respects_ret].
  apply respects_bind; [apply respects_create; intros; exact I|].
  intros [|]; apply respects_ret.
Qed.

Lemma respects_unlock keyring : respects any_event (_dbus_keyring_unlock keyring).
Proof.
  unfold _dbus_keyring_unlock.
  apply respects_bind; [apply respects_delete; intros; exact I|].
  intros _. apply respects_ret.
Qed.

Lemma respects_reload fuel keyring add_new :
  respects any_event (_dbus_keyring_reload fuel keyring add_new).
Proof.
  assert (forall have_lock r, respects any_event (reload_out keyring have_lock r))
    as Hout.
  { intros have_lock r. unfold reload_out.
    apply respects_bind; [|intros; apply respects_ret].
    destruct have_lock; [apply respects_unlock|apply respects_ret]. }
  assert (forall now, respects any_event (reload_keys fuel keyring add_new now))
    as Hkeys.
  { intros now. eapply respects_weaken; [|apply respects_reload_keys].
    intros; exact I. }
  unfold _dbus_keyring_reload, _dbus_string_init.
  apply respects_bind; [apply respects_alloc|].
  intros [|]; cbn [negb]; [|apply respects_ret].
  apply respects_bind; [apply respects_alloc|].
  intros [|]; cbn [negb]; [|apply respects_ret].
  apply respects_bind; [apply respects_time|]. intros now.
  destruct add_new.
  - apply respects_bind; [apply respects_lock|].
    intros [|]; cbn [negb]; [|apply Hout].
    apply respects_bind; [apply Hkeys|]. intros r. apply Hout.
  - apply respects_bind; [apply Hkeys|]. intros r. apply Hout.
Qed.

(** ** The shape of a reload *)

Ltac bind_inv H :=
  let a := fresh "a" in
  let w := fresh "w" in
  let t1 := fresh "t" in
  let t2 := fresh "t" in
  let H1 := fresh "Hrun" in
  let Et := fresh "Et" in
  apply bind_Some in H;
  destruct H as (a & w & t1 & t2 & H1 & H & Et).

(** The lock leaves the data file and the clock alone. *)
Lemma lock_wait_frame keyring remaining : forall n w n' w' t,
  lock_wait keyring remaining n w = Some (n', w', t) ->
  w_read w' = w_read w /\ w_clock w' = w_clock w.
Proof.
  induction remaining as [|r IH]; intros n w n' w' t H; cbn [lock_wait] in H.
  - apply ret_Some in H. destruct H as (_ & -> & _). auto.
  - bind_inv H. injection Hrun as <- <- <-.
    destruct (w_create w O).
    + apply ret_Some in H. destruct H as (_ & -> & _). auto.
    + bind_inv H. injection Hrun as _ <- _.
      apply IH in H. exact H.
Qed.

Lemma lock_frame keyring w b w' t :
  _dbus_keyring_lock keyring w = Some (b, w', t) ->
  w_read w' = w_read w /\ w_clock w' = w_clock w.
Proof.
  unfold _dbus_keyring_lock. intros H. bind_inv H.
  apply lock_wait_frame in Hrun. destruct Hrun as [Hr Hc].
  destruct (Nat.eqb a MAX_LOCK_TIMEOUTS).
  - bind_inv H. injection Hrun as <- <- _.
    destruct (negb (w_delete w0 O)).
    + apply ret_Some in H. destruct H as (_ & -> & _). auto.
    + bind_inv H. injection Hrun as <- <- _.
      destruct (negb _); apply ret_Some in H;
        destruct H as (_ & -> & _); auto.
  - apply ret_Some in H. destruct H as (_ & -> & _). auto.
Qed.

Lemma reload_out_Some keyring have_lock r w res w' t :
  reload_out keyring have_lock r w = Some (res, w', t) ->
  res = reload_result keyring r
  /\ w_clock w' = w_clock w
  /\ t = if have_lock
         then [EvDelete (filename_lock keyring) (w_delete w O)]
         else [].
Proof.
  unfold reload_out. intros H. bind_inv H.
  apply ret_Some in H. destruct H as (-> & -> & ->).
  split; [reflexivity|]. subst t. destruct have_lock.
  - unfold _dbus_keyring_unlock in Hrun. bind_inv Hrun.
    injection Hrun0 as <- <- <-.
    apply ret_Some in Hrun. destruct Hrun as (_ & -> & ->).
    subst. split; reflexivity.
  - apply ret_Some in Hrun. destruct Hrun as (_ & -> & ->). auto.
Qed.

Lemma reload_inv fuel keyring add_new w res w' t :
  _dbus_keyring_reload fuel keyring add_new w = Some (res, w', t) ->
  reload_run fuel keyring add_new w res t.
Proof.
  unfold _dbus_keyring_reload, _dbus_string_init. intros H.
  rewrite bind_alloc in H.
  destruct (w_memory w O); cbn [negb] in H;
    [|apply ret_Some in H; destruct H as (-> & _ & ->);
      eapply reload_no_memory; reflexivity].
  rewrite bind_alloc in H.
  destruct (w_memory (after_alloc w) O); cbn [negb] in H;
    [|apply ret_Some in H; destruct H as (-> & _ & ->);
      eapply reload_no_memory; reflexivity].
  rewrite bind_time in H.
  change (w_clock (after_alloc (after_alloc w)) O) with (w_clock w O) in H.
  destruct add_new.
  - bind_inv H.
    pose proof (lock_frame _ _ _ _ _ Hrun) as [Hread _].
    destruct a; cbn [negb] in H.
    + bind_inv H. apply reload_out_Some in H. destruct H as (-> & _ & ->).
      subst t. subst t1.
      eapply reload_body with (t_lock := t0) (t_keys := t2);
        [ exact Hread | exact Hrun | exact Hrun0
        | reflexivity | reflexivity | reflexivity ].
    + apply reload_out_Some in H. destruct H as (-> & _ & ->).
      subst t. rewrite app_nil_r.
      eapply reload_not_locked; [reflexivity|reflexivity|exact Hrun].
  - bind_inv H. apply reload_out_Some in H. destruct H as (-> & _ & ->).
    subst t.
    eapply reload_body
      with (w2 := after_time (after_alloc (after_alloc w)))
           (t_lock := []) (t_keys := t0);
      [ reflexivity | split; reflexivity | exact Hrun
      | reflexivity | reflexivity | reflexivity ].
Qed.

(** C6: a reload that returns failure leaves the keyring as it was, its
    key list and key count included; the new list is installed only by a
    reload that succeeds. *)
Theorem C6_reload_failure_keeps_keys (fuel : nat) (keyring keyring' : DBusKeyring)
    (add_new : bool) (w : World) (e : DBusError) (t : list event) :
  run (_dbus_keyring_reload fuel keyring add_new) w = Some ((keyring', Fail e), t) ->
  keyring' = keyring
  /\ keys keyring' = keys keyring
  /\ n_keys keyring' = n_keys keyring.
Proof.
  intros H. apply run_Some in H. destruct H as [w' H].
  assert (keyring' = keyring) as ->; [|auto].
  apply reload_inv in H.
  destruct H as [e' Hres _|e' w1 w2 _ Hres _|w1 w2 w3 r tl tk tu _ _ _ Hres _ _].
  - now injection Hres.
  - now injection Hres.
  - destruct r; cbn in Hres; [discriminate|now injection Hres].
Qed.

(** A reload that fails when the file cannot be saved: the key held
    before the call is still the only key. *)
Lemma C6_reload_failure_keeps_keys_witness :
  let keyring := example_keyring [mkDBusKey 3 900 (str "old")] in
  let w := mkWorld (always 1000) (always true) (always true)
                   (always (Some (ln "5 950 6b"))) (always false)
                   (always true) (always zero) (always true) in
  let after :=
    match run (_dbus_keyring_reload 1 keyring true) w with
    | Some ((k, _), _) => k
    | None => example_keyring []
    end in
  keys after = [mkDBusKey 3 900 (str "old")].
Proof.
  intros keyring w after.
  refine (proj1 (proj2 (C6_reload_failure_keeps_keys 1 keyring after true w
                          (mkDBusError DBUS_ERROR_FAILED "Failed to save keyring file: %s")
                          _ _))).
  vm_compute. reflexivity.
Defined.

(** Each kind of failure of a reload, on a keyring that holds one key:
    the lock is not acquired; no memory while a line is loaded; no
    memory while the new key is made; no memory while the keys are
    written; the file is not saved.  The key list is the same after
    each. *)
Example reload_failures :
  let keyring := example_keyring [mkDBusKey 3 900 (str "old")] in
  let world create memory save :=
    mkWorld (always 1000) create (always false)
            (always (Some (ln "5 950 6b"))) save
            (always true) (always zero) memory in
  let fails w name :=
    exists msg t,
      run (_dbus_keyring_reload 1 keyring true) w
      = Some ((keyring, Fail (mkDBusError name msg)), t) in
  fails (world (always false) (always true) (always true)) DBUS_ERROR_FAILED
  /\ fails (world (always true) (answers [true; true] false) (always true))
           DBUS_ERROR_NO_MEMORY
  /\ fails (world (always true) (answers (repeat true 5) false) (always true))
           DBUS_ERROR_NO_MEMORY
  /\ fails (world (always true) (answers (repeat true 11) false) (always true))
           DBUS_ERROR_NO_MEMORY
  /\ fails (world (always true) (always true) (always false)) DBUS_ERROR_FAILED.
Proof.
  repeat split; eexists; eexists; vm_compute; reflexivity.
Qed.

(** ** The lock is released *)

Lemma split_at_only {A} (P : A -> Prop) (x : A) : forall a' a b b',
  P x ->
  Forall (fun y => ~ P y) a' -> Forall (fun y => ~ P y) b' ->
  a ++ x :: b = a' ++ x :: b' ->
  a = a' /\ b = b'.
Proof.
  induction a' as [|y' a' IH]; intros a b b' Hx Ha' Hb' E.
  - destruct a as [|y a].
    + injection E as <-. auto.
    + injection E as -> <-. exfalso.
      rewrite Forall_forall in Hb'. apply (Hb' x); [|exact Hx].
      apply in_or_app. right. now left.
  - inversion Ha' as [|? ? Hy' Ha'']; subst.
    destruct a as [|y a].
    + injection E as -> _. contradiction.
    + injection E as -> E. destruct (IH a b b' Hx Ha'' Hb' E) as [-> ->]. auto.
Qed.

(** [bind_inv], with the events of the run replaced by their two parts. *)
Ltac bind_split H :=
  let a := fresh "a" in
  let w := fresh "w" in
  let t1 := fresh "t" in
  let t2 := fresh "t" in
  let H1 := fresh "Hrun" in
  let Et := fresh "Et" in
  apply bind_Some in H;
  destruct H as (a & w & t1 & t2 & H1 & H & Et);
  match type of Et with ?x = _ => subst x end.

Lemma lock_wait_events keyring remaining : forall n w n' w' t,
  lock_wait keyring remaining n w = Some (n', w', t) ->
  (n' = (n + remaining)%nat /\ Forall (fun e => ~ acquires e) t)
  \/ ((n' < n + remaining)%nat
      /\ exists t0, t = t0 ++ [EvCreateExclusive (filename_lock keyring) true]
                    /\ Forall (fun e => ~ acquires e) t0).
Proof.
  induction remaining as [|r IH]; intros n w n' w' t H; cbn [lock_wait] in H.
  - apply ret_Some in H. destruct H as (-> & _ & ->). left.
    split; [lia|constructor].
  - bind_split H. injection Hrun as <- <- <-.
    destruct (w_create w O).
    + apply ret_Some in H. destruct H as (-> & _ & ->). right.
      split; [lia|]. exists []. split; [reflexivity|constructor].
    + bind_split H. injection Hrun as _ <- <-.
      apply IH in H.
      destruct H as [[-> Hno]|[Hlt (tw & -> & Hno)]].
      * left. split; [lia|].
        repeat (constructor; [intros []|]). exact Hno.
      * right. split; [lia|].
        exists (EvCreateExclusive (filename_lock keyring) false
                :: EvSleep LOCK_TIMEOUT_MILLISECONDS :: tw).
        split; [reflexivity|].
        repeat (constructor; [intros []|]). exact Hno.
Qed.

Lemma lock_events keyring w b w' t :
  _dbus_keyring_lock keyring w = Some (b, w', t) ->
  if b
  then exists t0, t = t0 ++ [EvCreateExclusive (filename_lock keyring) true]
                  /\ Forall (fun e => ~ acquires e) t0
  else Forall (fun e => ~ acquires e) t.
Proof.
  unfold _dbus_keyring_lock. intros H. bind_split H.
  apply lock_wait_events in Hrun.
  destruct Hrun as [[-> Hno]|[Hlt (t0' & -> & Hno)]].
  - change (Nat.eqb (0 + MAX_LOCK_TIMEOUTS) MAX_LOCK_TIMEOUTS) with true in H.
    bind_split H. injection Hrun as <- <- <-.
    destruct (w_delete w0 O); cbn [negb] in H.
    + bind_split H. injection Hrun as <- <- <-.
      match type of H with
      | (if negb ?c then _ else _) _ = _ =>
          destruct c; cbn [negb] in H;
          apply ret_Some in H; destruct H as (-> & _ & ->)
      end.
      * exists (t0 ++ [EvDelete (filename_lock keyring) true]).
        split; [now rewrite <- app_assoc|].
        apply Forall_app. split; [exact Hno|].
        constructor; [intros []|constructor].
      * apply Forall_app. split; [exact Hno|].
        repeat (constructor; [intros []|]). constructor.
    + apply ret_Some in H. destruct H as (-> & _ & ->).
      apply Forall_app. split; [exact Hno|].
      repeat (constructor; [intros []|]). constructor.
  - replace (Nat.eqb a MAX_LOCK_TIMEOUTS) with false in H
      by (symmetry; apply Nat.eqb_neq; lia).
    apply ret_Some in H. destruct H as (-> & _ & ->).
    exists t0'. rewrite app_nil_r. auto.
Qed.

Lemma data_event_not_acquires e : data_event e -> ~ acquires e.
Proof. destruct e; simpl; auto. Qed.

(** C10: in the events of a reload, a successful exclusive creation of
    the lock file (the lock is acquired) is followed, before the reload
    returns, by events of the data file only and then by the call that
    deletes the lock file (the unlock, which only logs a deletion that
    fails); that call is the last event of the reload, whether the
    reload succeeds or fails. *)
Theorem C10_lock_released (fuel : nat) (keyring : DBusKeyring) (add_new : bool)
    (w : World) (res : DBusKeyring * outcome unit) (t pre post : list event) :
  run (_dbus_keyring_reload fuel keyring add_new) w = Some (res, t) ->
  t = pre ++ EvCreateExclusive (filename_lock keyring) true :: post ->
  exists mid ok,
    post = mid ++ [EvDelete (filename_lock keyring) ok]
    /\ Forall data_event mid.
Proof.
  intros H Et. apply run_Some in H. destruct H as [w' H].
  apply reload_inv in H.
  assert (forall l, Forall (fun e => ~ acquires e) l -> l = t -> False) as Hcontra.
  { intros l Hl ->. rewrite Et in Hl. rewrite Forall_forall in Hl.
    apply (Hl (EvCreateExclusive (filename_lock keyring) true)); [|exact I].
    apply in_or_app. right. now left. }
  destruct H as [e _ Ht|e w1 w2 _ _ Hlock
                |w1 w2 w3 r tl tk tu _ Hlock Hkeys _ Htu Ht].
  - exfalso. apply (Hcontra []); [constructor|now symmetry].
  - exfalso. apply lock_events in Hlock. now apply (Hcontra t).
  - apply respects_reload_keys in Hkeys. destruct Hkeys as [_ Hdata].
    assert (Forall (fun e => ~ acquires e) tk) as Hk.
    { eapply Forall_impl; [|exact Hdata]. apply data_event_not_acquires. }
    destruct add_new.
    + apply lock_events in Hlock. destruct Hlock as (t0 & -> & Hno).
      rewrite Ht, <- app_assoc in Et. cbn [app] in Et.
      symmetry in Et.
      apply (split_at_only acquires) in Et; [|exact I|exact Hno|].
      * destruct Et as [_ ->]. subst tu. eauto.
      * apply Forall_app. split; [exact Hk|]. subst tu.
        constructor; [intros []|constructor].
    + exfalso. destruct Hlock as [_ ->]. subst tu.
      apply (Hcontra tk); [exact Hk|]. rewrite Ht, app_nil_r. reflexivity.
Qed.

(** A reload that adds a key: the lock is taken at the first attempt,
    the file is read and saved, the lock is released. *)
Lemma C10_lock_released_witness :
  let keyring := example_keyring [] in
  let w := quiet_world 1000 (Some (ln "5 950 6b")) [] in
  exists mid ok,
    [EvGetContents (filename keyring) true;
     EvSave (filename keyring)
            (ln "5 950 6b" ++ ln "0 1000 000000000000000000000000000000000000000000000000")
            true;
     EvDelete (filename_lock keyring) true]
    = mid ++ [EvDelete (filename_lock keyring) ok]
    /\ Forall data_event mid.
Proof.
  intros keyring w.
  eapply (C10_lock_released 1 keyring true w _ _ []).
  - vm_compute. reflexivity.
  - reflexivity.
Defined.

(** The same when the reload fails after the lock is taken (here the
    file cannot be saved): the lock file is deleted all the same. *)
Example lock_released_on_failure :
  let keyring := example_keyring [] in
  let w := mkWorld (always 1000) (always true) (always true) (always None)
                   (always false) (always true) (always zero) (always true) in
  exists contents e,
    run (_dbus_keyring_reload 1 keyring true) w
    = Some ((keyring, Fail e),
            [EvCreateExclusive (filename_lock keyring) true;
             EvGetContents (filename keyring) false;
             EvSave (filename keyring) contents false;
             EvDelete (filename_lock keyring) true]).
Proof. eexists. eexists. vm_compute. reflexivity. Qed.

(** ** The best key *)

Lemma scan_bound tv_sec :
  plain_scan_time tv_sec ->
  wrap_long (tv_sec - NEW_KEY_TIMEOUT_SECONDS) = tv_sec - 300.
Proof.
  unfold plain_scan_time, NEW_KEY_TIMEOUT_SECONDS. intros H.
  change (60 * 5) with 300.
  apply wrap_long_small. unfold LONG_MIN, LONG_MAX in *. lia.
Qed.


Lemma first_recent_key_None tv_sec keys :
  plain_scan_time tv_sec ->
  first_recent_key tv_sec keys = None <-> Forall (stale tv_sec) keys.
Proof.
  intros Htime.
  unfold stale. induction keys as [|k keys IH]; cbn [first_recent_key].
  - split; auto.
  - rewrite (scan_bound _ Htime).
    destruct (tv_sec - 300 <? creation_time k) eqn:E.
    + apply Z.ltb_lt in E. split; [discriminate|].
      intros H. inversion H; subst. lia.
    + apply Z.ltb_ge in E. rewrite IH. split.
      * intros H. constructor; assumption.
      * intros H. now inversion H.
Qed.

Lemma find_recent_key_run keyring w :
  find_recent_key keyring w
  = Some (first_recent_key (w_clock w O) (keys keyring), after_time w, []).
Proof. unfold find_recent_key. now rewrite bind_time. Qed.

Lemma get_best_key_scan fuel keyring w :
  _dbus_keyring_get_best_key fuel keyring w =
  match first_recent_key (w_clock w O) (keys keyring) with
  | Some key => Some ((keyring, id key, None), after_time w, [])
  | None => reload_and_scan fuel keyring (after_time w)
  end.
Proof.
  unfold _dbus_keyring_get_best_key.
  rewrite (bind_silent _ _ _ _ _ (find_recent_key_run keyring w)).
  destruct (first_recent_key (w_clock w O) (keys keyring)); reflexivity.
Qed.

(** A keyring whose only key is 300 seconds old: a key is added under
    the lock, saved, and selected. *)
Example best_key_after_reload :
  let keyring := example_keyring [mkDBusKey 4 700 (str "a")] in
  exists keyring' contents,
    run (_dbus_keyring_get_best_key 1 keyring) (quiet_world 1000 None [])
    = Some ((keyring', 0, None),
            [EvCreateExclusive (filename_lock keyring) true;
             EvGetContents (filename keyring) false;
             EvSave (filename keyring) contents true;
             EvDelete (filename_lock keyring) true])
    /\ keys keyring' = [mkDBusKey 0 1000 (repeat zero 24)].
Proof. eexists. eexists. vm_compute. split; reflexivity. Qed.

(** ** Reading twice *)

Lemma clock_is_later now w w' :
  clock_is now w -> clock_later w w' -> clock_is now w'.
Proof. intros H [k Hk] n. rewrite Hk. apply H. Qed.

Lemma clock_is_after_time now w : clock_is now w -> clock_is now (after_time w).
Proof. intros H n. apply H. Qed.

(** C9: at a clock that stays at [now], when a call of
    [_dbus_keyring_get_best_key] returns a key ID without error, a
    second call made in the world and on the keyring that the first call
    left returns the same ID, leaves the keyring as it is and has no
    event: no lock file is created, no file is saved. *)
Theorem C9_read_idempotence (fuel fuel' : nat) (keyring keyring1 : DBusKeyring)
    (w w1 : World) (now key_id : Z) (t1 : list event) :
  clock_is now w ->
  _dbus_keyring_get_best_key fuel keyring w
  = Some ((keyring1, key_id, None), w1, t1) ->
  run (_dbus_keyring_get_best_key fuel' keyring1) w1
  = Some ((keyring1, key_id, None), []).
Proof.
  intros Hclock H1. rewrite get_best_key_scan in H1.
  assert (forall w2 key,
             clock_is now w2 ->
             first_recent_key now (keys keyring1) = Some key ->
             run (_dbus_keyring_get_best_key fuel' keyring1) (after_time w2)
             = Some ((keyring1, id key, None), [])) as Hsecond.
  { intros w2 key Hw2 Hkey. unfold run. rewrite get_best_key_scan.
    rewrite (clock_is_after_time now w2 Hw2 O). now rewrite Hkey. }
  rewrite (Hclock O) in H1.
  destruct (first_recent_key now (keys keyring)) as [key|] eqn:Hscan.
  - injection H1 as <- <- <- _. now apply Hsecond.
  - unfold reload_and_scan in H1. bind_inv H1.
    pose proof (respects_reload _ _ _ _ _ _ _ Hrun) as [Hlater _].
    assert (clock_is now w0) as Hw0.
    { eapply clock_is_later; [|exact Hlater]. now apply clock_is_after_time. }
    destruct a as [keyring' [[]|e]].
    + rewrite (bind_silent _ _ _ _ _ (find_recent_key_run keyring' w0)) in H1.
      rewrite (Hw0 O) in H1.
      destruct (first_recent_key now (keys keyring')) as [key|] eqn:Hscan';
        apply ret_Some in H1; destruct H1 as (H1 & -> & _);
        [|discriminate].
      injection H1 as -> ->. now apply Hsecond.
    + apply ret_Some in H1. destruct H1 as (H1 & _). discriminate.
Qed.

(** An empty keyring: the first call adds a key under the lock and
    returns its ID, the second call returns the same ID with no event. *)
Lemma C9_read_idempotence_witness :
  let keyring := example_keyring [] in
  let w := quiet_world 1000 None [] in
  match _dbus_keyring_get_best_key 1 keyring w with
  | Some ((keyring1, key_id, _), w1, _) =>
      run (_dbus_keyring_get_best_key 0 keyring1) w1
      = Some ((keyring1, key_id, None), [])
  | None => False
  end.
Proof.
  intros keyring w.
  destruct (_dbus_keyring_get_best_key 1 keyring w)
    as [[[[[keyring1 key_id] err] w1] t1]|] eqn:E.
  - assert (err = None) as -> by (vm_compute in E; congruence).
    exact (C9_read_idempotence 1 0 keyring keyring1 w w1 1000 key_id t1
             (fun _ => eq_refl) E).
  - vm_compute in E. discriminate.
Defined.

(** ** A secret that is not hexadecimal *)

Lemma lock_wait_total keyring remaining : forall n w,
  exists n' w' t, lock_wait keyring remaining n w = Some (n', w', t).
Proof.
  induction remaining as [|r IH]; intros n w; cbn [lock_wait].
  - now exists n, w, [].
  - unfold bind at 1, _dbus_create_file_exclusively at 1.
    destruct (w_create w O).
    + eexists _, _, _. reflexivity.
    + unfold bind at 1, _dbus_sleep_milliseconds at 1.
      match goal with
      | |- context [lock_wait keyring r ?m ?w0] =>
          destruct (IH m w0) as (n' & w' & t & ->)
      end.
      eexists _, _, _. reflexivity.
Qed.

Lemma lock_total keyring w :
  exists b w' t, _dbus_keyring_lock keyring w = Some (b, w', t).
Proof.
  unfold _dbus_keyring_lock.
  destruct (lock_wait_total keyring MAX_LOCK_TIMEOUTS O w) as (n & w1 & t1 & H).
  rewrite (bind_eq _ _ _ _ _ _ H).
  destruct (Nat.eqb n MAX_LOCK_TIMEOUTS); [|eexists _, _, _; reflexivity].
  unfold bind at 1, _dbus_delete_file at 1.
  destruct (w_delete w1 O); cbn [negb]; [|eexists _, _, _; reflexivity].
  unfold bind at 1, _dbus_create_file_exclusively at 1. cbn [w_create].
  destruct (negb _); eexists _, _, _; reflexivity.
Qed.

Lemma load_keys_bad_hex now before line rest :
  bad_hex_line now line ->
  forall keys w,
    exists e w', load_keys now (before ++ line :: rest) keys w = Some (Fail e, w', []).
Proof.
  intros (key_id & timestamp & next & Hparts & Hhex).
  assert (forall lines,
    (forall keys w, exists e w', load_keys now lines keys w = Some (Fail e, w', [])) ->
    forall l keys w,
      exists e w', load_keys now (l :: lines) keys w = Some (Fail e, w', []))
    as Hstep.
  { intros lines IH l keys w. rewrite load_keys_cons.
    destruct (classify_line now l) as [|i ts nx]; [apply IH|].
    unfold dbus_realloc, _dbus_string_init, _dbus_string_hex_decode.
    rewrite bind_alloc.
    destruct (w_memory w O); cbn [negb]; [|eexists _, _; reflexivity].
    rewrite bind_alloc.
    destruct (w_memory (after_alloc w) O); cbn [negb];
      [|eexists _, _; reflexivity].
    match goal with
    | |- context [bind (bind alloc ?g) ?f ?w0] =>
        rewrite (bind_silent (bind alloc g) f w0
                   (if w_memory w0 O then hex_decode (skipn nx l) else None)
                   (after_alloc w0))
          by (now rewrite bind_alloc)
    end.
    destruct (if w_memory _ O then _ else _);
      [apply IH|eexists _, _; reflexivity]. }
  induction before as [|l before IH]; intros keys w.
  - cbn [app]. rewrite load_keys_cons, Hparts.
    unfold dbus_realloc, _dbus_string_init, _dbus_string_hex_decode.
    rewrite bind_alloc.
    destruct (w_memory w O); cbn [negb]; [|eexists _, _; reflexivity].
    rewrite bind_alloc.
    destruct (w_memory (after_alloc w) O); cbn [negb];
      [|eexists _, _; reflexivity].
    match goal with
    | |- context [bind (bind alloc ?g) ?f ?w0] =>
        rewrite (bind_silent (bind alloc g) f w0 None (after_alloc w0))
          by (rewrite bind_alloc, Hhex; now destruct (w_memory w0 O))
    end.
    eexists _, _. reflexivity.
  - cbn [app]. apply Hstep. exact IH.
Qed.

(** C3 (as amended): when the file holds a line with an ID, a timestamp
    that is not expired and a secret that is not hexadecimal, the reload
    as a whole returns failure, whatever the other lines are, and the
    keyring is left as it was: no line of the file is loaded. *)
Theorem C3_bad_hex_aborts_reload (fuel : nat) (keyring : DBusKeyring)
    (add_new : bool) (w : World) (before rest : list DBusString)
    (line : DBusString) :
  pop_lines (file_text (w_read w O)) = before ++ line :: rest ->
  bad_hex_line (w_clock w O) line ->
  exists e t,
    run (_dbus_keyring_reload fuel keyring add_new) w
    = Some ((keyring, Fail e), t).
Proof.
  intros Hlines Hbad.
  assert (forall have_lock w2,
    w_read w2 = w_read w ->
    exists e t,
      run (r <- reload_keys fuel keyring add_new (w_clock w O) ;;
           reload_out keyring have_lock r) w2
      = Some ((keyring, Fail e), t)) as Hbody.
  { intros have_lock w2 Hread.
    destruct (reload_keys_load fuel keyring add_new (w_clock w O) w2)
      as (w3 & _ & _ & _ & Hk).
    rewrite Hread, Hlines in Hk.
    destruct (load_keys_bad_hex (w_clock w O) before line rest Hbad [] w3)
      as (e & w4 & Hload).
    unfold run, bind at 1. rewrite Hk.
    unfold bind at 1 2. rewrite Hload. unfold ret at 1.
    unfold reload_out, bind, ret, _dbus_keyring_unlock, _dbus_delete_file, bind.
    destruct have_lock; eexists _, _; reflexivity. }
  unfold _dbus_keyring_reload, _dbus_string_init, run.
  rewrite bind_alloc.
  destruct (w_memory w O); cbn [negb]; [|eexists _, _; reflexivity].
  rewrite bind_alloc.
  destruct (w_memory (after_alloc w) O); cbn [negb]; [|eexists _, _; reflexivity].
  rewrite bind_time.
  change (w_clock (after_alloc (after_alloc w)) O) with (w_clock w O).
  destruct add_new.
  - destruct (lock_total keyring (after_time (after_alloc (after_alloc w))))
      as (b & w2 & tl & Hlock).
    rewrite (bind_eq _ _ _ _ _ _ Hlock).
    apply lock_frame in Hlock. destruct Hlock as [Hread _].
    destruct b; cbn [negb].
    + destruct (Hbody true w2 Hread) as (e & t & Hrun). unfold run in Hrun.
      match type of Hrun with
      | match ?x with _ => _ end = _ =>
          destruct x as [[[res w5] t5]|]; [|discriminate]
      end.
      injection Hrun as -> ->. eexists _, _. reflexivity.
    + unfold reload_out, bind, ret. eexists _, _. reflexivity.
  - apply (Hbody false). reflexivity.
Qed.

(** A file of two lines, the first with the secret "zz": the reload
    fails and the key held before is kept. *)
Lemma C3_bad_hex_aborts_reload_witness :
  let keyring := example_keyring [mkDBusKey 3 900 (str "old")] in
  let w := quiet_world 1000 (Some (ln "1 1000 zz" ++ ln "2 1000 6364")) [] in
  exists e t,
    run (_dbus_keyring_reload 0 keyring false) w = Some ((keyring, Fail e), t).
Proof.
  intros keyring w.
  apply (C3_bad_hex_aborts_reload 0 keyring false w [] [str "2 1000 6364"]
           (str "1 1000 zz")).
  - vm_compute. reflexivity.
  - exists 1, 1000, 7%nat. split; vm_compute; reflexivity.
Defined.

(** C3, the claim as written fails: the first line has a secret that is
    not hexadecimal, the second line is well formed; the reload fails
    ("... or invalid hex encoding"), the second line is not loaded and
    the keyring keeps the key it had.  Without the first line the same
    reload loads the second. *)
Lemma C3_counterexample :
  let keyring := example_keyring [mkDBusKey 3 900 (str "old")] in
  let world file := quiet_world 1000 (Some file) [] in
  run (_dbus_keyring_reload 0 keyring false)
      (world (ln "1 1000 zz" ++ ln "2 1000 6364"))
  = Some ((keyring,
           no_memory "No memory to store secret key or invalid hex encoding"),
          [EvGetContents (filename keyring) true])
  /\ run (_dbus_keyring_reload 0 keyring false) (world (ln "2 1000 6364"))
     = Some ((set_keys keyring [mkDBusKey 2 1000 (str "cd")], Done tt),
             [EvGetContents (filename keyring) true]).
Proof. vm_compute. split; reflexivity. Qed.

(** ** Distinct IDs *)

Lemma load_keys_ids now lines : forall keys w keys' w' t,
  load_keys now lines keys w = Some (Done keys', w', t) ->
  map id keys' = map id keys ++ accepted_ids now lines.
Proof.
  induction lines as [|line rest IH]; intros keys w keys' w' t H.
  - apply ret_Some in H. destruct H as (H & _). injection H as ->.
    cbn [accepted_ids]. now rewrite app_nil_r.
  - rewrite load_keys_cons in H. cbn [accepted_ids].
    destruct (classify_line now line) as [|key_id timestamp next];
      [now apply IH in H|].
    unfold dbus_realloc, _dbus_string_init, _dbus_string_hex_decode in H.
    rewrite bind_alloc in H.
    destruct (w_memory w O); cbn [negb] in H;
      [|apply ret_Some in H; destruct H as (H & _); discriminate].
    rewrite bind_alloc in H.
    destruct (w_memory (after_alloc w) O); cbn [negb] in H;
      [|apply ret_Some in H; destruct H as (H & _); discriminate].
    rewrite bind_assoc, bind_alloc, bind_ret in H.
    destruct (if w_memory _ O then _ else _) as [secret|];
      [|apply ret_Some in H; destruct H as (H & _); discriminate].
    apply IH in H. rewrite H, map_app, <- app_assoc. reflexivity.
Qed.

Lemma find_key_by_id_None keys key_id :
  find_key_by_id keys key_id = None -> ~ In key_id (map id keys).
Proof.
  induction keys as [|key rest IH]; cbn [find_key_by_id map]; [auto|].
  destruct (id key =? key_id) eqn:E; [discriminate|].
  apply Z.eqb_neq in E. intros H [Hin|Hin]; [contradiction|].
  now apply IH.
Qed.

Lemma draw_new_id_fresh fuel keys : forall w key_id w' t,
  draw_new_id fuel keys w = Some (Done key_id, w', t) ->
  ~ In key_id (map id keys).
Proof.
  induction fuel as [|fuel IH]; intros w key_id w' t H; cbn [draw_new_id] in H.
  - discriminate.
  - bind_inv H. destruct a as [s|].
    + destruct (find_key_by_id keys (new_key_id s)) eqn:E.
      * now apply IH in H.
      * apply ret_Some in H. destruct H as (H & _). injection H as ->.
        now apply find_key_by_id_None.
    + apply ret_Some in H. destruct H as (H & _). discriminate.
Qed.

Lemma add_new_key_fresh fuel keys w keys' w' t :
  add_new_key fuel keys w = Some (Done keys', w', t) ->
  exists key, keys' = keys ++ [key] /\ ~ In (id key) (map id keys).
Proof.
  unfold add_new_key, dbus_realloc, _dbus_string_init, _dbus_string_move.
  intros H. rewrite bind_alloc in H.
  destruct (w_memory w O); cbn [negb] in H;
    [|apply ret_Some in H; destruct H as (H & _); discriminate].
  bind_inv H. destruct a as [key_id|e];
    [|apply ret_Some in H; destruct H as (H & _); discriminate].
  apply draw_new_id_fresh in Hrun.
  bind_inv H. destruct a as [bytes|];
    [|apply ret_Some in H; destruct H as (H & _); discriminate].
  rewrite bind_alloc in H.
  destruct (w_memory w1 O); cbn [negb] in H;
    [|apply ret_Some in H; destruct H as (H & _); discriminate].
  rewrite bind_alloc in H.
  destruct (w_memory (after_alloc w1) O); cbn [negb] in H;
    [|apply ret_Some in H; destruct H as (H & _); discriminate].
  rewrite bind_time, bind_alloc in H.
  destruct (w_memory _ O); cbn [negb] in H;
    apply ret_Some in H; destruct H as (H & _); [|discriminate].
  injection H as ->. eexists. split; [reflexivity|exact Hrun].
Qed.

Lemma NoDup_snoc {A} (l : list A) (x : A) :
  NoDup l -> ~ In x l -> NoDup (l ++ [x]).
Proof.
  intros Hl Hx. apply NoDup_app; repeat split.
  - exact Hl.
  - repeat constructor. intros [].
  - intros y Hy [<-|[]]. contradiction.
Qed.

Lemma add_new_key_NoDup fuel keys w keys' w' t :
  add_new_key fuel keys w = Some (Done keys', w', t) ->
  NoDup (map id keys) -> NoDup (map id keys').
Proof.
  intros H Hnd. apply add_new_key_fresh in H.
  destruct H as (key & -> & Hfresh).
  rewrite map_app. now apply NoDup_snoc.
Qed.

Lemma reload_keys_NoDup fuel keyring add_new now w keys' w' t :
  reload_keys fuel keyring add_new now w = Some (Done keys', w', t) ->
  NoDup (accepted_ids now (pop_lines (file_text (w_read w O)))) ->
  NoDup (map id keys').
Proof.
  intros H Hids.
  destruct (reload_keys_load fuel keyring add_new now w) as (w1 & _ & _ & _ & E).
  rewrite E in H. clear E. bind_inv H. clear Hrun. bind_inv H.
  destruct a0 as [keys|e];
    [|apply ret_Some in H; destruct H as (H & _); discriminate].
  apply load_keys_ids in Hrun. cbn [map app] in Hrun.
  rewrite <- Hrun in Hids.
  destruct add_new;
    [|apply ret_Some in H; destruct H as (H & _); now injection H as ->].
  bind_inv H. destruct a0 as [keys1|e];
    [|apply ret_Some in H; destruct H as (H & _); discriminate].
  apply add_new_key_NoDup in Hrun0; [|exact Hids].
  bind_inv H. destruct a0 as [contents|e];
    [|apply ret_Some in H; destruct H as (H & _); discriminate].
  bind_inv H. destruct a0;
    apply ret_Some in H; destruct H as (H & _); [|discriminate].
  now injection H as ->.
Qed.

Lemma reload_NoDup fuel keyring add_new w keyring' r w' t :
  _dbus_keyring_reload fuel keyring add_new w = Some ((keyring', r), w', t) ->
  NoDup (map id (keys keyring)) ->
  NoDup (file_ids w) ->
  NoDup (map id (keys keyring')).
Proof.
  intros H Hold Hids. apply reload_inv in H.
  destruct H as [e Hres _|e w1 w2 _ Hres _
                |w1 w2 w3 res tl tk tu Hread _ Hkeys Hres _ _].
  - now injection Hres as ->.
  - now injection Hres as ->.
  - destruct res as [keys'|e]; cbn in Hres.
    + injection Hres as -> _. cbn [set_keys keys].
      apply reload_keys_NoDup in Hkeys; [exact Hkeys|].
      rewrite Hread. exact Hids.
    + now injection Hres as ->.
Qed.

Lemma keyring_new_Some w keyring w' t :
  _dbus_keyring_new w = Some (Some keyring, w', t) ->
  keys keyring = []
  /\ w_clock w' = w_clock w /\ w_read w' = w_read w.
Proof.
  unfold _dbus_keyring_new, _dbus_string_init. intros H.
  repeat (rewrite bind_alloc in H;
          destruct (w_memory _ O); cbn [negb] in H;
          [|apply ret_Some in H; destruct H as (H & _); discriminate]).
  apply ret_Some in H. destruct H as (H & -> & _).
  injection H as ->. auto.
Qed.

Lemma new_homedir_NoDup fuel homedir context w keyring err w' t :
  _dbus_keyring_new_homedir fuel homedir context w
  = Some ((Some keyring, err), w', t) ->
  NoDup (file_ids w) ->
  NoDup (map id (keys keyring)).
Proof.
  unfold _dbus_keyring_new_homedir, _dbus_string_init, _dbus_string_copy,
    _dbus_concat_dir_and_file, _dbus_string_append.
  intros H Hids. rewrite bind_alloc in H.
  destruct (w_memory w O); cbn [negb] in H;
    [|apply ret_Some in H; destruct H as (H & _); discriminate].
  destruct homedir as [home|];
    [|apply ret_Some in H; destruct H as (H & _); discriminate].
  bind_inv H. destruct a as [keyring0|];
    [|apply ret_Some in H; destruct H as (H & _); discriminate].
  apply keyring_new_Some in Hrun. destruct Hrun as (Hk0 & Hc0 & Hr0).
  destruct (negb (_dbus_keyring_validate_context context));
    [apply ret_Some in H; destruct H as (H & _); discriminate|].
  repeat (first [rewrite bind_assoc in H | rewrite bind_ret in H
                | rewrite bind_alloc in H];
          try (destruct (w_memory _ O); cbn [negb] in H;
               [|apply ret_Some in H; destruct H as (H & _); discriminate])).
  bind_inv H. destruct a as [keyring1 r].
  bind_inv H. apply ret_Some in H. destruct H as (H & _).
  injection H as -> _. cbn [fst].
  apply reload_NoDup in Hrun; [exact Hrun| |].
  - cbn [keys]. rewrite Hk0. constructor.
  - unfold file_ids in *. cbn [w_clock w_read after_alloc].
    rewrite Hc0, Hr0. exact Hids.
Qed.

(** C2 (as amended): new-key generation never gives the new key the ID
    of a key of the list, so it keeps the IDs pairwise distinct; a
    reload, and the construction of a keyring, give a key list with
    pairwise distinct IDs provided the lines that the file contributes
    (an ID in range, a timestamp that is not expired, a secret) carry
    pairwise distinct IDs.  Nothing removes a duplicate that the file
    holds. *)
Theorem C2_distinct_ids :
  (forall fuel keys w keys' w' t,
      add_new_key fuel keys w = Some (Done keys', w', t) ->
      NoDup (map id keys) ->
      NoDup (map id keys'))
  /\ (forall fuel keyring add_new w keyring' r t,
      run (_dbus_keyring_reload fuel keyring add_new) w = Some ((keyring', r), t) ->
      NoDup (map id (keys keyring)) ->
      NoDup (file_ids w) ->
      NoDup (map id (keys keyring')))
  /\ (forall fuel homedir context w keyring err t,
      run (_dbus_keyring_new_homedir fuel homedir context) w
      = Some ((Some keyring, err), t) ->
      NoDup (file_ids w) ->
      NoDup (map id (keys keyring))).
Proof.
  split; [|split].
  - intros fuel keys w keys' w' t. apply add_new_key_NoDup.
  - intros fuel keyring add_new w keyring' r t H Hold Hids.
    apply run_Some in H. destruct H as [w' H].
    eapply reload_NoDup; eassumption.
  - intros fuel homedir context w keyring err t H Hids.
    apply run_Some in H. destruct H as [w' H].
    eapply new_homedir_NoDup; eassumption.
Qed.

(** A reload that adds a key to a file of two keys with the IDs 0 and 5:
    the random source first draws 0, then 5, then 9; the new key gets
    the ID 9. *)
Lemma C2_distinct_ids_witness :
  let keyring := example_keyring [] in
  let w := quiet_world 1000 (Some (ln "0 990 6b" ++ ln "5 950 6b"))
             [zero; zero; zero; zero;
              "005"%char; zero; zero; zero;
              "009"%char; zero; zero; zero] in
  let after :=
    match run (_dbus_keyring_reload 3 keyring true) w with
    | Some ((k, _), _) => k
    | None => keyring
    end in
  map id (keys after) = [0; 5; 9] /\ NoDup (map id (keys after)).
Proof.
  intros keyring w after. split; [vm_compute; reflexivity|].
  eapply (proj1 (proj2 C2_distinct_ids) 3%nat keyring true w after).
  - vm_compute. reflexivity.
  - constructor.
  - vm_compute. repeat constructor; simpl; intuition discriminate.
Defined.

(** C2, the claim as written fails: a file with two well-formed lines
    that are not expired and carry the same ID is loaded as two keys
    with that ID. *)
Lemma C2_counterexample :
  let keyring := example_keyring [] in
  let w := quiet_world 1000 (Some (ln "1 1000 6162" ++ ln "1 1000 6364")) [] in
  run (_dbus_keyring_reload 0 keyring false) w
  = Some ((set_keys keyring [mkDBusKey 1 1000 (str "ab"); mkDBusKey 1 1000 (str "cd")],
           Done tt),
          [EvGetContents (filename keyring) true])
  /\ ~ NoDup (map id [mkDBusKey 1 1000 (str "ab"); mkDBusKey 1 1000 (str "cd")]).
Proof.
  split; [vm_compute; reflexivity|].
  intros H. inversion H as [|? ? Hin _]; subst. apply Hin. now left.
Qed.

(** ** The tests of [_dbus_keyring_test] on contexts *)

Example validate_context_tests :
  _dbus_keyring_validate_context (str "foo") = true
  /\ _dbus_keyring_validate_context (str "org_freedesktop_blah") = true
  /\ _dbus_keyring_validate_context (str "") = false
  /\ _dbus_keyring_validate_context (str ".foo") = false
  /\ _dbus_keyring_validate_context (str "bar.foo") = false
  /\ _dbus_keyring_validate_context (str "bar/foo") = false
  /\ _dbus_keyring_validate_context (str "bar\foo") = false
  /\ _dbus_keyring_validate_context (str "foo" ++ ["250"%char; "240"%char]) = false
  /\ _dbus_keyring_validate_context (str "foo" ++ ["128"%char]) = false
  /\ _dbus_keyring_validate_context (str "foo" ++ ["127"%char]) = true
  /\ _dbus_keyring_validate_context [zero] = false.
Proof. repeat split; reflexivity. Qed.

(** The keyring of the test suite, built in a quiet world with no file
    yet: the three names, and no key. *)
Example new_homedir_names :
  run (_dbus_keyring_new_homedir 0 (Some (str "/home/u"))
         (str "org_freedesktop_dbus_testsuite"))
      (quiet_world 1000 None [])
  = Some ((Some (mkDBusKeyring 1
                   (str "/home/u/.dbus-keyrings")
                   (str "/home/u/.dbus-keyrings/org_freedesktop_dbus_testsuite")
                   (str "/home/u/.dbus-keyrings/org_freedesktop_dbus_testsuite.lock")
                   []),
           None),
          [EvGetContents
             (str "/home/u/.dbus-keyrings/org_freedesktop_dbus_testsuite") false;
           EvCreateDirectory (str "/home/u/.dbus-keyrings") true]).
Proof. vm_compute. reflexivity. Qed.

(** ** Lines, one pop at a time *)

Lemma pop_lines_from_split s : forall cur,
  s <> [] ->
  pop_lines_from cur s =
  let (line, rest) := split_at_newline s in
  (rev cur ++ line)
  :: match rest with Some r => pop_lines_from [] r | None => [] end.
Proof.
  induction s as [|c s IH]; intros cur Hs; [congruence|].
  cbn [pop_lines_from split_at_newline].
  destruct (is_newline c); [now rewrite app_nil_r|].
  destruct s as [|d s].
  - reflexivity.
  - rewrite IH by discriminate.
    destruct (split_at_newline (d :: s)) as [line rest].
    cbn [rev]. now rewrite <- app_assoc.
Qed.

(** [pop_lines] gives the lines that the loop
    [while (_dbus_string_pop_line (&contents, &line))] sees. *)
Lemma pop_lines_pop_line contents :
  pop_lines contents =
  match _dbus_string_pop_line contents with
  | None => []
  | Some (line, rest) => line :: pop_lines rest
  end.
Proof.
  unfold pop_lines, _dbus_string_pop_line.
  destruct contents as [|c s]; [reflexivity|].
  rewrite pop_lines_from_split by discriminate.
  destruct (split_at_newline (c :: s)) as [line [rest|]]; reflexivity.
Qed.

(** ** Enough fuel *)

Lemma take_ext {A} n : forall (s s' : nat -> A),
  (forall i, s i = s' i) -> take n s = take n s'.
Proof.
  induction n as [|n IH]; intros s s' H; [reflexivity|].
  cbn [take]. rewrite (H O). f_equal. apply IH.
  intros i. unfold shift. apply H.
Qed.


Lemma draw_new_id_more_fuel fuel keys : forall w r,
  draw_new_id fuel keys w = Some r -> draw_new_id (S fuel) keys w = Some r.
Proof.
  induction fuel as [|fuel IH]; intros w r H; [discriminate|].
  cbn [draw_new_id] in H |- *. unfold bind in H |- *.
  destruct (_dbus_generate_random_bytes 4 w) as [[[[s|] w1] t1]|];
    [|exact H|discriminate].
  destruct (find_key_by_id keys (new_key_id s)); [|exact H].
  destruct (draw_new_id fuel keys w1) as [[[r1 w2] t2]|] eqn:E; [|discriminate].
  apply IH in E. cbn [draw_new_id] in E. unfold bind in E. rewrite E. exact H.
Qed.

(** * More of the keyring *)

(** ** The lock, when it is free or becomes free *)

Lemma sleep_total_app t1 t2 : sleep_total (t1 ++ t2) = sleep_total t1 + sleep_total t2.
Proof.
  induction t1 as [|e t1 IH]; [reflexivity|].
  destruct e; cbn [app sleep_total]; rewrite IH; lia.
Qed.

Lemma creations_app t1 t2 : creations (t1 ++ t2) = (creations t1 + creations t2)%nat.
Proof.
  induction t1 as [|e t1 IH]; [reflexivity|].
  destruct e; cbn [app creations]; rewrite IH; lia.
Qed.

Lemma deletions_app t1 t2 : deletions (t1 ++ t2) = (deletions t1 + deletions t2)%nat.
Proof.
  induction t1 as [|e t1 IH]; [reflexivity|].
  destruct e; cbn [app deletions]; rewrite IH; lia.
Qed.

Lemma lock_wait_first_success keyring k : forall remaining n w,
  (k < remaining)%nat ->
  (forall i, (i < k)%nat -> w_create w i = false) ->
  w_create w k = true ->
  exists w',
    lock_wait keyring remaining n w
    = Some ((n + k)%nat, w',
            failed_attempts keyring k
            ++ [EvCreateExclusive (filename_lock keyring) true]).
Proof.
  induction k as [|k IH]; intros remaining n w Hk Hfail Hok;
    (destruct remaining as [|r]; [lia|]); cbn [lock_wait].
  - unfold bind at 1, _dbus_create_file_exclusively at 1. rewrite Hok.
    eexists. unfold ret. rewrite Nat.add_0_r. reflexivity.
  - unfold bind at 1, _dbus_create_file_exclusively at 1.
    rewrite (Hfail O) by lia.
    unfold bind at 1, _dbus_sleep_milliseconds at 1.
    match goal with
    | |- context [lock_wait keyring r ?m ?w0] =>
        destruct (IH r m w0) as (w' & ->)
    end.
    + lia.
    + intros i Hi. cbn [w_create]. unfold shift. apply Hfail. lia.
    + cbn [w_create]. unfold shift. exact Hok.
    + exists w'. unfold failed_attempts. cbn [repeat concat app].
      do 3 f_equal. lia.
Qed.

(** X1: when the [k]-th attempt (counting from 0, [k < 32]) is the first
    exclusive creation that succeeds, the lock is acquired after [k]
    failed attempts, each followed by a sleep of 250 ms, and nothing is
    deleted. *)
Theorem X1_lock_first_success (keyring : DBusKeyring) (w : World) (k : nat) :
  (k < MAX_LOCK_TIMEOUTS)%nat ->
  (forall i, (i < k)%nat -> w_create w i = false) ->
  w_create w k = true ->
  run (_dbus_keyring_lock keyring) w
  = Some (true,
          failed_attempts keyring k
          ++ [EvCreateExclusive (filename_lock keyring) true]).
Proof.
  intros Hk Hfail Hok.
  destruct (lock_wait_first_success keyring k MAX_LOCK_TIMEOUTS O w Hk Hfail Hok)
    as (w' & Hrun).
  unfold run, _dbus_keyring_lock. rewrite (bind_eq _ _ _ _ _ _ Hrun).
  replace (Nat.eqb (0 + k) MAX_LOCK_TIMEOUTS) with false
    by (symmetry; apply Nat.eqb_neq; lia).
  unfold ret. now rewrite app_nil_r.
Qed.

(** The lock is released by its holder during the third sleep. *)
Lemma X1_lock_first_success_witness :
  let keyring := example_keyring [] in
  let w := mkWorld (always 1000) (answers [false; false; false] true)
                   (always true) (always None) (always true) (always true)
                   (always zero) (always true) in
  run (_dbus_keyring_lock keyring) w
  = Some (true,
          failed_attempts keyring 3
          ++ [EvCreateExclusive (filename_lock keyring) true]).
Proof.
  intros keyring w.
  refine (X1_lock_first_success keyring w 3 _ _ _).
  - unfold MAX_LOCK_TIMEOUTS. lia.
  - intros i Hi. do 3 (destruct i as [|i]; [reflexivity|]). lia.
  - reflexivity.
Defined.

Lemma lock_wait_bounds keyring remaining : forall n w n' w' t,
  lock_wait keyring remaining n w = Some (n', w', t) ->
  Forall (lock_event keyring) t
  /\ (n <= n' <= n + remaining)%nat
  /\ sleep_total t = LOCK_TIMEOUT_MILLISECONDS * (Z.of_nat n' - Z.of_nat n)
  /\ (creations t <= remaining)%nat
  /\ deletions t = O.
Proof.
  induction remaining as [|r IH]; intros n w n' w' t H; cbn [lock_wait] in H.
  - apply ret_Some in H. destruct H as (-> & _ & ->).
    unfold LOCK_TIMEOUT_MILLISECONDS. cbn [sleep_total creations deletions].
    repeat split; try constructor; lia.
  - bind_split H. injection Hrun as <- <- <-.
    destruct (w_create w O).
    + apply ret_Some in H. destruct H as (-> & _ & ->).
      unfold LOCK_TIMEOUT_MILLISECONDS.
      cbn [app sleep_total creations deletions].
      repeat split; try lia. repeat constructor.
    + bind_split H. injection Hrun as _ <- <-.
      apply IH in H. destruct H as (Hev & Hn & Hs & Hc & Hd).
      repeat split; try lia.
      * repeat (constructor; [reflexivity|]). exact Hev.
      * cbn [app sleep_total]. rewrite Hs.
        unfold LOCK_TIMEOUT_MILLISECONDS. lia.
      * cbn [app creations]. lia.
      * cbn [app deletions]. exact Hd.
Qed.

(** X2: an acquisition always returns; all its events are on the lock
    file of the keyring or sleeps of 250 ms; it sleeps 8000 ms at most,
    attempts 33 creations at most and deletes the lock file at most
    once, and only after it has slept the full 8000 ms. *)
Theorem X2_lock_bounds (keyring : DBusKeyring) (w : World) :
  exists b t,
    run (_dbus_keyring_lock keyring) w = Some (b, t)
    /\ Forall (lock_event keyring) t
    /\ 0 <= sleep_total t <= 8000
    /\ (creations t <= 33)%nat
    /\ (deletions t <= 1)%nat
    /\ (deletions t = 1%nat -> sleep_total t = 8000).
Proof.
  destruct (lock_total keyring w) as (b & w' & t & H).
  exists b, t. split; [unfold run; now rewrite H|].
  unfold _dbus_keyring_lock in H. bind_split H.
  apply lock_wait_bounds in Hrun.
  destruct Hrun as (Hev & Hn & Hs & Hc & Hd).
  unfold MAX_LOCK_TIMEOUTS, LOCK_TIMEOUT_MILLISECONDS in *.
  destruct (Nat.eqb a 32) eqn:En.
  - apply Nat.eqb_eq in En. subst a.
    bind_split H. injection Hrun as <- <- <-.
    destruct (w_delete w0 O); cbn [negb] in H.
    + bind_split H. injection Hrun as <- <- <-.
      match type of H with
      | _ = Some (_, _, ?t') =>
          assert (t' = []) as ->
            by (destruct (negb _); apply ret_Some in H;
                now destruct H as (_ & _ & ->))
      end.
      rewrite !sleep_total_app, !creations_app, !deletions_app.
      cbn [sleep_total creations deletions]. rewrite Hs, Hd.
      repeat split; try lia.
      apply Forall_app. split; [exact Hev|]. repeat constructor.
    + apply ret_Some in H. destruct H as (_ & _ & ->).
      rewrite !sleep_total_app, !creations_app, !deletions_app.
      cbn [sleep_total creations deletions]. rewrite Hs, Hd.
      repeat split; try lia.
      apply Forall_app. split; [exact Hev|]. repeat constructor.
  - apply Nat.eqb_neq in En.
    apply ret_Some in H. destruct H as (_ & _ & ->).
    rewrite app_nil_r, Hs, Hd. repeat split; try lia. exact Hev.
Qed.

(** ** What a reload reads, installs and writes *)

Lemma load_keys_total now lines : forall keys w,
  exists r w', load_keys now lines keys w = Some (r, w', []).
Proof.
  induction lines as [|line rest IH]; intros keys w.
  - eexists _, _. reflexivity.
  - rewrite load_keys_cons.
    destruct (classify_line now line) as [|i ts nx]; [apply IH|].
    unfold dbus_realloc, _dbus_string_init, _dbus_string_hex_decode.
    rewrite bind_alloc.
    destruct (w_memory w O); cbn [negb]; [|eexists _, _; reflexivity].
    rewrite bind_alloc.
    destruct (w_memory (after_alloc w) O); cbn [negb];
      [|eexists _, _; reflexivity].
    rewrite bind_assoc, bind_alloc, bind_ret.
    destruct (if w_memory _ O then _ else _);
      [apply IH|eexists _, _; reflexivity].
Qed.

Lemma classify_line_Parts now line key_id timestamp next :
  classify_line now line = Parts key_id timestamp next ->
  0 <= key_id <= _DBUS_INT_MAX
  /\ key_time_rejected now timestamp = false
  /\ (next < length line)%nat.
Proof.
  unfold classify_line.
  destruct (_dbus_string_parse_int line 0) as [[val n1]|]; [|discriminate].
  destruct ((val >? _DBUS_INT_MAX) || (val <? 0)) eqn:Erange; [discriminate|].
  destruct (_dbus_string_parse_int line (_dbus_string_skip_blank line n1))
    as [[ts n2]|]; [|discriminate].
  destruct (key_time_rejected now ts) eqn:Etime; [discriminate|].
  destruct (Nat.eqb (length line - _dbus_string_skip_blank line n2) 0) eqn:Elen;
    [discriminate|].
  intros H. injection H as -> -> <-.
  apply orb_false_iff in Erange. destruct Erange as [E1 E2].
  apply Nat.eqb_neq in Elen.
  repeat split; try lia. exact Etime.
Qed.

Lemma key_time_accepted now timestamp :
  key_time_rejected now timestamp = false ->
  0 <= timestamp
  /\ wrap_long (now - 420) <= timestamp <= wrap_long (now + 300).
Proof.
  unfold key_time_rejected, MAX_TIME_TRAVEL_SECONDS,
    EXPIRE_KEYS_TIMEOUT_SECONDS, NEW_KEY_TIMEOUT_SECONDS.
  change (60 * 5 + 60 * 2) with 420. change (60 * 5) with 300.
  rewrite !orb_false_iff, !Z.ltb_ge, Z.gtb_ltb, Z.ltb_ge. lia.
Qed.

Lemma load_keys_Done now lines : forall keys w keys' w' t,
  load_keys now lines keys w = Some (Done keys', w', t) ->
  exists loaded,
    keys' = keys ++ loaded
    /\ map id loaded = accepted_ids now lines
    /\ Forall (key_checked now) loaded.
Proof.
  induction lines as [|line rest IH]; intros keys w keys' w' t H.
  - apply ret_Some in H. destruct H as (H & _). injection H as ->.
    exists []. rewrite app_nil_r. repeat split; constructor.
  - rewrite load_keys_cons in H. cbn [accepted_ids].
    destruct (classify_line now line) as [|key_id timestamp next] eqn:Ec;
      [now apply IH in H|].
    apply classify_line_Parts in Ec. destruct Ec as (Hid & Htime & _).
    apply key_time_accepted in Htime.
    unfold dbus_realloc, _dbus_string_init, _dbus_string_hex_decode in H.
    rewrite bind_alloc in H.
    destruct (w_memory w O); cbn [negb] in H;
      [|apply ret_Some in H; destruct H as (H & _); discriminate].
    rewrite bind_alloc in H.
    destruct (w_memory (after_alloc w) O); cbn [negb] in H;
      [|apply ret_Some in H; destruct H as (H & _); discriminate].
    rewrite bind_assoc, bind_alloc, bind_ret in H.
    destruct (if w_memory _ O then _ else _) as [secret|];
      [|apply ret_Some in H; destruct H as (H & _); discriminate].
    apply IH in H. destruct H as (loaded & -> & Hids & Hchecked).
    exists (mkDBusKey key_id timestamp secret :: loaded).
    rewrite <- app_assoc. cbn [app map id]. rewrite Hids.
    repeat split. constructor; [|exact Hchecked].
    unfold key_checked. cbn [id creation_time]. auto.
Qed.

Lemma save_keys_Done keys : forall contents w contents' w' t,
  save_keys keys contents w = Some (Done contents', w', t) ->
  contents' = contents ++ encode_keys keys.
Proof.
  induction keys as [|key rest IH]; intros contents w contents' w' t H;
    cbn [save_keys] in H.
  - apply ret_Some in H. destruct H as (H & _). injection H as ->.
    unfold encode_keys. cbn. now rewrite app_nil_r.
  - unfold _dbus_string_append_int, _dbus_string_append_byte,
      _dbus_string_hex_encode in H.
    repeat (rewrite bind_assoc, bind_alloc, bind_ret in H;
            destruct (w_memory _ O);
            [|apply ret_Some in H; destruct H as (H & _); discriminate]).
    apply IH in H. rewrite H. unfold encode_keys, key_line. cbn [map concat].
    repeat (rewrite <- app_assoc || rewrite <- app_comm_cons). reflexivity.
Qed.

Lemma length_take {A} n : forall (s : nat -> A), length (take n s) = n.
Proof.
  induction n as [|n IH]; intros s; [reflexivity|].
  cbn [take length]. now rewrite IH.
Qed.

Lemma random_bytes_Some n w s w' t :
  _dbus_generate_random_bytes n w = Some (Some s, w', t) ->
  length s = n /\ w_clock w' = w_clock w.
Proof.
  unfold _dbus_generate_random_bytes. intros H. rewrite bind_alloc in H.
  destruct (w_memory w O).
  - injection H as <- <- _. split; [apply length_take|reflexivity].
  - apply ret_Some in H. destruct H as (H & _). discriminate.
Qed.

(** A key that [add_new_key] made from the list [keys] in the course of
    a run that started in [w]. *)
Lemma add_new_key_Done fuel keys w keys' w' t :
  add_new_key fuel keys w = Some (Done keys', w', t) ->
  exists key w1,
    keys' = keys ++ [key]
    /\ find_key_by_id keys (id key) = None
    /\ length (secret key) = KEY_LENGTH_BYTES
    /\ clock_later w w1
    /\ creation_time key = w_clock w1 O.
Proof.
  unfold add_new_key, dbus_realloc, _dbus_string_init, _dbus_string_move.
  intros H. rewrite bind_alloc in H.
  destruct (w_memory w O); cbn [negb] in H;
    [|apply ret_Some in H; destruct H as (H & _); discriminate].
  bind_inv H. destruct a as [key_id|e];
    [|apply ret_Some in H; destruct H as (H & _); discriminate].
  pose proof (respects_draw_new_id any_event _ _ _ _ _ _ Hrun) as [Hlater _].
  assert (find_key_by_id keys key_id = None) as Hfresh.
  { clear - Hrun. revert Hrun. generalize (after_alloc w) as w1.
    generalize t0 as t1. generalize w0 as w2.
    induction fuel as [|fuel IH]; intros w2 t1 w1 H; cbn [draw_new_id] in H;
      [discriminate|].
    bind_inv H. destruct a as [s|];
      [|apply ret_Some in H; destruct H as (H & _); discriminate].
    destruct (find_key_by_id keys (new_key_id s)) eqn:E.
    - eapply IH. exact H.
    - apply ret_Some in H. destruct H as (H & _). injection H as ->. exact E. }
  bind_inv H. destruct a as [bytes|];
    [|apply ret_Some in H; destruct H as (H & _); discriminate].
  apply random_bytes_Some in Hrun0. destruct Hrun0 as [Hlen Hclock].
  rewrite bind_alloc in H.
  destruct (w_memory w1 O); cbn [negb] in H;
    [|apply ret_Some in H; destruct H as (H & _); discriminate].
  rewrite bind_alloc in H.
  destruct (w_memory (after_alloc w1) O); cbn [negb] in H;
    [|apply ret_Some in H; destruct H as (H & _); discriminate].
  rewrite bind_time, bind_alloc in H.
  destruct (w_memory _ O); cbn [negb] in H;
    apply ret_Some in H; destruct H as (H & _); [|discriminate].
  injection H as ->.
  exists (mkDBusKey key_id (w_clock w1 O) bytes), w1.
  cbn [id creation_time secret]. repeat split; auto.
  destruct Hlater as [k Hk]. exists k. intros n.
  rewrite Hclock, Hk. reflexivity.
Qed.

Lemma respects_silent {A} (m : M A) w a w' t :
  respects (fun _ => False) m ->
  m w = Some (a, w', t) ->
  t = [] /\ clock_later w w'.
Proof.
  intros Hm H. destruct (Hm _ _ _ _ H) as [Hlater Hev].
  split; [|exact Hlater].
  destruct t as [|e t]; [reflexivity|]. now inversion Hev.
Qed.

(** [bind_split] with names for the value and the run of the first part. *)
Ltac bind_as H a H1 :=
  let w := fresh "w" in
  let t1 := fresh "t" in
  let t2 := fresh "t" in
  let Et := fresh "Et" in
  apply bind_Some in H;
  destruct H as (a & w & t1 & t2 & H1 & H & Et);
  match type of Et with ?x = _ => subst x end.

(** The events and the result of the body of a reload run in [w] at the
    time [now]. *)
Lemma reload_keys_inv fuel keyring add_new now w r w' t :
  reload_keys fuel keyring add_new now w = Some (r, w', t) ->
  (t = [get_contents_event keyring w]
   \/ (add_new = true
       /\ exists contents ok,
            t = [get_contents_event keyring w;
                 EvSave (filename keyring) contents ok]))
  /\ forall keys',
       r = Done keys' ->
       exists loaded,
         map id loaded = accepted_ids now (pop_lines (file_text (w_read w O)))
         /\ Forall (key_checked now) loaded
         /\ if add_new
            then exists key w1,
                   keys' = loaded ++ [key]
                   /\ find_key_by_id loaded (id key) = None
                   /\ length (secret key) = KEY_LENGTH_BYTES
                   /\ clock_later w w1
                   /\ creation_time key = w_clock w1 O
                   /\ t = [get_contents_event keyring w;
                           EvSave (filename keyring) (encode_keys keys') true]
            else keys' = loaded /\ t = [get_contents_event keyring w].
Proof.
  intros H.
  destruct (reload_keys_load fuel keyring add_new now w) as (w1 & Hclock & _ & _ & E).
  rewrite E in H. clear E. bind_as H u Hget. cbv beta in Hget.
  injection Hget as _ <- <-.
  fold (get_contents_event keyring w).
  bind_as H r1 Hload.
  destruct (respects_silent _ _ _ _ _ (respects_load_keys _ _ _ _) Hload)
    as [-> Hlater1].
  assert (clock_later w w0) as Hlater0.
  { destruct Hlater1 as [k Hk]. exists k. intros n. now rewrite Hk, Hclock. }
  destruct r1 as [loaded|e].
  - apply load_keys_Done in Hload.
    destruct Hload as (loaded' & -> & Hids & Hchecked). cbn [app] in *.
    destruct add_new.
    + bind_as H r2 Hadd.
      destruct (respects_silent _ _ _ _ _ (respects_add_new_key _ _ _) Hadd)
        as [-> Hlater2].
      destruct r2 as [keys1|e].
      * apply add_new_key_Done in Hadd.
        destruct Hadd as (key & w3 & -> & Hfresh & Hlen & Hlater3 & Htime).
        bind_as H r3 Hsave.
        destruct (respects_silent _ _ _ _ _ (respects_save_keys _ _ _) Hsave)
          as [-> _].
        destruct r3 as [contents|e].
        -- apply save_keys_Done in Hsave. cbn [app] in Hsave. subst contents.
           bind_as H saved Hfile. injection Hfile as <- <- <-.
           match type of H with
           | (if ?c then _ else _) _ = _ =>
               destruct c; apply ret_Some in H;
               destruct H as (-> & _ & ->); cbn [app]
           end.
           ++ split; [right; split; [reflexivity|eauto]|].
              intros keys' Hk. injection Hk as <-.
              exists loaded'. repeat split; auto.
              exists key, w3. repeat split; auto.
              eapply clock_later_trans; eassumption.
           ++ split; [right; split; [reflexivity|eauto]|].
              intros keys' Hk. discriminate.
        -- apply ret_Some in H. destruct H as (-> & _ & ->). cbn [app].
           split; [now left|]. intros keys' Hk. discriminate.
      * apply ret_Some in H. destruct H as (-> & _ & ->). cbn [app].
        split; [now left|]. intros keys' Hk. discriminate.
    + apply ret_Some in H. destruct H as (-> & _ & ->). cbn [app].
      split; [now left|]. intros keys' Hk. injection Hk as <-.
      exists loaded'. repeat split; auto.
  - apply ret_Some in H. destruct H as (-> & _ & ->). cbn [app].
    split; [now left|]. intros keys' Hk. discriminate.
Qed.

Lemma lock_all_lock_events keyring w b w' t :
  _dbus_keyring_lock keyring w = Some (b, w', t) ->
  Forall (lock_event keyring) t.
Proof.
  intros H. unfold _dbus_keyring_lock in H. bind_split H.
  apply lock_wait_bounds in Hrun. destruct Hrun as (Hev & _).
  apply Forall_app. split; [exact Hev|].
  destruct (Nat.eqb a MAX_LOCK_TIMEOUTS).
  - bind_split H. injection Hrun as <- <- <-.
    destruct (w_delete w0 O); cbn [negb] in H.
    + bind_split H. injection Hrun as <- <- <-.
      match type of H with
      | _ = Some (_, _, ?t') =>
          assert (t' = []) as ->
            by (destruct (negb _); apply ret_Some in H;
                now destruct H as (_ & _ & ->))
      end.
      repeat constructor.
    + apply ret_Some in H. destruct H as (_ & _ & ->). repeat constructor.
  - apply ret_Some in H. destruct H as (_ & _ & ->). constructor.
Qed.

(** A reload that adds no key returns, and at most reads the data file. *)
Lemma reload_false_run fuel keyring w :
  exists res w' t,
    _dbus_keyring_reload fuel keyring false w = Some (res, w', t)
    /\ (t = [] \/ t = [get_contents_event keyring w])
    /\ (fst res = keyring \/ exists keys', fst res = set_keys keyring keys').
Proof.
  unfold _dbus_keyring_reload, _dbus_string_init.
  rewrite bind_alloc.
  destruct (w_memory w O); cbn [negb];
    [|eexists _, _, _; split; [reflexivity|split; now left]].
  rewrite bind_alloc.
  destruct (w_memory (after_alloc w) O); cbn [negb];
    [|eexists _, _, _; split; [reflexivity|split; now left]].
  rewrite bind_time.
  set (w2 := after_time (after_alloc (after_alloc w))).
  destruct (reload_keys_load fuel keyring false
              (w_clock (after_alloc (after_alloc w)) O) w2)
    as (w3 & _ & _ & _ & Hk).
  match type of Hk with
  | context [load_keys ?now ?lines []] =>
      destruct (load_keys_total now lines [] w3) as (r & w4 & Hload)
  end.
  unfold bind at 1. rewrite Hk. unfold bind at 1 2. rewrite Hload.
  destruct r as [keys'|e]; unfold ret at 1, reload_out, bind, ret;
    eexists _, _, _; (split; [reflexivity|split; [right; reflexivity|]]);
    cbn [fst]; eauto.
Qed.

(** X3: a reload that adds no key returns with any fuel in any world,
    and all it does to the file system is to read the data file, once
    (not even that when it lacks memory at once): it never creates or
    deletes the lock file and never saves the data file. *)
Theorem X3_reload_without_add_only_reads (fuel : nat) (keyring : DBusKeyring)
    (w : World) :
  exists res t,
    run (_dbus_keyring_reload fuel keyring false) w = Some (res, t)
    /\ (t = [] \/ t = [get_contents_event keyring w]).
Proof.
  destruct (reload_false_run fuel keyring w) as (res & w' & t & H & Ht & _).
  exists res, t. split; [unfold run; now rewrite H|exact Ht].
Qed.

(** The runs of [_dbus_keyring_reload] that reach the body, with the
    worlds in which the lock and the body ran. *)
Lemma reload_body_inv fuel keyring add_new w res w' t :
  _dbus_keyring_reload fuel keyring add_new w = Some (res, w', t) ->
  let w0 := after_time (after_alloc (after_alloc w)) in
  (exists e,
      res = (keyring, Fail e)
      /\ ((t = []
           /\ e = mkDBusError DBUS_ERROR_NO_MEMORY "No memory to reload keyring")
          \/ (add_new = true
              /\ exists w2, _dbus_keyring_lock keyring w0 = Some (false, w2, t))))
  \/ exists w2 t_lock r w3 t_keys,
       (if add_new
        then _dbus_keyring_lock keyring w0 = Some (true, w2, t_lock)
        else w2 = w0 /\ t_lock = [])
       /\ reload_keys fuel keyring add_new (w_clock w O) w2 = Some (r, w3, t_keys)
       /\ res = reload_result keyring r
       /\ t = t_lock ++ t_keys
              ++ (if add_new
                  then [EvDelete (filename_lock keyring) (w_delete w3 O)]
                  else []).
Proof.
  intros H w0. unfold _dbus_keyring_reload, _dbus_string_init in H.
  rewrite bind_alloc in H.
  destruct (w_memory w O); cbn [negb] in H;
    [|apply ret_Some in H; destruct H as (-> & _ & ->); left;
      eexists; split; [reflexivity|left; split; reflexivity]].
  rewrite bind_alloc in H.
  destruct (w_memory (after_alloc w) O); cbn [negb] in H;
    [|apply ret_Some in H; destruct H as (-> & _ & ->); left;
      eexists; split; [reflexivity|left; split; reflexivity]].
  rewrite bind_time in H.
  change (w_clock (after_alloc (after_alloc w)) O) with (w_clock w O) in H.
  fold w0 in H.
  destruct add_new.
  - bind_as H locked Hlock. destruct locked; cbn [negb] in H.
    + bind_as H r Hkeys. apply reload_out_Some in H. destruct H as (-> & _ & ->).
      right. eexists _, _, _, _, _.
      split; [exact Hlock|]. split; [exact Hkeys|]. split; reflexivity.
    + apply reload_out_Some in H. destruct H as (-> & _ & ->).
      rewrite app_nil_r. left. eexists. split; [reflexivity|].
      right. split; [reflexivity|]. eexists. exact Hlock.
  - bind_as H r Hkeys. apply reload_out_Some in H. destruct H as (-> & _ & ->).
    right. exists w0, []. eexists _, _, _.
    split; [split; reflexivity|]. split; [exact Hkeys|]. split; reflexivity.
Qed.

Lemma lock_event_not_save keyring path contents ok :
  ~ lock_event keyring (EvSave path contents ok).
Proof. intros []. Qed.

(** X4: the data file is saved only under the lock.  When a reload saves
    the file, it is a reload that adds a key, the file saved is the data
    file of the keyring, and the events of the reload end with the
    creation of the lock file, the reading of the data file, this one
    save and the deletion of the lock file; what comes before are
    events of the lock only. *)
Theorem X4_save_only_under_lock (fuel : nat) (keyring : DBusKeyring)
    (add_new : bool) (w : World) (res : DBusKeyring * outcome unit)
    (t : list event) (path contents : DBusString) (ok : bool) :
  run (_dbus_keyring_reload fuel keyring add_new) w = Some (res, t) ->
  In (EvSave path contents ok) t ->
  add_new = true
  /\ path = filename keyring
  /\ exists pre deleted,
       t = pre ++ [EvCreateExclusive (filename_lock keyring) true;
                   get_contents_event keyring w;
                   EvSave (filename keyring) contents ok;
                   EvDelete (filename_lock keyring) deleted]
       /\ Forall (lock_event keyring) pre.
Proof.
  intros H Hin. apply run_Some in H. destruct H as [w' H].
  apply reload_body_inv in H. cbv zeta in H.
  destruct H as [(e & _ & [[-> _]|(_ & w2 & Hlock)])
                |(w2 & tl & r & w3 & tk & Hlock & Hkeys & _ & ->)].
  - destruct Hin.
  - apply lock_all_lock_events in Hlock. rewrite Forall_forall in Hlock.
    now apply Hlock in Hin.
  - apply reload_keys_inv in Hkeys. destruct Hkeys as [Hev _].
    destruct add_new.
    + pose proof (lock_frame _ _ _ _ _ Hlock) as [Hread _].
      assert (get_contents_event keyring w2 = get_contents_event keyring w) as Eg.
      { unfold get_contents_event. now rewrite Hread. }
      rewrite Eg in Hev. clear Eg.
      pose proof (lock_events _ _ _ _ _ Hlock) as (t0 & -> & _).
      apply lock_all_lock_events in Hlock.
      apply Forall_app in Hlock. destruct Hlock as [Hpre _].
      apply in_app_or in Hin. destruct Hin as [Hin|Hin].
      { exfalso. apply in_app_or in Hin. destruct Hin as [Hin|[Hin|[]]].
        - rewrite Forall_forall in Hpre. now apply Hpre in Hin.
        - discriminate. }
      apply in_app_or in Hin. destruct Hin as [Hin|[Hin|[]]]; [|discriminate].
      destruct Hev as [->|(_ & c & ok' & ->)].
      * destruct Hin as [Hin|[]]. discriminate.
      * destruct Hin as [Hin|[Hin|[]]]; [discriminate|].
        injection Hin as <- <- <-.
        repeat split. exists t0, (w_delete w3 O).
        split; [now rewrite <- app_assoc|exact Hpre].
    + exfalso. destruct Hlock as [-> ->].
      destruct Hev as [->|(Hf & _)]; [|discriminate].
      cbn [app] in Hin. destruct Hin as [Hin|[]]. discriminate.
Qed.

(** A reload that adds a key to an empty keyring with no file yet. *)
Lemma X4_save_only_under_lock_witness :
  let keyring := example_keyring [] in
  let w := quiet_world 1000 None [] in
  exists pre deleted,
    [EvCreateExclusive (filename_lock keyring) true;
     EvGetContents (filename keyring) false;
     EvSave (filename keyring)
       (ln "0 1000 000000000000000000000000000000000000000000000000") true;
     EvDelete (filename_lock keyring) true]
    = pre ++ [EvCreateExclusive (filename_lock keyring) true;
              get_contents_event keyring w;
              EvSave (filename keyring)
                (ln "0 1000 000000000000000000000000000000000000000000000000") true;
              EvDelete (filename_lock keyring) deleted]
    /\ Forall (lock_event keyring) pre.
Proof.
  intros keyring w.
  refine (proj2 (proj2 (X4_save_only_under_lock 1 keyring true w _ _
                          (filename keyring)
                          (ln "0 1000 000000000000000000000000000000000000000000000000")
                          true _ _))).
  - vm_compute. reflexivity.
  - right. right. left. reflexivity.
Defined.

(** A reload that adds a key and succeeds: the keys loaded, the key
    made, and the events. *)
Lemma reload_add_Done fuel keyring keyring' w w' t :
  _dbus_keyring_reload fuel keyring true w = Some ((keyring', Done tt), w', t) ->
  exists loaded key w1 pre deleted,
    keyring' = set_keys keyring (loaded ++ [key])
    /\ map id loaded = file_ids w
    /\ Forall (key_checked (w_clock w O)) loaded
    /\ find_key_by_id loaded (id key) = None
    /\ length (secret key) = KEY_LENGTH_BYTES
    /\ clock_later w w1
    /\ creation_time key = w_clock w1 O
    /\ t = pre ++ [EvCreateExclusive (filename_lock keyring) true;
                   get_contents_event keyring w;
                   EvSave (filename keyring) (encode_keys (loaded ++ [key])) true;
                   EvDelete (filename_lock keyring) deleted]
    /\ Forall (lock_event keyring) pre.
Proof.
  intros H. apply reload_body_inv in H. cbv zeta in H.
  destruct H as [(e & Hres & _)
                |(w2 & tl & r & w3 & tk & Hlock & Hkeys & Hres & ->)];
    [discriminate|].
  destruct r as [keys'|e]; cbn in Hres; [|discriminate].
  injection Hres as ->.
  pose proof (lock_frame _ _ _ _ _ Hlock) as [Hread Hclock].
  apply reload_keys_inv in Hkeys. destruct Hkeys as [_ Hdone].
  destruct (Hdone keys' eq_refl)
    as (loaded & Hids & Hchecked & key & w1 & -> & Hfresh & Hlen & Hlater
        & Htime & ->).
  pose proof (lock_events _ _ _ _ _ Hlock) as (t0 & -> & _).
  apply lock_all_lock_events in Hlock.
  apply Forall_app in Hlock. destruct Hlock as [Hpre _].
  exists loaded, key, w1, t0, (w_delete w3 O).
  repeat split; auto.
  - unfold file_ids. rewrite Hread in Hids. exact Hids.
  - destruct Hlater as [k Hk]. exists (S k). intros n.
    rewrite Hk, Hclock. reflexivity.
  - unfold get_contents_event. rewrite Hread. now rewrite <- app_assoc.
Qed.

(** X5: a reload that adds a key and succeeds has saved, as its one
    write, the text of exactly the key list that it installs: the lines
    of the installed keys in their order, each with its ID, creation
    time and secret in hexadecimal; and it has released the lock after
    the save. *)
Theorem X5_saved_text_is_installed_list (fuel : nat) (keyring keyring' : DBusKeyring)
    (w : World) (t : list event) :
  run (_dbus_keyring_reload fuel keyring true) w = Some ((keyring', Done tt), t) ->
  exists pre deleted,
    t = pre ++ [EvCreateExclusive (filename_lock keyring) true;
                get_contents_event keyring w;
                EvSave (filename keyring) (encode_keys (keys keyring')) true;
                EvDelete (filename_lock keyring) deleted]
    /\ Forall (lock_event keyring) pre.
Proof.
  intros H. apply run_Some in H. destruct H as [w' H].
  apply reload_add_Done in H.
  destruct H as (loaded & key & w1 & pre & deleted & -> & _ & _ & _ & _ & _ & _
                 & -> & Hpre).
  exists pre, deleted. split; [reflexivity|exact Hpre].
Qed.

(** A reload that adds a key to a file of one key. *)
Lemma X5_saved_text_is_installed_list_witness :
  let keyring := example_keyring [] in
  let w := quiet_world 1000 (Some (ln "5 950 6b")) [] in
  exists pre deleted,
    [EvCreateExclusive (filename_lock keyring) true;
     EvGetContents (filename keyring) true;
     EvSave (filename keyring)
       (encode_keys [mkDBusKey 5 950 (str "k");
                     mkDBusKey 0 1000 (repeat zero 24)]) true;
     EvDelete (filename_lock keyring) true]
    = pre ++ [EvCreateExclusive (filename_lock keyring) true;
              get_contents_event keyring w;
              EvSave (filename keyring)
                (encode_keys [mkDBusKey 5 950 (str "k");
                              mkDBusKey 0 1000 (repeat zero 24)]) true;
              EvDelete (filename_lock keyring) deleted]
    /\ Forall (lock_event keyring) pre.
Proof.
  intros keyring w.
  refine (X5_saved_text_is_installed_list 1 keyring
            (set_keys keyring [mkDBusKey 5 950 (str "k");
                               mkDBusKey 0 1000 (repeat zero 24)]) w _ _).
  vm_compute. reflexivity.
Defined.





(** X8: when the data file cannot be read, or holds a byte that is not
    ASCII, a reload without a new key that has memory for its two
    buffers succeeds and installs the empty list: the contents are
    ignored as a whole, and the keys held before are dropped. *)
Theorem X8_unreadable_file_is_empty (fuel : nat) (keyring : DBusKeyring) (w : World) :
  w_memory w 0%nat = true ->
  w_memory w 1%nat = true ->
  (w_read w O = None
   \/ exists contents,
        w_read w O = Some contents
        /\ _dbus_string_validate_ascii contents = false) ->
  run (_dbus_keyring_reload fuel keyring false) w
  = Some ((set_keys keyring [], Done tt), [get_contents_event keyring w]).
Proof.
  intros Hm0 Hm1 Hfile.
  assert (file_text (w_read w O) = []) as Htext.
  { destruct Hfile as [->|(c & -> & Hc)]; [reflexivity|].
    unfold file_text. now rewrite Hc. }
  unfold run, _dbus_keyring_reload, _dbus_string_init.
  rewrite bind_alloc, Hm0. cbn [negb].
  rewrite bind_alloc.
  change (w_memory (after_alloc w) O) with (w_memory w 1%nat).
  rewrite Hm1. cbn [negb]. rewrite bind_time.
  destruct (reload_keys_load fuel keyring false
              (w_clock (after_alloc (after_alloc w)) O)
              (after_time (after_alloc (after_alloc w))))
    as (w3 & _ & _ & _ & Hk).
  change (w_read (after_time (after_alloc (after_alloc w))) O)
    with (w_read w O) in Hk.
  rewrite Htext in Hk.
  unfold bind at 1. rewrite Hk. reflexivity.
Qed.

(** A file with the byte 0x80 in its second line: the first line is a
    well-formed key, and is ignored with the rest. *)
Lemma X8_unreadable_file_is_empty_witness :
  let keyring := example_keyring [mkDBusKey 3 900 (str "old")] in
  let w := quiet_world 1000 (Some (ln "5 950 6b" ++ ["128"%char])) [] in
  run (_dbus_keyring_reload 0 keyring false) w
  = Some ((set_keys keyring [], Done tt), [EvGetContents (filename keyring) true]).
Proof.
  intros keyring w.
  refine (X8_unreadable_file_is_empty 0 keyring w _ _ _).
  - reflexivity.
  - reflexivity.
  - right. eexists. split; reflexivity.
Defined.

(** ** Lines that are no keys *)

(** X9: a line that the loader skips (no integer at its start, an ID out
    of range, no timestamp, an expired timestamp, or no secret) changes
    nothing: loading the lines with it gives what loading the lines
    without it gives, the same result, world and events, wherever the
    line stands. *)
Theorem X9_skipped_line_changes_nothing (now : Z) (line : DBusString)
    (rest before : list DBusString) (keys : list DBusKey) (w : World) :
  classify_line now line = Skipped ->
  load_keys now (before ++ line :: rest) keys w
  = load_keys now (before ++ rest) keys w.
Proof.
  intros Hskip. revert keys w.
  induction before as [|l before IH]; intros keys w; cbn [app].
  - now rewrite load_keys_cons, Hskip.
  - rewrite !load_keys_cons.
    destruct (classify_line now l) as [|i ts nx]; [apply IH|].
    unfold dbus_realloc, _dbus_string_init, _dbus_string_hex_decode.
    rewrite !bind_alloc.
    destruct (w_memory w O); cbn [negb]; [|reflexivity].
    rewrite !bind_alloc.
    destruct (w_memory (after_alloc w) O); cbn [negb]; [|reflexivity].
    rewrite !bind_assoc, !bind_alloc, !bind_ret.
    destruct (if w_memory _ O then _ else _); [apply IH|reflexivity].
Qed.

(** A comment line between two keys. *)
Lemma X9_skipped_line_changes_nothing_witness :
  let w := quiet_world 1000 None [] in
  load_keys 1000 ([str "5 950 6b"] ++ str "# cookies" :: [str "6 960 6c"]) [] w
  = load_keys 1000 ([str "5 950 6b"] ++ [str "6 960 6c"]) [] w.
Proof.
  intros w.
  refine (X9_skipped_line_changes_nothing 1000 (str "# cookies")
            [str "6 960 6c"] [str "5 950 6b"] [] w _).
  reflexivity.
Defined.

(** ** Looking keys up *)

Lemma find_key_by_id_app l1 l2 key_id :
  find_key_by_id (l1 ++ l2) key_id =
  match find_key_by_id l1 key_id with
  | Some key => Some key
  | None => find_key_by_id l2 key_id
  end.
Proof.
  induction l1 as [|k l1 IH]; [reflexivity|].
  cbn [app find_key_by_id]. destruct (id k =? key_id); [reflexivity|exact IH].
Qed.

(** X10: after [add_new_key] has succeeded, the list is the list it was
    given followed by one key with a secret of 24 bytes; looking up the
    ID of the new key finds the new key (no key had this ID before),
    and looking up any other ID finds what it found before. *)
Theorem X10_add_new_key_then_lookup (fuel : nat) (keys keys' : list DBusKey)
    (w w' : World) (t : list event) :
  add_new_key fuel keys w = Some (Done keys', w', t) ->
  exists key,
    keys' = keys ++ [key]
    /\ length (secret key) = 24%nat
    /\ find_key_by_id keys (id key) = None
    /\ find_key_by_id keys' (id key) = Some key
    /\ forall key_id,
         key_id <> id key ->
         find_key_by_id keys' key_id = find_key_by_id keys key_id.
Proof.
  intros H. apply add_new_key_Done in H.
  destruct H as (key & w1 & -> & Hfresh & Hlen & _).
  exists key. repeat split; auto.
  - rewrite find_key_by_id_app, Hfresh. cbn [find_key_by_id].
    now rewrite Z.eqb_refl.
  - intros key_id Hne. rewrite find_key_by_id_app.
    destruct (find_key_by_id keys key_id); [reflexivity|].
    cbn [find_key_by_id].
    destruct (id key =? key_id) eqn:E; [|reflexivity].
    apply Z.eqb_eq in E. congruence.
Qed.

(** The draws 5 and 9 on a list that holds the ID 5: the key 9 is added. *)
Lemma X10_add_new_key_then_lookup_witness :
  let keys := [mkDBusKey 5 950 (str "k")] in
  let new := mkDBusKey 9 1000 (repeat zero 24) in
  exists key,
    keys ++ [new] = keys ++ [key]
    /\ length (secret key) = 24%nat
    /\ find_key_by_id keys (id key) = None
    /\ find_key_by_id (keys ++ [new]) (id key) = Some key
    /\ forall key_id,
         key_id <> id key ->
         find_key_by_id (keys ++ [new]) key_id = find_key_by_id keys key_id.
Proof.
  intros keys new.
  refine (X10_add_new_key_then_lookup 2 keys (keys ++ [new])
            (quiet_world 1000 None
               ["005"%char; zero; zero; zero; "009"%char]) _ _ _).
  vm_compute. reflexivity.
Defined.

(** X11: [find_key_by_id] returns the first key of the list that has the
    ID, and nothing exactly when no key of the list has it. *)
Theorem X11_find_key_by_id_first_match (keys : list DBusKey) (key_id : Z) :
  match find_key_by_id keys key_id with
  | Some key =>
      exists before after,
        keys = before ++ key :: after
        /\ id key = key_id
        /\ Forall (fun k => id k <> key_id) before
  | None => Forall (fun k => id k <> key_id) keys
  end.
Proof.
  induction keys as [|k keys IH]; cbn [find_key_by_id]; [constructor|].
  destruct (id k =? key_id) eqn:E.
  - apply Z.eqb_eq in E. exists [], keys. repeat split; auto.
  - apply Z.eqb_neq in E.
    destruct (find_key_by_id keys key_id) as [key|].
    + destruct IH as (before & after & -> & Hid & Hbefore).
      exists (k :: before), after. repeat split; auto.
    + constructor; assumption.
Qed.

(** ** The ID drawn for a new key *)

Lemma lor_shiftl_add a b n :
  0 <= n -> 0 <= a < 2 ^ n ->
  Z.lor a (Z.shiftl b n) = a + b * 2 ^ n.
Proof.
  intros Hn Ha.
  assert (Z.land a (Z.shiftl b n) = 0) as Hland.
  { apply Z.bits_inj'. intros i Hi. rewrite Z.land_spec, Z.bits_0.
    destruct (Z.lt_ge_cases i n) as [Hlt|Hge].
    - rewrite Z.shiftl_spec_low by exact Hlt. apply andb_false_r.
    - destruct (Z.eq_dec a 0) as [->|Hne]; [now rewrite Z.bits_0|].
      rewrite Z.bits_above_log2; [reflexivity|lia|].
      apply Z.lt_le_trans with n; [|exact Hge].
      apply Z.log2_lt_pow2; lia. }
  rewrite <- Z.lxor_lor by exact Hland.
  rewrite <- Z.add_nocarry_lxor by exact Hland.
  now rewrite Z.shiftl_mul_pow2.
Qed.

Lemma wrap_int32_unsigned z :
  0 <= z < 2 ^ 32 ->
  wrap_int32 z = if z <? 2 ^ 31 then z else z - 2 ^ 32.
Proof.
  intros Hz. unfold wrap_int32. destruct (z <? 2 ^ 31) eqn:E.
  - apply Z.ltb_lt in E. rewrite Z.mod_small; lia.
  - apply Z.ltb_ge in E.
    rewrite <- (Z.mod_unique_pos (z + 2 ^ 31) (2 ^ 32) 1 (z - 2 ^ 31)); lia.
Qed.

Lemma random_id_value b0 b1 b2 b3 :
  random_id [b0; b1; b2; b3]
  = wrap_int32 (byte_code b0 + byte_code b1 * 2 ^ 8
                + byte_code b2 * 2 ^ 16 + byte_code b3 * 2 ^ 24).
Proof.
  unfold random_id. cbn [nth].
  pose proof (byte_code_range b0). pose proof (byte_code_range b1).
  pose proof (byte_code_range b2). pose proof (byte_code_range b3).
  rewrite (lor_shiftl_add (byte_code b0)) by lia.
  rewrite (lor_shiftl_add (_ + _)) by lia.
  rewrite (lor_shiftl_add (_ + _)) by lia.
  reflexivity.
Qed.

(** X12: of all the draws of four bytes, the draw 00 00 00 80 is the
    only one for which the ID of the new key is negative (it is
    [INT_MIN]); for every other draw the ID is the absolute value of
    the little-endian 32-bit integer of the bytes, between 0 and
    [INT_MAX]. *)
Theorem X12_new_key_id_of_draw (b0 b1 b2 b3 : ascii) :
  let s := [b0; b1; b2; b3] in
  let v := wrap_int32 (byte_code b0 + byte_code b1 * 2 ^ 8
                       + byte_code b2 * 2 ^ 16 + byte_code b3 * 2 ^ 24) in
  (new_key_id s < 0 <-> s = [zero; zero; zero; "128"%char])
  /\ (s <> [zero; zero; zero; "128"%char] ->
      new_key_id s = Z.abs v /\ 0 <= new_key_id s <= _DBUS_INT_MAX)
  /\ (s = [zero; zero; zero; "128"%char] -> new_key_id s = _DBUS_INT_MIN).
Proof.
  intros s v.
  pose proof (byte_code_range b0) as H0. pose proof (byte_code_range b1) as H1.
  pose proof (byte_code_range b2) as H2. pose proof (byte_code_range b3) as H3.
  assert (random_id s = v) as Hv by apply random_id_value.
  assert (v = _DBUS_INT_MIN -> s = [zero; zero; zero; "128"%char]) as Hmin.
  { unfold v, _DBUS_INT_MIN. rewrite wrap_int32_unsigned by lia.
    intros E.
    destruct (_ <? 2 ^ 31) eqn:El;
      [apply Z.ltb_lt in El; lia|apply Z.ltb_ge in El].
    assert (byte_code b3 = 128 /\ byte_code b2 = 0
            /\ byte_code b1 = 0 /\ byte_code b0 = 0) as (E3 & E2 & E1 & E0)
      by lia.
    unfold s.
    rewrite <- (byte_of_code_code b0), <- (byte_of_code_code b1),
      <- (byte_of_code_code b2), <- (byte_of_code_code b3).
    now rewrite E0, E1, E2, E3. }
  assert (s = [zero; zero; zero; "128"%char] -> new_key_id s = _DBUS_INT_MIN)
    as Hbad by (intros ->; reflexivity).
  assert (s <> [zero; zero; zero; "128"%char] ->
          new_key_id s = Z.abs v /\ 0 <= new_key_id s <= _DBUS_INT_MAX) as Hgood.
  { intros Hs.
    assert (v <> _DBUS_INT_MIN) as Hne by (intros E; now apply Hs, Hmin).
    pose proof (wrap_int32_range
                  (byte_code b0 + byte_code b1 * 2 ^ 8
                   + byte_code b2 * 2 ^ 16 + byte_code b3 * 2 ^ 24)) as Hr.
    fold v in Hr. unfold new_key_id. rewrite Hv.
    unfold _DBUS_INT_MIN, _DBUS_INT_MAX in *.
    destruct (v <? 0) eqn:E.
    - apply Z.ltb_lt in E. rewrite wrap_int32_small
        by (unfold _DBUS_INT_MIN, _DBUS_INT_MAX; lia).
      lia.
    - apply Z.ltb_ge in E. lia. }
  split; [|split; assumption].
  split.
  - intros Hneg.
    destruct (list_eq_dec ascii_dec s [zero; zero; zero; "128"%char]) as [E|E];
      [exact E|].
    apply Hgood in E. lia.
  - intros E. rewrite (Hbad E). unfold _DBUS_INT_MIN. lia.
Qed.

(** ** What [_dbus_keyring_get_best_key] returns *)

Lemma first_recent_key_In tv_sec keys key :
  first_recent_key tv_sec keys = Some key ->
  In key keys
  /\ wrap_long (tv_sec - NEW_KEY_TIMEOUT_SECONDS) < creation_time key.
Proof.
  induction keys as [|k keys IH]; cbn [first_recent_key]; [discriminate|].
  destruct (wrap_long (tv_sec - NEW_KEY_TIMEOUT_SECONDS) <? creation_time k)
    eqn:E.
  - intros H. injection H as ->. apply Z.ltb_lt in E. split; [now left|exact E].
  - intros H. apply IH in H. destruct H as [Hin Hfresh].
    split; [now right|exact Hfresh].
Qed.

Lemma find_key_by_id_In keys key :
  In key keys ->
  exists found, find_key_by_id keys (id key) = Some found /\ id found = id key.
Proof.
  induction keys as [|k keys IH]; intros Hin; [destruct Hin|].
  cbn [find_key_by_id]. destruct (id k =? id key) eqn:E.
  - apply Z.eqb_eq in E. eauto.
  - destruct Hin as [->|Hin]; [rewrite Z.eqb_refl in E; discriminate|].
    now apply IH.
Qed.

(** The result of [reload_and_scan]. *)
Lemma reload_and_scan_inv fuel keyring w keyring' r err w' t :
  reload_and_scan fuel keyring w = Some ((keyring', r, err), w', t) ->
  exists res w1,
    _dbus_keyring_reload fuel keyring true w = Some ((keyring', res), w1, t)
    /\ match res with
       | Fail e => r = -1 /\ err = Some e /\ keyring' = keyring
       | Done _ =>
           match first_recent_key (w_clock w1 O) (keys keyring') with
           | Some key => r = id key /\ err = None
           | None => r = -1 /\ exists e, err = Some e
           end
       end.
Proof.
  unfold reload_and_scan. intros H. bind_as H res Hreload.
  destruct res as [keyring1 [[]|e]].
  - rewrite (bind_silent _ _ _ _ _ (find_recent_key_run keyring1 w0)) in H.
    destruct (first_recent_key (w_clock w0 O) (keys keyring1)) as [key|] eqn:E;
      apply ret_Some in H; destruct H as (H & _ & ->);
      injection H as -> -> ->; rewrite app_nil_r;
      exists (Done tt), w0; rewrite E; eauto.
  - apply ret_Some in H. destruct H as (H & _ & ->). injection H as -> -> ->.
    rewrite app_nil_r.
    exists (Fail e), w0. split; [exact Hreload|].
    repeat split.
    apply reload_inv in Hreload.
    destruct Hreload as [e' Hres _|e' w1 w2 _ Hres _
                        |w1 w2 w3 r tl tk tu _ _ _ Hres _ _].
    + now injection Hres.
    + now injection Hres.
    + destruct r; cbn in Hres; [discriminate|now injection Hres].
Qed.

(** X13: when [_dbus_keyring_get_best_key] returns with an error set,
    the [int] it returns is -1; when it returns without error, the ID
    returned is the ID of a key that the keyring holds after the call,
    and [find_key_by_id] on the list of the keyring finds a key with
    this ID. *)
Theorem X13_best_key_result (fuel : nat) (keyring keyring' : DBusKeyring)
    (w w' : World) (r : Z) (err : option DBusError) (t : list event) :
  _dbus_keyring_get_best_key fuel keyring w = Some ((keyring', r, err), w', t) ->
  match err with
  | Some _ => r = -1
  | None =>
      exists key found,
        In key (keys keyring')
        /\ r = id key
        /\ find_key_by_id (keys keyring') r = Some found
        /\ id found = r
  end.
Proof.
  intros H. rewrite get_best_key_scan in H.
  assert (forall now key,
             first_recent_key now (keys keyring') = Some key ->
             exists key0 found,
               In key0 (keys keyring') /\ id key = id key0
               /\ find_key_by_id (keys keyring') (id key) = Some found
               /\ id found = id key) as Hfound.
  { intros now key Hk. apply first_recent_key_In in Hk. destruct Hk as [Hin _].
    destruct (find_key_by_id_In _ _ Hin) as (found & Hf & Hid).
    exists key, found. auto. }
  destruct (first_recent_key (w_clock w O) (keys keyring)) as [key|] eqn:Hscan.
  - injection H as <- <- <- _ _. eapply Hfound. exact Hscan.
  - apply reload_and_scan_inv in H.
    destruct H as ([[]|e] & w1 & _ & Hres).
    + destruct (first_recent_key (w_clock w1 O) (keys keyring')) as [key|] eqn:E.
      * destruct Hres as [-> ->]. eapply Hfound. exact E.
      * destruct Hres as [-> (e & ->)]. reflexivity.
    + destruct Hres as (-> & -> & _). reflexivity.
Qed.

(** The key made by the call is returned. *)
Lemma X13_best_key_result_witness :
  let keyring := example_keyring [] in
  let w := quiet_world 1000 None ["007"%char] in
  match _dbus_keyring_get_best_key 1 keyring w with
  | Some ((keyring', r, None), _, _) =>
      exists key found,
        In key (keys keyring')
        /\ r = id key
        /\ find_key_by_id (keys keyring') r = Some found
        /\ id found = r
  | _ => False
  end.
Proof.
  intros keyring w.
  destruct (_dbus_keyring_get_best_key 1 keyring w)
    as [[[[[keyring' r] err] w'] t]|] eqn:E.
  - assert (err = None) as -> by (vm_compute in E; congruence).
    exact (X13_best_key_result 1 keyring keyring' w w' r None t E).
  - vm_compute in E. discriminate.
Defined.

(** X14: at a clock that stays at [now] (a time at which [now - 300]
    does not overflow a [long]), [_dbus_keyring_get_best_key] fails
    only when its reload fails: the error it sets is the error of the
    reload, the keyring is left as it was, and the error "No
    recent-enough key found" does not occur, since a reload that
    succeeds has added a key made at [now]. *)
Theorem X14_steady_clock_failure_is_reload_failure (fuel : nat)
    (keyring keyring' : DBusKeyring) (w w' : World) (now r : Z)
    (e : DBusError) (t : list event) :
  clock_is now w ->
  plain_scan_time now ->
  _dbus_keyring_get_best_key fuel keyring w = Some ((keyring', r, Some e), w', t) ->
  keyring' = keyring
  /\ r = -1
  /\ exists w1,
       _dbus_keyring_reload fuel keyring true (after_time w)
       = Some ((keyring, Fail e), w1, t).
Proof.
  intros Hclock Hnow H. rewrite get_best_key_scan in H.
  destruct (first_recent_key (w_clock w O) (keys keyring)); [discriminate|].
  apply reload_and_scan_inv in H.
  destruct H as ([[]|e'] & w1 & Hreload & Hres).
  - exfalso.
    pose proof (respects_reload _ _ _ _ _ _ _ Hreload) as [Hlater _].
    assert (clock_is now w1) as Hw1.
    { eapply clock_is_later; [|exact Hlater]. now apply clock_is_after_time. }
    apply reload_add_Done in Hreload.
    destruct Hreload as (loaded & key & w2 & pre & deleted & -> & _ & _ & _ & _
                         & Hlater2 & Htime & _).
    assert (clock_is now w2) as Hw2.
    { eapply clock_is_later; [|exact Hlater2]. now apply clock_is_after_time. }
    rewrite (Hw2 O) in Htime. rewrite (Hw1 O) in Hres. cbn [set_keys keys] in Hres.
    destruct (first_recent_key now (loaded ++ [key])) eqn:E.
    + destruct Hres as [_ Hres]. discriminate.
    + apply first_recent_key_None in E; [|exact Hnow]. apply Forall_app in E.
      destruct E as [_ E]. inversion E as [|? ? Hstale _]; subst.
      unfold stale in Hstale. lia.
  - destruct Hres as (-> & Herr & ->). injection Herr as ->.
    repeat split. eauto.
Qed.

(** The lock cannot be taken: the call fails with the error of the
    reload. *)
Lemma X14_steady_clock_failure_is_reload_failure_witness :
  let keyring := example_keyring [mkDBusKey 4 600 (str "a")] in
  let w := mkWorld (always 1000) (always false) (always false) (always None)
                   (always true) (always true) (always zero) (always true) in
  match _dbus_keyring_get_best_key 1 keyring w with
  | Some ((keyring', r, Some e), _, t) =>
      keyring' = keyring /\ r = -1
      /\ exists w1,
           _dbus_keyring_reload 1 keyring true (after_time w)
           = Some ((keyring, Fail e), w1, t)
  | _ => False
  end.
Proof.
  intros keyring w.
  destruct (_dbus_keyring_get_best_key 1 keyring w)
    as [[[[[keyring' r] [e|]] w'] t]|] eqn:E.
  - assert (plain_scan_time 1000) as Hnow
      by (unfold plain_scan_time, LONG_MIN, LONG_MAX; lia).
    exact (X14_steady_clock_failure_is_reload_failure 1 keyring keyring' w w'
             1000 r e t (fun _ => eq_refl) Hnow E).
  - vm_compute in E. discriminate.
  - vm_compute in E. discriminate.
Defined.

(** X15: the window left to a client.  A key that the scan selects at
    the time [t] (made less than 300 seconds before [t]) and that is
    neither negative nor more than 300 seconds ahead is not dropped by
    the expiry test of a reload at any time from [t] to [t + 120]:
    [EXPIRE_KEYS_TIMEOUT_SECONDS - NEW_KEY_TIMEOUT_SECONDS] seconds at
    least remain.  The two times are such that the sums and differences
    of the two tests do not overflow a [long]. *)
Theorem X15_selected_key_outlives_two_minutes (t t' : Z) (keys : list DBusKey)
    (key : DBusKey) :
  plain_scan_time t ->
  plain_time t' ->
  first_recent_key t keys = Some key ->
  0 <= creation_time key <= t' + MAX_TIME_TRAVEL_SECONDS ->
  t <= t' <= t + (EXPIRE_KEYS_TIMEOUT_SECONDS - NEW_KEY_TIMEOUT_SECONDS) ->
  key_time_rejected t' (creation_time key) = false.
Proof.
  intros Hscan Hplain Hsel Hct Ht. apply first_recent_key_In in Hsel.
  destruct Hsel as [_ Hfresh]. rewrite (scan_bound _ Hscan) in Hfresh.
  apply not_true_iff_false. rewrite (key_time_rejected_iff _ _ Hplain).
  unfold MAX_TIME_TRAVEL_SECONDS, EXPIRE_KEYS_TIMEOUT_SECONDS,
    NEW_KEY_TIMEOUT_SECONDS in *.
  lia.
Qed.

(** A key 299 seconds old when selected, reloaded 120 seconds later. *)
Lemma X15_selected_key_outlives_two_minutes_witness :
  key_time_rejected 1120 701 = false.
Proof.
  refine (X15_selected_key_outlives_two_minutes 1000 1120
            [mkDBusKey 4 600 (str "a"); mkDBusKey 9 701 (str "b")]
            (mkDBusKey 9 701 (str "b")) _ _ _ _ _).
  - unfold plain_scan_time, LONG_MIN, LONG_MAX. lia.
  - unfold plain_time, LONG_MIN, LONG_MAX. lia.
  - reflexivity.
  - simpl. unfold MAX_TIME_TRAVEL_SECONDS. lia.
  - unfold EXPIRE_KEYS_TIMEOUT_SECONDS, NEW_KEY_TIMEOUT_SECONDS. lia.
Defined.

(** ** Two keyrings on one file *)

(** X16: what one keyring saves, another loads.  When a reload that adds
    a key has succeeded, and a reload without a new key (of any keyring)
    reads the text that was saved, with memory available and at a time
    (one at which the expiry test does not overflow a [long]) at which
    each of the keys is loadable (ID in range, creation time not
    expired, secret not empty), the second keyring gets the key list of
    the first: the same keys in the same order. *)
Theorem X16_saved_keys_load_in_another_keyring (fuel fuel2 : nat)
    (keyring1 keyring1' keyring2 : DBusKeyring) (w1 w2 : World)
    (t1 : list event) (path contents : DBusString) :
  run (_dbus_keyring_reload fuel keyring1 true) w1
  = Some ((keyring1', Done tt), t1) ->
  In (EvSave path contents true) t1 ->
  mem_ok w2 ->
  plain_time (w_clock w2 O) ->
  w_read w2 O = Some contents ->
  Forall (loadable (w_clock w2 O)) (keys keyring1') ->
  run (_dbus_keyring_reload fuel2 keyring2 false) w2
  = Some ((set_keys keyring2 (keys keyring1'), Done tt),
          [EvGetContents (filename keyring2) true]).
Proof.
  intros H Hin Hmem Hnow Hread Hload.
  apply run_Some in H. destruct H as [w' H].
  apply reload_add_Done in H.
  destruct H as (loaded & key & w3 & pre & deleted & -> & _ & _ & _ & _ & _ & _
                 & -> & Hpre).
  cbn [set_keys keys] in *.
  assert (contents = encode_keys (loaded ++ [key])) as ->.
  { apply in_app_or in Hin. destruct Hin as [Hin|Hin].
    - rewrite Forall_forall in Hpre. now apply Hpre in Hin.
    - destruct Hin as [Hin|[Hin|[Hin|[Hin|[]]]]]; try discriminate.
      now injection Hin. }
  now apply reload_loads_encoded_keys.
Qed.

(** The first keyring adds a key to a file of one key; the second reads
    the text saved twenty seconds later. *)
Lemma X16_saved_keys_load_in_another_keyring_witness :
  let keyring1 := example_keyring [] in
  let keyring2 := example_keyring [mkDBusKey 3 900 (str "old")] in
  let installed := [mkDBusKey 5 950 (str "k");
                    mkDBusKey 7 1000 (repeat "001"%char 24)] in
  let w1 := quiet_world 1000 (Some (ln "5 950 6b"))
              ("007"%char :: zero :: zero :: zero :: repeat "001"%char 24) in
  let w2 := quiet_world 1020 (Some (encode_keys installed)) [] in
  run (_dbus_keyring_reload 0 keyring2 false) w2
  = Some ((set_keys keyring2 installed, Done tt),
          [EvGetContents (filename keyring2) true]).
Proof.
  intros keyring1 keyring2 installed w1 w2.
  refine (X16_saved_keys_load_in_another_keyring 1 0 keyring1
            (set_keys keyring1 installed) keyring2 w1 w2 _
            (filename keyring1) (encode_keys installed) _ _ _ _ _ _).
  - vm_compute. reflexivity.
  - right. right. left. reflexivity.
  - intros n. reflexivity.
  - change (plain_time 1020). unfold plain_time, LONG_MIN, LONG_MAX. lia.
  - reflexivity.
  - unfold loadable, _DBUS_INT_MAX.
    repeat constructor; simpl; try lia; discriminate.
Defined.

(** ** The best key, when the scan finds none *)












(** ** The construction of a keyring *)

Lemma keyring_new_inv w k w' t :
  _dbus_keyring_new w = Some (k, w', t) ->
  t = [] /\ (forall keyring, k = Some keyring ->
                             keyring = mkDBusKeyring 1 [] [] [] []).
Proof.
  unfold _dbus_keyring_new, _dbus_string_init. intros H.
  repeat (rewrite bind_alloc in H;
          destruct (w_memory _ O); cbn [negb] in H;
          [|apply ret_Some in H; destruct H as (-> & _ & ->);
            split; [reflexivity|discriminate]]).
  apply ret_Some in H. destruct H as (-> & _ & ->).
  split; [reflexivity|]. now intros keyring [= <-].
Qed.

Lemma reload_false_inv fuel keyring w res w' t :
  _dbus_keyring_reload fuel keyring false w = Some (res, w', t) ->
  (t = [] \/ t = [get_contents_event keyring w])
  /\ (fst res = keyring \/ exists keys', fst res = set_keys keyring keys').
Proof.
  intros H.
  destruct (reload_false_run fuel keyring w) as (res0 & w0 & t0 & H0 & Ht & Hres).
  rewrite H0 in H. injection H as <- _ <-. auto.
Qed.

(** What the caller of [_dbus_keyring_new_homedir] gets. *)
Lemma new_homedir_inv fuel homedir context w k err w' t :
  _dbus_keyring_new_homedir fuel homedir context w = Some ((k, err), w', t) ->
  match k with
  | None => t = [] /\ (err = None -> w_memory w O = false)
  | Some keyring =>
      err = None
      /\ _dbus_keyring_validate_context context = true
      /\ refcount keyring = 1
      /\ (exists home,
            homedir = Some home
            /\ directory keyring = home ++ "/"%char :: str ".dbus-keyrings")
      /\ filename keyring = directory keyring ++ "/"%char :: context
      /\ filename_lock keyring = filename keyring ++ str ".lock"
      /\ exists ok,
           t = [EvCreateDirectory (directory keyring) ok]
           \/ exists found,
                t = [EvGetContents (filename keyring) found;
                     EvCreateDirectory (directory keyring) ok]
  end.
Proof.
  unfold _dbus_keyring_new_homedir, _dbus_string_init, _dbus_string_copy,
    _dbus_concat_dir_and_file, _dbus_string_append.
  cbv zeta. intros H. rewrite bind_alloc in H.
  destruct (w_memory w O) eqn:Hfirst; cbn [negb] in H;
    [|apply ret_Some in H; destruct H as (H & _ & ->);
      injection H as -> ->; auto].
  destruct homedir as [home|];
    [|apply ret_Some in H; destruct H as (H & _ & ->);
      injection H as -> ->; split; [reflexivity|discriminate]].
  bind_split H. destruct (keyring_new_inv _ _ _ _ Hrun) as (-> & Hnew).
  destruct a as [keyring0|];
    [|apply ret_Some in H; destruct H as (H & _ & ->);
      injection H as -> ->; split; [reflexivity|discriminate]].
  rewrite (Hnew _ eq_refl) in H. clear Hnew Hrun.
  destruct (_dbus_keyring_validate_context context) eqn:Hvalid; cbn [negb] in H;
    [|apply ret_Some in H; destruct H as (H & _ & ->);
      injection H as -> ->; split; [reflexivity|discriminate]].
  repeat (first [rewrite bind_assoc in H | rewrite bind_ret in H
                | rewrite bind_alloc in H];
          try (match type of H with
               | context [w_memory ?x O] => destruct (w_memory x O)
               end; cbn [negb] in H;
               [|apply ret_Some in H; destruct H as (H & _ & ->);
                 injection H as -> ->; split; [reflexivity|discriminate]])).
  cbn [refcount keys] in H.
  bind_split H. destruct a as [keyring1 r].
  apply reload_false_inv in Hrun. cbn [fst] in Hrun |- *.
  destruct Hrun as (Ht & Hres).
  unfold bind, _dbus_create_directory, ret in H. cbn [directory fst] in H.
  injection H as <- <- _ <-.
  assert (refcount keyring1 = 1
          /\ directory keyring1 = home ++ "/"%char :: str ".dbus-keyrings"
          /\ filename keyring1
             = (home ++ "/"%char :: str ".dbus-keyrings") ++ "/"%char :: context
          /\ filename_lock keyring1
             = ((home ++ "/"%char :: str ".dbus-keyrings") ++ "/"%char :: context)
               ++ str ".lock") as (Hrc & Hdir & Hfile & Hlock).
  { destruct Hres as [->|(keys' & ->)]; repeat split; reflexivity. }
  rewrite Hdir, Hfile, Hlock. repeat split; auto.
  - exists home. auto.
  - eexists. destruct Ht as [->| ->]; [left; reflexivity|].
    right. unfold get_contents_event. cbn [filename]. eexists. reflexivity.
Qed.

(** X17: what [_dbus_keyring_new_homedir] returns.  When it returns
    NULL it has touched no file, and it has set an error unless its
    very first allocation failed.  When it returns a keyring no error
    is set, the context is a valid one, the keyring has one reference,
    its directory is the home directory joined with ".dbus-keyrings",
    its data file the directory joined with the context, its lock file
    the data file with ".lock" appended, and all that was done to the
    file system is at most one read of the data file, then one attempt
    to create the directory. *)
Theorem X17_new_homedir_result (fuel : nat) (homedir : option DBusString)
    (context : DBusString) (w : World) (k : option DBusKeyring)
    (err : option DBusError) (t : list event) :
  run (_dbus_keyring_new_homedir fuel homedir context) w = Some ((k, err), t) ->
  match k with
  | None => t = [] /\ (err = None -> w_memory w O = false)
  | Some keyring =>
      err = None
      /\ _dbus_keyring_validate_context context = true
      /\ refcount keyring = 1
      /\ (exists home,
            homedir = Some home
            /\ directory keyring = home ++ "/"%char :: str ".dbus-keyrings")
      /\ filename keyring = directory keyring ++ "/"%char :: context
      /\ filename_lock keyring = filename keyring ++ str ".lock"
      /\ exists ok,
           t = [EvCreateDirectory (directory keyring) ok]
           \/ exists found,
                t = [EvGetContents (filename keyring) found;
                     EvCreateDirectory (directory keyring) ok]
  end.
Proof.
  intros H. apply run_Some in H. destruct H as (w' & H).
  exact (new_homedir_inv _ _ _ _ _ _ _ _ H).
Qed.

Lemma X17_new_homedir_result_witness :
  exists keyring,
    filename keyring = str "/home/u/.dbus-keyrings/org_freedesktop_general"
    /\ filename_lock keyring
       = str "/home/u/.dbus-keyrings/org_freedesktop_general.lock".
Proof.
  pose (w := quiet_world 1000 None []).
  destruct (run (_dbus_keyring_new_homedir 1 (Some (str "/home/u"))
                   (str "org_freedesktop_general")) w)
    as [[[[keyring|] err] t]|] eqn:E; try (vm_compute in E; discriminate).
  exists keyring.
  pose proof (X17_new_homedir_result _ _ _ _ _ _ _ E) as H.
  cbv beta iota in H.
  destruct H as (_ & _ & _ & (home & Hhome & Hdir) & Hfile & Hlock & _).
  injection Hhome as <-.
  rewrite Hlock, Hfile, Hdir. split; reflexivity.
Defined.

Lemma memory_after_alloc w n : w_memory (after_alloc w) n = w_memory w (S n).
Proof. reflexivity. Qed.

(** X18: the construction of a keyring fails for lack of memory, for a
    home directory that is not found or for an invalid context, and
    for nothing else: when its first eleven allocations succeed, the
    home directory is known and the context is valid it returns a
    keyring and sets no error, with any fuel and whatever the file
    system answers when the data file is read and the directory
    created. *)
Theorem X18_new_homedir_succeeds (fuel : nat) (home context : DBusString)
    (w : World) :
  (forall n, (n < 11)%nat -> w_memory w n = true) ->
  _dbus_keyring_validate_context context = true ->
  exists keyring t,
    run (_dbus_keyring_new_homedir fuel (Some home) context) w
    = Some ((Some keyring, None), t).
Proof.
  intros Hmem Hvalid.
  unfold run, _dbus_keyring_new_homedir, _dbus_keyring_new, _dbus_string_init,
    _dbus_string_copy, _dbus_concat_dir_and_file, _dbus_string_append.
  cbv zeta.
  rewrite bind_alloc, Hmem by lia. cbn [negb].
  rewrite bind_assoc, bind_alloc, memory_after_alloc, Hmem by lia. cbn [negb].
  repeat (first [rewrite bind_assoc | rewrite bind_ret | rewrite bind_alloc];
          rewrite ?memory_after_alloc; rewrite ?Hmem by lia;
          rewrite ?Hvalid; cbn [negb]).
  match goal with
  | |- context [bind (_dbus_keyring_reload fuel ?k false) _ ?w1] =>
      destruct (reload_false_run fuel k w1) as (res & w2 & t2 & Hrun & _)
  end.
  unfold bind at 1. rewrite Hrun.
  unfold bind, _dbus_create_directory, ret.
  eexists _, _. reflexivity.
Qed.

Lemma X18_new_homedir_succeeds_witness :
  exists keyring t,
    run (_dbus_keyring_new_homedir 0 (Some (str "/home/u")) (str "ctx"))
        (mkWorld (always 1000) (always false) (always false) (always None)
                 (always false) (always false) (always zero) (always true))
    = Some ((Some keyring, None), t).
Proof.
  apply X18_new_homedir_succeeds; [reflexivity|reflexivity].
Defined.

(** ** The names of the files *)

Lemma find_char_In (s : DBusString) (c : ascii) :
  In c s -> _dbus_string_find_char s c = true.
Proof.
  intros H. unfold _dbus_string_find_char. apply existsb_exists.
  exists c. split; [exact H|apply Z.eqb_refl].
Qed.

Lemma validate_context_no_separator context :
  _dbus_keyring_validate_context context = true ->
  ~ In "/"%char context /\ ~ In "."%char context.
Proof.
  unfold _dbus_keyring_validate_context. intros H.
  destruct (Nat.eqb (length context) 0); [discriminate|].
  destruct (negb (_dbus_string_validate_ascii context)); [discriminate|].
  destruct (_dbus_string_find_char context "/") eqn:Hslash; [discriminate|].
  destruct (_dbus_string_find_char context "\"); [discriminate|].
  destruct (_dbus_string_find_char context ".") eqn:Hdot; [discriminate|].
  split; intros Hin; apply find_char_In in Hin; congruence.
Qed.

(** Two names that end in a component without slash are equal only if
    the components and what precedes them are. *)
Lemma last_component_unique (x : DBusString) : forall (y a b : DBusString),
  ~ In "/"%char a -> ~ In "/"%char b ->
  x ++ "/"%char :: a = y ++ "/"%char :: b ->
  x = y /\ a = b.
Proof.
  induction x as [|c x IH]; intros y a b Ha Hb H.
  - destruct y as [|d y]; cbn [app] in H.
    + injection H as ->. auto.
    + injection H as _ ->. exfalso. apply Ha.
      apply in_or_app. right. now left.
  - destruct y as [|d y]; cbn [app] in H.
    + injection H as _ <-. exfalso. apply Hb.
      apply in_or_app. right. now left.
    + injection H as -> H. destruct (IH y a b Ha Hb H) as [-> ->]. auto.
Qed.

(** X19: the names of two keyrings that were constructed, for any two
    users and contexts, never clash: the data file of one is not the
    lock file of the other (nor its own), nor the directory of the
    other, and two keyrings share their data file only if they have the
    same context and the same directory.  This is what the refusal of
    dots and slashes in a context is for. *)
Theorem X19_names_never_clash (fuel1 fuel2 : nat)
    (homedir1 homedir2 : option DBusString) (context1 context2 : DBusString)
    (w1 w2 : World) (keyring1 keyring2 : DBusKeyring)
    (err1 err2 : option DBusError) (t1 t2 : list event) :
  run (_dbus_keyring_new_homedir fuel1 homedir1 context1) w1
  = Some ((Some keyring1, err1), t1) ->
  run (_dbus_keyring_new_homedir fuel2 homedir2 context2) w2
  = Some ((Some keyring2, err2), t2) ->
  filename keyring1 <> filename_lock keyring2
  /\ filename keyring1 <> directory keyring2
  /\ (filename keyring1 = filename keyring2 ->
      context1 = context2 /\ directory keyring1 = directory keyring2).
Proof.
  intros H1 H2.
  apply run_Some in H1. destruct H1 as (w1' & H1).
  apply run_Some in H2. destruct H2 as (w2' & H2).
  apply new_homedir_inv in H1. apply new_homedir_inv in H2.
  destruct H1 as (_ & Hv1 & _ & (home1 & _ & Hd1) & Hf1 & _).
  destruct H2 as (_ & Hv2 & _ & (home2 & _ & Hd2) & Hf2 & Hl2 & _).
  apply validate_context_no_separator in Hv1, Hv2.
  destruct Hv1 as [Hs1 Hdot1], Hv2 as [Hs2 Hdot2].
  assert (~ In "/"%char (str ".dbus-keyrings")) as Hdotdir.
  { cbn. intros H. repeat (destruct H as [H|H]; [discriminate|]). exact H. }
  repeat split.
  - rewrite Hf1, Hl2, Hf2, <- app_assoc, <- app_comm_cons. intros H.
    apply last_component_unique in H; [destruct H as [_ H]|exact Hs1|].
    + apply Hdot1. rewrite H. apply in_or_app. right. now left.
    + intros Hin. apply in_app_or in Hin. destruct Hin as [Hin|Hin];
        [now apply Hs2|].
      cbn in Hin. repeat (destruct Hin as [Hin|Hin]; [discriminate|]).
      exact Hin.
  - rewrite Hf1, Hd2. intros H.
    apply last_component_unique in H; [|exact Hs1|exact Hdotdir].
    destruct H as [_ H]. apply Hdot1. rewrite H. now left.
  - rewrite Hf1, Hf2 in H.
    apply last_component_unique in H; [|exact Hs1|exact Hs2].
    now destruct H.
  - rewrite Hf1, Hf2 in H.
    apply last_component_unique in H; [|exact Hs1|exact Hs2].
    now destruct H.
Qed.

(** The contexts "a" and "a_lock" of one user. *)
Lemma X19_names_never_clash_witness :
  let dir := str "/home/u/.dbus-keyrings" in
  let keyring1 :=
    mkDBusKeyring 1 dir (str "/home/u/.dbus-keyrings/a")
                  (str "/home/u/.dbus-keyrings/a.lock") [] in
  let keyring2 :=
    mkDBusKeyring 1 dir (str "/home/u/.dbus-keyrings/a_lock")
                  (str "/home/u/.dbus-keyrings/a_lock.lock") [] in
  filename keyring1 <> filename_lock keyring2.
Proof.
  intros dir keyring1 keyring2.
  refine (proj1 (X19_names_never_clash 1 1 (Some (str "/home/u"))
                   (Some (str "/home/u")) (str "a") (str "a_lock")
                   (quiet_world 1000 None []) (quiet_world 1000 None [])
                   keyring1 keyring2 None None
                   [EvGetContents (filename keyring1) false;
                    EvCreateDirectory dir true]
                   [EvGetContents (filename keyring2) false;
                    EvCreateDirectory dir true] _ _)).
  - vm_compute. reflexivity.
  - vm_compute. reflexivity.
Defined.

(** ** References *)

Lemma refcount_ref_times n keyring :
  _DBUS_INT_MIN <= refcount keyring ->
  refcount keyring + Z.of_nat n <= _DBUS_INT_MAX ->
  refcount (Nat.iter n _dbus_keyring_ref keyring) = refcount keyring + Z.of_nat n.
Proof.
  intros Hmin. induction n as [|n IH]; intros Hmax.
  { change (Nat.iter 0 _dbus_keyring_ref keyring) with keyring. lia. }
  rewrite Nat.iter_succ. unfold _dbus_keyring_ref at 1. cbn [refcount].
  rewrite IH by lia. rewrite wrap_int32_small; lia.
Qed.

Lemma unref_ref keyring :
  refcount keyring <> 0 ->
  _DBUS_INT_MIN <= refcount keyring < _DBUS_INT_MAX ->
  _dbus_keyring_unref (_dbus_keyring_ref keyring) = Some keyring.
Proof.
  intros H Hrange. unfold _dbus_keyring_unref, _dbus_keyring_ref.
  cbn [refcount directory filename filename_lock keys]. cbv zeta.
  rewrite (wrap_int32_small (refcount keyring + 1)) by lia.
  replace (refcount keyring + 1 - 1) with (refcount keyring) by lia.
  rewrite wrap_int32_small by lia.
  destruct (Z.eqb_spec (refcount keyring) 0) as [E|_]; [lia|].
  now destruct keyring.
Qed.

(** X20: references are counted.  A keyring that holds one reference,
    as one that was just constructed does, is back as it was after [n]
    calls of [_dbus_keyring_ref] and [n] calls of
    [_dbus_keyring_unref], none of which finalizes it, and the next
    [_dbus_keyring_unref] finalizes it; [n] is less than [INT_MAX], so
    that the count, an [int], does not overflow. *)
Theorem X20_references_balance (n : nat) (keyring : DBusKeyring) :
  refcount keyring = 1 ->
  Z.of_nat n < _DBUS_INT_MAX ->
  unref_times n (Nat.iter n _dbus_keyring_ref keyring) = Some keyring
  /\ unref_times (S n) (Nat.iter n _dbus_keyring_ref keyring) = None.
Proof.
  intros Hone Hn.
  assert (forall m k, unref_times (S m) k
                      = match unref_times m k with
                        | Some k' => _dbus_keyring_unref k'
                        | None => None
                        end) as Hlast.
  { induction m as [|m IH]; intros k.
    - cbn [unref_times]. now destruct (_dbus_keyring_unref k).
    - change (unref_times (S (S m)) k)
        with (match _dbus_keyring_unref k with
              | Some k' => unref_times (S m) k'
              | None => None
              end).
      cbn [unref_times].
      destruct (_dbus_keyring_unref k) as [k'|]; [apply IH|reflexivity]. }
  assert (unref_times n (Nat.iter n _dbus_keyring_ref keyring) = Some keyring)
    as Hback.
  { revert Hn. unfold _DBUS_INT_MAX.
    induction n as [|n IH]; intros Hn; [reflexivity|].
    rewrite Nat.iter_succ. cbn [unref_times]. rewrite unref_ref; [apply IH; lia| |];
      rewrite refcount_ref_times;
      unfold _DBUS_INT_MIN, _DBUS_INT_MAX; lia. }
  split; [exact Hback|].
  rewrite Hlast, Hback. unfold _dbus_keyring_unref. now rewrite Hone.
Qed.

Lemma X20_references_balance_witness :
  unref_times 3 (Nat.iter 3 _dbus_keyring_ref (example_keyring []))
  = Some (example_keyring [])
  /\ unref_times 4 (Nat.iter 3 _dbus_keyring_ref (example_keyring [])) = None.
Proof.
  apply (X20_references_balance 3 (example_keyring [])).
  - reflexivity.
  - unfold _DBUS_INT_MAX. lia.
Defined.

(** ** The key that [add_new_key] makes *)

Lemma nth_draw_next (w w1 : World) i :
  (forall n, w_random w1 n = w_random w (4 + n)%nat) ->
  nth_draw w1 i = nth_draw w (S i).
Proof.
  intros H. unfold nth_draw. apply take_ext. intros n. unfold shift.
  rewrite H. f_equal. lia.
Qed.

(** With memory, the retry loop returns the ID of the first draw that
    is the ID of no key, and has consumed four random bytes per draw. *)
Lemma draw_new_id_first_fresh fuel keys : forall w k,
  mem_ok w ->
  (k < fuel)%nat ->
  (forall i, (i < k)%nat ->
             find_key_by_id keys (new_key_id (nth_draw w i)) <> None) ->
  find_key_by_id keys (new_key_id (nth_draw w k)) = None ->
  exists w',
    draw_new_id fuel keys w = Some (Done (new_key_id (nth_draw w k)), w', [])
    /\ mem_ok w'
    /\ w_clock w' = w_clock w
    /\ forall n, w_random w' n = w_random w (4 * S k + n)%nat.
Proof.
  induction fuel as [|fuel IH]; intros w k Hmem Hk Hbefore Hfresh; [lia|].
  cbn [draw_new_id]. unfold _dbus_generate_random_bytes.
  rewrite bind_assoc, bind_alloc, (Hmem O). cbv beta iota.
  unfold bind at 1. cbv beta iota.
  assert (take 4 (w_random (after_alloc w)) = nth_draw w 0) as E0.
  { unfold nth_draw. apply take_ext. intros n. reflexivity. }
  rewrite E0.
  destruct k as [|k].
  - rewrite Hfresh. eexists. split; [reflexivity|].
    split; [|split].
    + intros n. apply (Hmem (S n)).
    + reflexivity.
    + intros n. reflexivity.
  - destruct (find_key_by_id keys (new_key_id (nth_draw w 0))) eqn:E;
      [|exfalso; apply (Hbefore O); [lia|exact E]].
    match goal with
    | |- context [draw_new_id fuel keys ?w1] =>
        assert (forall n, w_random w1 n = w_random w (4 + n)%nat) as Hnext
          by (intros n; reflexivity);
        destruct (IH w1 k) as (w' & Hrun & Hmem' & Hclock & Hrandom)
    end.
    + intros n. apply (Hmem (S n)).
    + lia.
    + intros i Hi. rewrite (nth_draw_next w _ i Hnext). apply Hbefore. lia.
    + rewrite (nth_draw_next w _ k Hnext). exact Hfresh.
    + rewrite (nth_draw_next w _ k Hnext) in Hrun.
      exists w'. rewrite Hrun. split; [reflexivity|]. split; [exact Hmem'|].
      split; [exact Hclock|].
      intros n. rewrite Hrandom, Hnext. f_equal. lia.
Qed.

Lemma random_bytes_mem_ok n w :
  mem_ok w ->
  exists w',
    _dbus_generate_random_bytes n w = Some (Some (take n (w_random w)), w', [])
    /\ mem_ok w'
    /\ w_clock w' = w_clock w.
Proof.
  intros Hmem. unfold _dbus_generate_random_bytes.
  rewrite bind_alloc, (Hmem O).
  eexists. split; [reflexivity|]. split; [|reflexivity].
  intros i. apply (Hmem (S i)).
Qed.

(** X21: the key that [add_new_key] makes.  With memory, when the
    [k]-th draw of four random bytes is the first one that gives an ID
    that no key of the list has, and the fuel allows [k + 1] draws,
    [add_new_key] returns the list with one key appended: its ID is
    the ID of that draw, its creation time the time read from the
    clock, and its secret the 24 random bytes that follow the draws.
    No event occurs. *)
Theorem X21_add_new_key_first_fresh_draw (fuel : nat) (keys : list DBusKey)
    (w : World) (k : nat) :
  mem_ok w ->
  (k < fuel)%nat ->
  (forall i, (i < k)%nat ->
             find_key_by_id keys (new_key_id (nth_draw w i)) <> None) ->
  find_key_by_id keys (new_key_id (nth_draw w k)) = None ->
  run (add_new_key fuel keys) w
  = Some (Done (keys ++ [mkDBusKey (new_key_id (nth_draw w k)) (w_clock w O)
                           (take KEY_LENGTH_BYTES
                              (shift (4 * S k) (w_random w)))]),
          []).
Proof.
  intros Hmem Hk Hbefore Hfresh.
  unfold run, add_new_key, dbus_realloc, _dbus_string_init, _dbus_string_move.
  rewrite bind_alloc, (Hmem O). cbn [negb].
  destruct (draw_new_id_first_fresh fuel keys (after_alloc w) k)
    as (w1 & Hdraw & Hmem1 & Hclock & Hrandom);
    [now apply mem_ok_after_alloc|exact Hk|exact Hbefore|exact Hfresh|].
  change (nth_draw (after_alloc w) k) with (nth_draw w k) in Hdraw.
  rewrite (bind_silent _ _ _ _ _ Hdraw).
  destruct (random_bytes_mem_ok KEY_LENGTH_BYTES w1 Hmem1)
    as (w2 & Hbytes & Hmem2 & Hclock2).
  rewrite (bind_silent _ _ _ _ _ Hbytes).
  rewrite bind_alloc, (Hmem2 O). cbn [negb].
  rewrite bind_alloc, (mem_ok_after_alloc _ Hmem2 O). cbn [negb].
  rewrite bind_time, bind_alloc.
  change (w_memory (after_time (after_alloc (after_alloc w2))) O)
    with (w_memory (after_alloc (after_alloc w2)) O).
  rewrite (mem_ok_after_alloc _ (mem_ok_after_alloc _ Hmem2) O). cbn [negb].
  unfold ret.
  change (w_clock (after_alloc (after_alloc w2)) O) with (w_clock w2 O).
  rewrite Hclock2, Hclock.
  rewrite (take_ext KEY_LENGTH_BYTES (w_random w1)
             (shift (4 * S k) (w_random w))) by exact Hrandom.
  reflexivity.
Qed.

(** The first draw gives the ID 5, which the list holds; the second
    gives 7. *)
Lemma X21_add_new_key_first_fresh_draw_witness :
  let keys := [mkDBusKey 5 950 (str "k")] in
  let w := quiet_world 1000 None
             (["005"%char; zero; zero; zero; "007"%char; zero; zero; zero]
              ++ repeat "001"%char 24) in
  run (add_new_key 2 keys) w
  = Some (Done (keys ++ [mkDBusKey 7 1000 (repeat "001"%char 24)]), []).
Proof.
  intros keys w.
  refine (X21_add_new_key_first_fresh_draw 2 keys w 1 _ _ _ _).
  - intros n. reflexivity.
  - lia.
  - intros i Hi. assert (i = O) as -> by lia. discriminate.
  - reflexivity.
Defined.
